(** * The exam application [app.py]: bank loader, timer and grading engine

    A shallow embedding of the helpers of [app.py] ([generate_demo_bank],
    [load_bank_from_upload], [check_numeric_answer], [grade_exam]), of
    [render_question] and of the script blocks that use them (the sidebar
    import, the start/submit/timer controls and the loop over the
    questions), followed by the properties that the specification states
    about them and by further properties of the code.

    Python [float] is IEEE 754 binary64 and is modelled by Rocq's primitive
    [float], which is the same format with the same correctly rounded
    operations.  [timedelta] counts whole microseconds and is modelled by
    [Z].  Text is modelled by [string], the bytes of the text; the methods
    of [str] are modelled as they act on ASCII text, and where a statement
    depends on characters outside ASCII it says so.  What pandas, numpy and
    Streamlit do is modelled as far as the statements need it, and each
    definition says what it leaves out. *)

From Stdlib Require Import ZArith String Ascii List Bool Lia Floats.
From stdpp Require Import gmap strings list pretty.

Local Open Scope Z_scope.
Local Open Scope string_scope.

(** ** Exceptions *)

(** The exception classes the modelled code can meet.  All of them derive
    from [Exception], so the [except Exception] clauses of the source catch
    every one. *)
Inductive exn : Type :=
| ValueError
| TypeError
| AttributeError
| OverflowError
| IndexError
| ZeroDivisionError
| ParserError.

(** A computation that returns or raises. *)
Inductive result (A : Type) : Type :=
| Ok (a : A)
| Raise (e : exn).
Arguments Ok {A} a.
Arguments Raise {A} e.

#[global] Instance result_ret : MRet result := fun _ a => Ok a.
#[global] Instance result_bind : MBind result := fun _ _ k r =>
  match r with
  | Ok a => k a
  | Raise e => Raise e
  end.
#[global] Instance result_fmap : FMap result := fun _ _ g r =>
  match r with
  | Ok a => Ok (g a)
  | Raise e => Raise e
  end.

(** [try: body except Exception: handler]. *)
Definition try_except {A} (body : result A) (handler : exn -> A) : A :=
  match body with
  | Ok a => a
  | Raise e => handler e
  end.

(** A computation over a store of type [S] that returns or raises; the
    store is threaded so that what the code does to it can be stated. *)
Definition Exec (S A : Type) : Type := S -> result A * S.

Definition exec_ret {S A} (a : A) : Exec S A := fun s => (Ok a, s).

Definition exec_bind {S A B} (m : Exec S A) (k : A -> Exec S B) : Exec S B :=
  fun s =>
    match m s with
    | (Ok a, s') => k a s'
    | (Raise e, s') => (Raise e, s')
    end.

Definition lift {S A} (r : result A) : Exec S A := fun s => (r, s).

Notation "'do' x <- m ; k" := (exec_bind m (fun x => k))
  (at level 10, x name, m at level 100, k at level 200).

(** ** Python values *)

(** The values found in the cells of a bank.  [VNpNan] is the object bound
    to [np.nan] itself: a membership test [x in (..., np.nan)] compares by
    identity before it compares by [==], and [==] is false on every NaN, so
    this one object has to be told apart from the other floats holding a
    NaN. *)
Inductive pyval : Type :=
| VNone
| VStr (s : string)
| VInt (z : Z)
| VFloat (f : float)
| VNpNan.

(** ** Methods of [str] *)

Definition is_lower (c : ascii) : bool :=
  ((97 <=? Z.of_N (N_of_ascii c)) && (Z.of_N (N_of_ascii c) <=? 122))%Z.

Definition is_upper (c : ascii) : bool :=
  ((65 <=? Z.of_N (N_of_ascii c)) && (Z.of_N (N_of_ascii c) <=? 90))%Z.

Definition upper_char (c : ascii) : ascii :=
  if is_lower c then ascii_of_N (N_of_ascii c - 32) else c.

Definition lower_char (c : ascii) : ascii :=
  if is_upper c then ascii_of_N (N_of_ascii c + 32) else c.

Fixpoint map_string (g : ascii -> ascii) (s : string) : string :=
  match s with
  | EmptyString => EmptyString
  | String c s' => String (g c) (map_string g s')
  end.

(** Text is held as its bytes.  A text is ASCII when every byte is below
    128; each byte is then one character. *)
Definition is_ascii (s : string) : bool :=
  forallb (fun c => (Z.of_N (N_of_ascii c) <? 128)%Z) (list_ascii_of_string s).

(** [s.upper()] and [s.lower()] of an ASCII text: the letters a-z and A-Z
    change case and nothing else does.  On a text with other characters
    [str.upper] and [str.lower] follow the case tables of Unicode, which
    are not reproduced here: what is stated of [upper] is stated of ASCII
    text, or of a comparison that no other character can meet. *)
Definition upper (s : string) : string := map_string upper_char s.
Definition lower (s : string) : string := map_string lower_char s.

(** [s.replace(a, b)] for one-character [a] and [b]. *)
Definition replace_char (a b : ascii) (s : string) : string :=
  map_string (fun c => if Ascii.eqb c a then b else c) s.

(** The ASCII characters for which [str.isspace] holds: tab, line feed,
    vertical tab, form feed, carriage return, the four separators
    0x1c-0x1f and the space.  The blanks of Unicode outside ASCII are not
    among them: [strip] below leaves them, so a text of such blanks only
    is not blank here; no [float] reads such a text either. *)
Definition is_space (c : ascii) : bool :=
  let n := Z.of_N (N_of_ascii c) in
  (((9 <=? n) && (n <=? 13)) || ((28 <=? n) && (n <=? 32)))%Z.

Fixpoint lstrip (s : string) : string :=
  match s with
  | EmptyString => EmptyString
  | String c s' => if is_space c then lstrip s' else s
  end.

Fixpoint rstrip (s : string) : string :=
  match s with
  | EmptyString => EmptyString
  | String c s' =>
      match rstrip s' with
      | EmptyString => if is_space c then EmptyString else String c EmptyString
      | r => String c r
      end
  end.

(** [s.strip()]. *)
Definition strip (s : string) : string := rstrip (lstrip s).

(** [s.endswith(suffix)]. *)
Definition endswith (s suffix : string) : bool :=
  let n := String.length s in
  let k := String.length suffix in
  (k <=? n)%nat && String.eqb (substring (n - k) k s) suffix.

(** [sep.join(parts)]. *)
Fixpoint join (sep : string) (parts : list string) : string :=
  match parts with
  | [] => ""
  | [p] => p
  | p :: rest => p ++ sep ++ join sep rest
  end.

(** ** Builtins taken as given

    The conversions between text and numbers are CPython's own code, not
    this repository's.  They are an interface here: every property below
    holds whatever these four functions are.  [decimal_builtins] further
    down implements them on ASCII text, to run the code on concrete
    inputs. *)
Class Builtins : Type := {
  (** [float(s)] for a string: [None] is [ValueError]. *)
  float_of_str : string -> option float;
  (** [int(s)] for a string: [None] is [ValueError]. *)
  int_of_str : string -> option Z;
  (** [str(x)] for a float. *)
  str_of_float : float -> string;
  (** [round(x, ndigits)] for a float. *)
  round_float : float -> Z -> float
}.

(** [float(n)] for an integer: the nearest double, ties to even, and
    [OverflowError] past the largest finite double. *)
Definition float_of_Z (z : Z) : result float :=
  let f := SF2Prim (binary_normalize prec emax z 0 false) in
  if PrimFloat.is_infinity f then Raise OverflowError else Ok f.

(** [int(x)] for a float: truncation towards zero. *)
Definition Z_of_float (f : float) : result Z :=
  match Prim2SF f with
  | S754_zero _ => Ok 0
  | S754_finite s m e => Ok (cond_Zopp s (Z.shiftl (Zpos m) e))
  | S754_infinity _ => Raise OverflowError
  | S754_nan => Raise ValueError
  end.

Section Conversions.
Context `{B : Builtins}.

(** [str(v)]. *)
Definition py_str (v : pyval) : string :=
  match v with
  | VNone => "None"
  | VStr s => s
  | VInt z => pretty z
  | VFloat f => str_of_float f
  | VNpNan => "nan"
  end.

(** [float(v)]. *)
Definition py_float (v : pyval) : result float :=
  match v with
  | VNone => Raise TypeError
  | VStr s =>
      match float_of_str s with
      | Some f => Ok f
      | None => Raise ValueError
      end
  | VInt z => float_of_Z z
  | VFloat f => Ok f
  | VNpNan => Ok PrimFloat.nan
  end.

(** [int(v)]. *)
Definition py_int (v : pyval) : result Z :=
  match v with
  | VNone => Raise TypeError
  | VStr s =>
      match int_of_str s with
      | Some z => Ok z
      | None => Raise ValueError
      end
  | VInt z => Ok z
  | VFloat f => Z_of_float f
  | VNpNan => Raise ValueError
  end.
End Conversions.

(** ** Tables *)

(** A row of a table as [iterrows] yields it: the column labels with the
    cells. *)
Definition Series : Type := list (string * pyval).

(** A [pandas.DataFrame]: its column labels and its rows. *)
Record DataFrame : Type := {
  columns : list string;
  rows : list Series
}.

Fixpoint series_get (row : Series) (k : string) : option pyval :=
  match row with
  | [] => None
  | (k', v) :: rest => if String.eqb k' k then Some v else series_get rest k
  end.

(** [row.k]: attribute access on a row, [AttributeError] without such a
    label. *)
Definition attr (row : Series) (k : string) : result pyval :=
  match series_get row k with
  | Some v => Ok v
  | None => Raise AttributeError
  end.

(** [row.get(k, d)]. *)
Definition get (row : Series) (k : string) (d : pyval) : pyval :=
  default d (series_get row k).

Fixpoint series_set (row : Series) (k : string) (v : pyval) : Series :=
  match row with
  | [] => [(k, v)]
  | (k', v') :: rest =>
      if String.eqb k' k then (k', v) :: rest else (k', v') :: series_set rest k v
  end.

(** ** Grading *)

Section Grading.
Context `{B : Builtins}.

(** [tolerance in (None, "", np.nan)]: equal to [None] or to the empty
    string, or the very object [np.nan]. *)
Definition tolerance_missing (tolerance : pyval) : bool :=
  match tolerance with
  | VNone => true
  | VStr s => String.eqb s ""
  | VNpNan => true
  | VInt _ => false
  | VFloat _ => false
  end.

Definition is_none (v : pyval) : bool :=
  match v with
  | VNone => true
  | _ => false
  end.

(** The body of [check_numeric_answer], inside its [try]. *)
Definition check_numeric_body (user_text correct_value tolerance : pyval)
  : result bool :=
  if is_none user_text || String.eqb (strip (py_str user_text)) "" then Ok false
  else
    u ← py_float (VStr (replace_char "," "." (py_str user_text)));
    c ← py_float correct_value;
    tol ← (if tolerance_missing tolerance then Ok 0%float
           else py_float tolerance);
    Ok (PrimFloat.leb (PrimFloat.abs (PrimFloat.sub u c)) tol).

(** [check_numeric_answer(user_text, correct_value, tolerance)]. *)
Definition check_numeric_answer (user_text correct_value tolerance : pyval)
  : bool :=
  try_except (check_numeric_body user_text correct_value tolerance)
             (fun _ => false).

(** One row of the detail table. *)
Record Detail : Type := {
  d_variant : Z;
  d_qnum : Z;
  d_type : pyval;
  d_topic : pyval;
  d_difficulty : pyval;
  d_correct : pyval;
  d_your : pyval;
  d_is_correct : bool;
  d_score : float;
  d_max_score : float
}.

(** The answer map is a dictionary object shared with the session; the
    grading code runs over it as its store. *)
Definition Answers : Type := gmap (Z * Z) pyval.

(** [answers.get(key, None)]. *)
Definition answers_get (key : Z * Z) : Exec Answers pyval :=
  fun answers => (Ok (default VNone (answers !! key)), answers).

(** The two comparison rules: [ok] for a row of type [ty]. *)
Definition is_mcq (ty : pyval) : bool := String.eqb (lower (py_str ty)) "mcq".

Definition mcq_ok (ans correct : pyval) : bool :=
  String.eqb (upper (py_str ans)) (upper (py_str correct)).

(** The body of the loop of [grade_exam], for one row.  The record
    appended to [details] reads [int(row.variant)], [int(row.qnum)],
    [row.type], [row.correct] and [float(row.score)] a second time; they
    are the values already computed. *)
Definition grade_row (row : Series) (acc : float * float * list Detail)
  : Exec Answers (float * float * list Detail) :=
  let '(total, max_total, details) := acc in
  do variant <- lift (attr row "variant" ≫= py_int);
  do qnum <- lift (attr row "qnum" ≫= py_int);
  do ans <- answers_get (variant, qnum);
  do ty <- lift (attr row "type");
  do correct <- lift (attr row "correct");
  let ok :=
    if is_mcq ty then mcq_ok ans correct
    else check_numeric_answer ans correct (get row "tolerance" VNone) in
  do s <- lift (if ok then attr row "score" ≫= py_float else Ok 0%float);
  do score <- lift (attr row "score" ≫= py_float);
  exec_ret
    (PrimFloat.add total s,
     PrimFloat.add max_total score,
     (details ++ [ {| d_variant := variant; d_qnum := qnum; d_type := ty;
                      d_topic := get row "topic" (VStr "");
                      d_difficulty := get row "difficulty" (VStr "");
                      d_correct := correct; d_your := ans;
                      d_is_correct := ok; d_score := s;
                      d_max_score := score |} ])%list).

Fixpoint grade_rows (rs : list Series) (acc : float * float * list Detail)
  : Exec Answers (float * float * list Detail) :=
  match rs with
  | [] => exec_ret acc
  | row :: rest => do acc' <- grade_row row acc; grade_rows rest acc'
  end.

(** [grade_exam(bank, answers)]: the total, the maximum and the records
    appended to [details], in order, with the answer map as it is left.
    The table returned is [pd.DataFrame(details)]; making a table of the
    records is pandas' work and is not modelled (in a column, pandas may
    hold a [None] as NaN).  What is stated of a record is stated of the
    dictionary the loop appends. *)
Definition grade_exam (bank : DataFrame)
  : Exec Answers (float * float * list Detail) :=
  grade_rows (rows bank) (0%float, 0%float, []).
End Grading.

(** ** The builtins, implemented

    Decimal text and doubles are converted into each other by exact integer
    arithmetic: a finite double is [m * 2^e] and a decimal literal is
    [n * 10^k], and the specification of IEEE 754 division and
    normalisation ([SFdiv], [binary_normalize]) rounds the exact quotient
    to the nearest double, ties to even, as CPython's conversions do. *)

Set Warnings "-inexact-float".

(** The double nearest to [n * 10^k], negated if [neg]. *)
Definition decimal_to_float (neg : bool) (n k : Z) : float :=
  match n with
  | Zpos p =>
      if (0 <=? k)%Z
      then SF2Prim (binary_normalize prec emax (cond_Zopp neg (n * 10 ^ k)) 0 false)
      else SF2Prim (SFdiv prec emax (S754_finite neg p 0)
                      (S754_finite false (Z.to_pos (10 ^ (- k))) 0))
  | _ => SF2Prim (S754_zero neg)
  end.

Definition digit_of (c : ascii) : option Z :=
  let n := Z.of_N (N_of_ascii c) in
  if ((48 <=? n) && (n <=? 57))%Z then Some (n - 48) else None.

(** The rest of a [digitpart]: digits, each optionally preceded by one
    underscore.  Returns the number read so far, how many digits it has,
    and the text left. *)
Fixpoint digits_tail (l : list ascii) (acc cnt : Z) : Z * Z * list ascii :=
  match l with
  | [] => (acc, cnt, l)
  | c :: l' =>
      match digit_of c with
      | Some d => digits_tail l' (10 * acc + d) (cnt + 1)
      | None =>
          if Ascii.eqb c "_" then
            match l' with
            | c2 :: l'' =>
                match digit_of c2 with
                | Some d => digits_tail l'' (10 * acc + d) (cnt + 1)
                | None => (acc, cnt, l)
                end
            | [] => (acc, cnt, l)
            end
          else (acc, cnt, l)
      end
  end.

(** A [digitpart] continuing the number [acc]: at least one digit. *)
Definition digitpart (l : list ascii) (acc : Z) : option (Z * Z * list ascii) :=
  match l with
  | c :: l' =>
      match digit_of c with
      | Some d => Some (digits_tail l' (10 * acc + d) 1)
      | None => None
      end
  | [] => None
  end.

(** An optional sign. *)
Definition sign_of (l : list ascii) : bool * list ascii :=
  match l with
  | c :: l' =>
      if Ascii.eqb c "-" then (true, l')
      else if Ascii.eqb c "+" then (false, l')
      else (false, l)
  | [] => (false, l)
  end.

(** The mantissa of a float literal: [digitpart], [digitpart "."],
    [digitpart "." digitpart] or ["." digitpart].  Returns the digits as
    one integer and how many of them follow the point. *)
Definition mantissa_of (l : list ascii) : option (Z * Z * list ascii) :=
  match digitpart l 0 with
  | Some (n, _, rest) =>
      match rest with
      | c :: rest' =>
          if Ascii.eqb c "." then
            match digitpart rest' n with
            | Some (n', cnt, rest'') => Some (n', cnt, rest'')
            | None => Some (n, 0, rest')
            end
          else Some (n, 0, rest)
      | [] => Some (n, 0, rest)
      end
  | None =>
      match l with
      | c :: rest' => if Ascii.eqb c "." then digitpart rest' 0 else None
      | [] => None
      end
  end.

(** The exponent part, [e] or [E], a sign and a [digitpart]; 0 without. *)
Definition exponent_of (l : list ascii) : option (Z * list ascii) :=
  match l with
  | c :: l' =>
      if Ascii.eqb c "e" || Ascii.eqb c "E" then
        let '(neg, l'') := sign_of l' in
        match digitpart l'' 0 with
        | Some (x, _, rest) => Some (cond_Zopp neg x, rest)
        | None => None
        end
      else Some (0, l)
  | [] => Some (0, l)
  end.

(** The blanks [float] and [int] skip around the number in an ASCII text:
    tab, line feed, vertical tab, form feed, carriage return and the
    space.  The separators 0x1c-0x1f, which [str.strip] removes, are not
    among them. *)
Definition is_blank (c : ascii) : bool :=
  let n := Z.of_N (N_of_ascii c) in
  (((9 <=? n) && (n <=? 13)) || (n =? 32))%Z.

Fixpoint skip_blanks (l : list ascii) : list ascii :=
  match l with
  | c :: l' => if is_blank c then skip_blanks l' else l
  | [] => []
  end.

Definition trim_blanks (l : list ascii) : list ascii :=
  rev (skip_blanks (rev (skip_blanks l))).

(** [float(s)] for an ASCII text: surrounding blanks, a sign, then [inf],
    [infinity], [nan] in any case, or a decimal literal.  (The digits and
    blanks of Unicode that [float] also reads are not read here.) *)
Definition parse_float (s : string) : option float :=
  let '(neg, l) := sign_of (trim_blanks (list_ascii_of_string s)) in
  let word := lower (string_of_list_ascii l) in
  if String.eqb word "inf" || String.eqb word "infinity"
  then Some (SF2Prim (S754_infinity neg))
  else if String.eqb word "nan" then Some PrimFloat.nan
  else
    match mantissa_of l with
    | Some (n, frac, rest) =>
        match exponent_of rest with
        | Some (x, []) => Some (decimal_to_float neg n (x - frac))
        | _ => None
        end
    | None => None
    end.

(** [int(s)] for an ASCII text: surrounding blanks, a sign, decimal
    digits. *)
Definition parse_int (s : string) : option Z :=
  let '(neg, l) := sign_of (trim_blanks (list_ascii_of_string s)) in
  match digitpart l 0 with
  | Some (n, _, []) => Some (cond_Zopp neg n)
  | _ => None
  end.

(** The exact value [m * 2^e] of a finite double as a fraction. *)
Definition exact_ratio (m : positive) (e : Z) : Z * Z :=
  if (0 <=? e)%Z then (Zpos m * 2 ^ e, 1) else (Zpos m, 2 ^ (- e)).

(** [num/den * 10^k] as a fraction. *)
Definition scale10 (nd : Z * Z) (k : Z) : Z * Z :=
  let '(num, den) := nd in
  if (0 <=? k)%Z then (num * 10 ^ k, den) else (num, den * 10 ^ (- k)).

(** The integer nearest to [num/den], ties to even. *)
Definition round_half_even (nd : Z * Z) : Z :=
  let '(num, den) := nd in
  let q := num / den in
  let r := num - q * den in
  match (2 * r ?= den)%Z with
  | Lt => q
  | Gt => q + 1
  | Eq => if Z.even q then q else q + 1
  end.

(** [round(x, ndigits)]: the exact value of [x] rounded to [ndigits]
    decimals, ties to even, then the double nearest to that decimal. *)
Definition round_ndigits (x : float) (ndigits : Z) : float :=
  match Prim2SF x with
  | S754_finite s m e =>
      decimal_to_float s (round_half_even (scale10 (exact_ratio m e) ndigits))
                       (- ndigits)
  | _ => x
  end.

(** Whether [10^k <= num/den]. *)
Definition pow10_le (k : Z) (nd : Z * Z) : bool :=
  let '(num, den) := scale10 nd (- k) in (den <=? num)%Z.

Fixpoint log10_from (fuel : nat) (k : Z) (nd : Z * Z) : Z :=
  match fuel with
  | O => k
  | S fuel' => if pow10_le (k + 1) nd then log10_from fuel' (k + 1) nd else k
  end.

(** The largest [k] with [10^k <= num/den], from an estimate by the binary
    logarithms that is at most four too low. *)
Definition floor_log10 (nd : Z * Z) : Z :=
  let '(num, den) := nd in
  log10_from 8 ((Z.log2 num - Z.log2 den) * 30103 / 100000 - 2) nd.

(** The decimal with [p] significant digits that reads back as the double
    [f] of exact value [nd], if there is one: the digits and the power of
    ten.  Of the two neighbours of the value the nearer is preferred. *)
Definition shortest_at (f : float) (nd : Z * Z) (k p : Z) : option (Z * Z) :=
  let s := p - 1 - k in
  let '(num, den) := scale10 nd s in
  let lo := num / den in
  let hi := lo + 1 in
  let back d := PrimFloat.eqb (decimal_to_float false d (- s)) f in
  let nearer_lo :=
    match (2 * (num - lo * den) ?= den)%Z with
    | Lt => true
    | Gt => false
    | Eq => Z.even lo
    end in
  match back lo, back hi with
  | true, true => Some (if nearer_lo then lo else hi, - s)
  | true, false => Some (lo, - s)
  | false, true => Some (hi, - s)
  | false, false => None
  end.

Fixpoint shortest_from (fuel : nat) (f : float) (nd : Z * Z) (k p : Z)
  : Z * Z :=
  match fuel with
  | O => (0, 0)
  | S fuel' =>
      match shortest_at f nd k p with
      | Some r => r
      | None => shortest_from fuel' f nd k (p + 1)
      end
  end.

Fixpoint strip_zeros (fuel : nat) (d k : Z) : Z * Z :=
  match fuel with
  | O => (d, k)
  | S fuel' =>
      if ((d mod 10 =? 0) && negb (d =? 0))%Z
      then strip_zeros fuel' (d / 10) (k + 1)
      else (d, k)
  end.

Fixpoint zeros (n : nat) : string :=
  match n with
  | O => ""
  | S n' => String "0" (zeros n')
  end.

(** [repr] of a positive finite double given its shortest digits [d] and
    power of ten [k]: positional between 1e-4 and 1e16, else scientific
    with two exponent digits at least. *)
Definition format_repr (d k : Z) : string :=
  let digits := pretty d in
  let n := Z.of_nat (String.length digits) in
  let decpt := n + k in
  if ((-4 <? decpt) && (decpt <=? 16))%Z then
    if (decpt <=? 0)%Z then "0." ++ zeros (Z.to_nat (- decpt)) ++ digits
    else if (n <=? decpt)%Z then digits ++ zeros (Z.to_nat (decpt - n)) ++ ".0"
    else substring 0 (Z.to_nat decpt) digits ++ "."
         ++ substring (Z.to_nat decpt) (Z.to_nat (n - decpt)) digits
  else
    let x := decpt - 1 in
    let mant :=
      if (n =? 1)%Z then digits
      else substring 0 1 digits ++ "." ++ substring 1 (Z.to_nat (n - 1)) digits in
    let xs := pretty (Z.abs x) in
    mant ++ "e" ++ (if (x <? 0)%Z then "-" else "+")
         ++ (if (Z.abs x <? 10)%Z then "0" ++ xs else xs).

(** [str(x)] for a float: the shortest decimal that reads back as [x]. *)
Definition repr_float (x : float) : string :=
  match Prim2SF x with
  | S754_zero s => if s then "-0.0" else "0.0"
  | S754_infinity s => if s then "-inf" else "inf"
  | S754_nan => "nan"
  | S754_finite s m e =>
      let nd := exact_ratio m e in
      let '(d, k) := shortest_from 17 (PrimFloat.abs x) nd (floor_log10 nd) 1 in
      let '(d', k') := strip_zeros 20 d k in
      (if s then "-" else "") ++ format_repr d' k'
  end.

#[global] Instance decimal_builtins : Builtins := {|
  float_of_str := parse_float;
  int_of_str := parse_int;
  str_of_float := repr_float;
  round_float := round_ndigits
|}.

(** ** Configuration *)

Definition TOTAL_QUESTIONS : Z := 40.
Definition TOTAL_VARIANTS : Z := 4.
Definition EXAM_DURATION_MIN : Z := 100.

(** ** Bank loader *)

(** The messages of the loader and of the timer that the script writes on
    the page, in order.  Its other writes (titles, questions, the success
    line of the active variant, the toast of the save button) are not
    recorded. *)
Inductive notice : Type :=
| ErrorUnsupported                (* st.error: only CSV/JSON are accepted *)
| ErrorRead (e : exn)             (* st.error: reading the file failed with [e] *)
| ErrorMissing (cols : string)    (* st.error: missing columns, joined by ", " *)
| InfoDemo                        (* st.info: no import, the demo bank is made *)
| WarningExpired.                 (* st.warning: time is up, submitted *)

Definition Page : Type := list notice.

Definition st_write (n : notice) : Exec Page unit :=
  fun page => (Ok tt, (page ++ [n])%list).

(** An uploaded file: its name, and what [pd.read_csv] and [pd.read_json]
    make of its contents. *)
Record Upload : Type := {
  name : string;
  read_csv : result DataFrame;
  read_json : result DataFrame
}.

Definition required : list string :=
  ["variant"; "qnum"; "type"; "question"; "correct"; "score"].

Definition mem_string (c : string) (l : list string) : bool :=
  existsb (String.eqb c) l.

Section Loader.
Context `{B : Builtins}.

(** [df[k] = df[k].astype(int)]: every cell of the column converted, the
    first cell that cannot be is the error.  The conversion is [int] cell
    by cell.  The cast of pandas is to 64-bit integers: it is [int] on the
    cells [int64_cell] below admits, and on the others (an integer past
    64 bits, an infinite float, a [None]) what it does depends on the type
    pandas gave the column, which a frame does not record here.  What is
    stated of a converted frame is stated of cells within that reach, or
    of a cell no cast converts. *)
Definition astype_int (k : string) (df : DataFrame) : result DataFrame :=
  rs ← mapM (fun row : Series =>
               match series_get row k with
               | Some v => z ← py_int v; Ok (series_set row k (VInt z))
               | None => Raise ValueError
               end) (rows df);
  Ok {| columns := columns df; rows := rs |}.

(** [load_bank_from_upload(upload)].  The [try] covers the reading only. *)
Definition load_bank_from_upload (upload : option Upload)
  : Exec Page (option DataFrame) :=
  match upload with
  | None => exec_ret None
  | Some up =>
      let name := lower (name up) in
      let read :=
        if endswith name ".csv" then Some (read_csv up)
        else if endswith name ".json" then Some (read_json up)
        else None in
      match read with
      | None => do _ <- st_write ErrorUnsupported; exec_ret None
      | Some (Raise e) => do _ <- st_write (ErrorRead e); exec_ret None
      | Some (Ok df) =>
          let miss := filter (fun c => negb (mem_string c (columns df))) required in
          match miss with
          | _ :: _ => do _ <- st_write (ErrorMissing (join ", " miss)); exec_ret None
          | [] =>
              do df1 <- lift (astype_int "variant" df);
              do df2 <- lift (astype_int "qnum" df1);
              exec_ret (Some df2)
          end
      end
  end.

(** An integer of 64 bits. *)
Definition fits_int64 (z : Z) : Prop := (- 2 ^ 63 <= z < 2 ^ 63)%Z.

(** A cell on which the 64-bit cast and [int] agree: what [int] makes of
    it, if anything, has 64 bits, and where [int] raises on it, it raises
    [ValueError], as on a text that is no number and on a NaN.  That leaves
    out the infinite floats ([OverflowError]) and [None] ([TypeError]). *)
Definition int64_cell (x : pyval) : Prop :=
  (forall z, py_int x = Ok z -> fits_int64 z)
  ∧ (forall e, py_int x = Raise e -> e = ValueError).

(** A frame whose [variant] and [qnum] cells are such cells. *)
Definition int64_frame (df : DataFrame) : Prop :=
  Forall (fun row => forall k x, k = "variant" ∨ k = "qnum" ->
            series_get row k = Some x -> int64_cell x) (rows df).

(** The bank the script goes on with. *)
Inductive bank_choice : Type :=
| Imported (df : DataFrame)
| DemoBank.                     (* generate_demo_bank() *)

(** The import block of the sidebar: the loaded bank, or the demo bank
    when the loader returned [None]. *)
Definition sidebar_import (up : option Upload) : Exec Page bank_choice :=
  do bank_df <- load_bank_from_upload up;
  match bank_df with
  | None => do _ <- st_write InfoDemo; exec_ret DemoBank
  | Some df => exec_ret (Imported df)
  end.
End Loader.

(** ** Session and timer *)

(** [st.session_state].  Times are microseconds since an epoch, the unit
    of [datetime]; differences are [timedelta]s, whole microseconds too. *)
Record Session : Type := {
  started : bool;
  submitted : bool;
  start_time : option Z;
  answers : Answers;
  active_variant : Z
}.

(** The button pressed to cause this run of the script, if any. *)
Inductive click : Type :=
| NoClick
| ClickStart
| ClickSave
| ClickSubmit.

(** [timedelta(minutes=n)]. *)
Definition timedelta_minutes (n : Z) : Z := n * 60000000.

(** What one run of the controls block leaves: the session, the remaining
    time shown (microseconds, and as minutes and seconds), the warning of
    the timer when [st.warning] writes it, and whether the run ended in
    [st.rerun()].  The line [st.success] writes under the start button and
    the toast of the save button are not recorded. *)
Record Outcome : Type := {
  session : Session;
  remain : option Z;
  clock : option (Z * Z);
  written : Page;
  rerun : bool
}.

(** The start/save/submit/timer block, for one run of the script at time
    [now] with variant [v] selected.  A button is there to be pressed only
    under the condition that draws it.  [remain.total_seconds()] is the
    double nearest to the microseconds divided by 10^6; on the range of the
    timer its floor quotient and remainder by 60 are those of the
    integers. *)
Definition controls (ck : click) (now v : Z) (ss : Session) : result Outcome :=
  if (negb (started ss) || negb (active_variant ss =? v)%Z)
     && match ck with ClickStart => true | _ => false end
  then
    Ok {| session := {| started := true; submitted := false;
                        start_time := Some now; answers := ∅;
                        active_variant := v |};
          remain := None; clock := None; written := []; rerun := true |}
  else if (started ss && negb (submitted ss))
          && match ck with ClickSubmit => true | _ => false end
  then
    Ok {| session := {| started := started ss; submitted := true;
                        start_time := start_time ss; answers := answers ss;
                        active_variant := active_variant ss |};
          remain := None; clock := None; written := []; rerun := true |}
  else if started ss then
    match start_time ss with
    | None => Raise TypeError
    | Some t0 =>
        let elapsed := now - t0 in
        let rem := Z.max (timedelta_minutes EXAM_DURATION_MIN - elapsed) 0 in
        let shown := Some (rem / 60000000, (rem / 1000000) mod 60) in
        if (rem <=? 0)%Z && negb (submitted ss) then
          Ok {| session := {| started := started ss; submitted := true;
                              start_time := start_time ss; answers := answers ss;
                              active_variant := active_variant ss |};
                remain := Some rem; clock := shown;
                written := [WarningExpired]; rerun := true |}
        else
          Ok {| session := ss; remain := Some rem; clock := shown;
                written := []; rerun := false |}
    end
  else
    Ok {| session := ss; remain := None; clock := None; written := [];
          rerun := false |}.

(** The controls block over the reruns it asks for, with no button
    pressed after the first run; [nows] are the times of the runs.  Only
    the controls are run: what the rest of the script does between two
    reruns (the questions, which write the answers of a running exam) is
    in [script_runs] below. *)
Fixpoint evaluate (ck : click) (nows : list Z) (v : Z) (ss : Session)
  : result Session :=
  match nows with
  | [] => Ok ss
  | now :: later =>
      match controls ck now v ss with
      | Raise e => Raise e
      | Ok out =>
          if rerun out then evaluate NoClick later v (session out)
          else Ok (session out)
      end
  end.


(** ** Demo bank *)

(** The generators of the modules [random] and [numpy.random], as an
    interface: a state, the state that seeding installs, and the draws as
    functions of the state. *)
Class RandomModule : Type := {
  rng : Type;
  seed_rng : Z -> rng;                        (* random.seed(seed) *)
  randint : Z -> Z -> rng -> Z * rng;         (* random.randint(a, b) *)
  shuffle : list Z -> rng -> list Z * rng;    (* random.shuffle(l), in place *)
  np_rng : Type;
  np_seed : Z -> np_rng                       (* np.random.seed(seed) *)
}.

(** What is asked of the draws for generation to go through. *)
Class RandomLaws `{R : RandomModule} : Prop := {
  randint_range : forall a b g, a <= b -> a <= (randint a b g).1 <= b;
  shuffle_perm : forall l g, (shuffle l g).1 ≡ₚ l
}.

Definition topics : list string :=
  ["Алгебр"; "Функц/График"; "Геометр"; "Магадлал/Статистик"].

Definition difficulties : list string := ["Easy"; "Medium"; "Hard"].

Definition bank_columns : list string :=
  ["variant"; "qnum"; "type"; "question"; "A"; "B"; "C"; "D"; "correct";
   "score"; "solution"; "topic"; "difficulty"; "tolerance"].

(** [l[i]]. *)
Definition index_list {A} (l : list A) (i : Z) : result A :=
  match l !! Z.to_nat i with
  | Some a => if (0 <=? i)%Z then Ok a else Raise IndexError
  | None => Raise IndexError
  end.

(** [l.index(x)]. *)
Fixpoint list_index (l : list Z) (x : Z) : result Z :=
  match l with
  | [] => Raise ValueError
  | y :: l' => if (y =? x)%Z then Ok 0 else (fun i => i + 1) <$> list_index l' x
  end.

(** [a // b]. *)
Definition floordiv (a b : Z) : result Z :=
  if (b =? 0)%Z then Raise ZeroDivisionError else Ok (a / b).

Section DemoBank.
Context `{B : Builtins} `{R : RandomModule}.

(** The interpreter's two generators, shared by all callers. *)
Definition Generators : Type := rng * np_rng.

Definition random_seed (seed : Z) : Exec Generators unit :=
  fun g => (Ok tt, (seed_rng seed, g.2)).

(** [np.random.seed(seed)]: [ValueError] for a seed that is not between 0
    and 2^32 - 1. *)
Definition np_random_seed (seed : Z) : Exec Generators unit :=
  fun g =>
    if ((0 <=? seed) && (seed <? 2 ^ 32))%Z then (Ok tt, (g.1, np_seed seed))
    else (Raise ValueError, g).

Definition random_randint (a b : Z) : Exec Generators Z :=
  fun g => let '(x, r) := randint a b g.1 in (Ok x, (r, g.2)).

Definition random_shuffle (l : list Z) : Exec Generators (list Z) :=
  fun g => let '(l', r) := shuffle l g.1 in (Ok l', (r, g.2)).

(** The row of a multiple-choice question: a linear equation. *)
Definition mcq_row (v q : Z) (topic difficulty : string)
  : Exec Generators Series :=
  do a <- random_randint 2 9;
  do b <- random_randint 0 9;
  do x <- random_randint 1 9;
  let c := a * x + b in
  let qtext := pretty a ++ "x + " ++ pretty b ++ " = " ++ pretty c
               ++ ". x-ийн утга?" in
  let correct_val := x in
  do options_vals <- random_shuffle
                       [correct_val; correct_val + 1; correct_val - 1; correct_val + 2];
  do i <- lift (list_index options_vals correct_val);
  do correct_letter <- lift (index_list ["A"; "B"; "C"; "D"] i);
  do o0 <- lift (index_list options_vals 0);
  do o1 <- lift (index_list options_vals 1);
  do o2 <- lift (index_list options_vals 2);
  do o3 <- lift (index_list options_vals 3);
  do x' <- lift (floordiv (c - b) a);
  exec_ret
    [("variant", VInt v); ("qnum", VInt q); ("type", VStr "mcq");
     ("question", VStr qtext);
     ("A", VStr (pretty o0)); ("B", VStr (pretty o1));
     ("C", VStr (pretty o2)); ("D", VStr (pretty o3));
     ("correct", VStr correct_letter); ("score", VInt 1);
     ("solution", VStr (pretty a ++ "x = " ++ pretty c ++ "-" ++ pretty b
                        ++ " ⇒ x=" ++ pretty x'));
     ("topic", VStr topic); ("difficulty", VStr difficulty);
     ("tolerance", VStr "")].

(** The row of a numeric question: the area of a circle. *)
Definition num_row (v q : Z) (topic difficulty : string)
  : Exec Generators Series :=
  do r <- random_randint 2 12;
  do fr <- lift (float_of_Z r);
  let area :=
    round_float (PrimFloat.mul (PrimFloat.mul 3.1416%float fr) fr) 2 in
  let qtext := "Радиус " ++ pretty r
               ++ " см тойргийн талбайг π=3.1416 гэж тооцоод олоорой (см²)." in
  exec_ret
    [("variant", VInt v); ("qnum", VInt q); ("type", VStr "num");
     ("question", VStr qtext);
     ("A", VStr ""); ("B", VStr ""); ("C", VStr ""); ("D", VStr "");
     ("correct", VFloat area); ("score", VInt 1);
     ("solution", VStr ("S=πr²=3.1416×" ++ pretty r ++ "²≈" ++ str_of_float area));
     ("topic", VStr topic); ("difficulty", VStr difficulty);
     ("tolerance", VFloat (round_float (PrimFloat.mul 0.05%float area) 2))].

(** The body of the two nested loops, for variant [v] and question [q]. *)
Definition demo_row (vq : Z * Z) : Exec Generators Series :=
  let '(v, q) := vq in
  do topic <- lift (index_list topics ((q - 1) mod Z.of_nat (length topics)));
  do difficulty <- lift (index_list difficulties (q mod 3));
  if (q mod 2 =? 1)%Z then mcq_row v q topic difficulty
  else num_row v q topic difficulty.

Fixpoint demo_rows (vqs : list (Z * Z)) : Exec Generators (list Series) :=
  match vqs with
  | [] => exec_ret []
  | vq :: rest =>
      do row <- demo_row vq;
      do more <- demo_rows rest;
      exec_ret (row :: more)
  end.

(** The pairs [(v, q)] in the order of the loops. *)
Definition loop_indices : list (Z * Z) :=
  v ← seqZ 1 TOTAL_VARIANTS; q ← seqZ 1 TOTAL_QUESTIONS; [(v, q)].

(** [pd.DataFrame(rows)] for a list of dictionaries with the same keys. *)
Definition frame_of (rs : list Series) : DataFrame :=
  {| columns := match rs with [] => [] | r :: _ => r.*1 end; rows := rs |}.

(** [generate_demo_bank(seed)].  Under [st.cache_data] a second call with
    the same seed is answered from the first. *)
Definition generate_demo_bank (seed : Z) : Exec Generators DataFrame :=
  do _ <- random_seed seed;
  do _ <- np_random_seed seed;
  do rs <- demo_rows loop_indices;
  exec_ret (frame_of rs).
End DemoBank.


(** ** What the grading loop reads *)

Section Reads.
Context `{B : Builtins}.

(** The five cells the loop of [grade_exam] converts for a row. *)
Definition row_reads (row : Series) (variant qnum : Z) (ty correct : pyval)
  (score : float) : Prop :=
  attr row "variant" ≫= py_int = Ok variant
  ∧ attr row "qnum" ≫= py_int = Ok qnum
  ∧ attr row "type" = Ok ty
  ∧ attr row "correct" = Ok correct
  ∧ attr row "score" ≫= py_float = Ok score.

(** The row can be graded: it has the five cells, of convertible
    contents. *)
Definition gradable (row : Series) : Prop :=
  ∃ variant qnum ty correct score, row_reads row variant qnum ty correct score.

(** [d] is the detail row of [row] under the answer map [a]. *)
Definition graded (a : Answers) (row : Series) (d : Detail) : Prop :=
  ∃ variant qnum ty correct score,
    row_reads row variant qnum ty correct score
    ∧ d_variant d = variant ∧ d_qnum d = qnum ∧ d_type d = ty
    ∧ d_topic d = get row "topic" (VStr "")
    ∧ d_difficulty d = get row "difficulty" (VStr "")
    ∧ d_correct d = correct
    ∧ d_your d = default VNone (a !! (variant, qnum))
    ∧ d_is_correct d =
        (if is_mcq ty then mcq_ok (d_your d) correct
         else check_numeric_answer (d_your d) correct (get row "tolerance" VNone))
    ∧ d_score d = (if d_is_correct d then score else 0%float)
    ∧ d_max_score d = score.

(** The running sums of the loop. *)
Definition sum_from (start : float) (xs : list float) : float :=
  fold_left PrimFloat.add xs start.
End Reads.

(** ** The arithmetic of doubles, exactly

    Every finite double is a whole number of quanta of 2^-1074, at most 53
    bits long once its trailing zero bits are dropped.  Sums and differences
    of doubles are rounded to such numbers, to the nearest and to the even
    one on a tie.  The integers below count quanta. *)

Local Open Scope Z_scope.

(** 2^1024 in quanta, past the largest finite double: the magnitude that
    stands for infinity. *)
Definition TOP : Z := 2 ^ 2098.

(** [x / 2^n] rounded to the nearest integer, ties to even. *)
Definition rne (x n : Z) : Z :=
  let q := x / 2 ^ n in
  let r := x mod 2 ^ n in
  match 2 * r ?= 2 ^ n with
  | Lt => q
  | Gt => q + 1
  | Eq => if Z.even q then q else q + 1
  end.

(** [x] rounded to 53 significant bits. *)
Definition rnd (x : Z) : Z :=
  let k := Z.max (Z.log2 x + 1 - 53) 0 in rne x k * 2 ^ k.

(** The same rounding of [q * p + r], from the quotient and remainder. *)
Definition rne_qr (p q r : Z) : Z :=
  match 2 * r ?= p with
  | Lt => q
  | Gt => q + 1
  | Eq => if Z.even q then q else q + 1
  end.

(** How many low bits of [x] rounding drops. *)
Definition shift_of (x : Z) : Z := Z.max (Z.log2 x + 1 - 53) 0.

(** The magnitude of a double in quanta. *)
Definition mag (x : spec_float) : Z :=
  match x with
  | S754_finite _ m e => Zpos m * 2 ^ (e + 1074)
  | S754_infinity _ => TOP
  | _ => 0
  end.

(** The number of bits of a mantissa. *)
Definition dg (m : positive) : Z := Zpos (digits2_pos m).

(** The shift register [mrs] holds [X] shifted right by [j] bits, with its
    round and sticky bits. *)
Definition shr_inv (X j : Z) (mrs : shr_record) : Prop :=
  exists rem,
    X = shr_m mrs * 2 ^ j + rem /\ 0 <= rem < 2 ^ j /\ 0 <= shr_m mrs
    /\ shr_r mrs = (2 ^ j <=? 2 * rem)
    /\ shr_s mrs = negb (2 * rem =? (if shr_r mrs then 2 ^ j else 0)).

(** The last step of [binary_round_aux]: the double of mantissa [m] and
    exponent [e], or infinity past the largest exponent. *)
Definition finish (s : bool) (m e : Z) : spec_float :=
  match m with
  | Z0 => S754_zero s
  | Zpos p => if e <=? emax - prec then S754_finite s p e else S754_infinity s
  | Zneg _ => S754_nan
  end.

Definition signed_form (s : bool) (r : spec_float) : Prop :=
  r = S754_infinity s \/ exists m e, r = S754_finite s m e.

(** Not a NaN and not below zero. *)
Definition nonneg (x : spec_float) : Prop :=
  match x with
  | S754_zero _ => True
  | S754_finite s _ _ => s = false
  | S754_infinity s => s = false
  | S754_nan => False
  end.

(** The value of a finite double in quanta, with its sign. *)
Definition sval (x : spec_float) : Z :=
  match x with
  | S754_finite s m e => cond_Zopp s (Zpos m * 2 ^ (e + 1074))
  | _ => 0
  end.

Definition finite_or_zero (x : spec_float) : Prop :=
  match x with
  | S754_zero _ | S754_finite _ _ _ => True
  | _ => False
  end.

(** The exact value of a Python float in quanta of 2^-1074; [None] for the
    infinities and NaN. *)
Definition quanta (f : float) : option Z :=
  match Prim2SF f with
  | S754_zero _ => Some 0
  | S754_finite s m e => Some (cond_Zopp s (Zpos m * 2 ^ (e + 1074)))
  | _ => None
  end.

Local Open Scope string_scope.

(** Draws that always give the lower bound and a shuffle that leaves the
    list as it is: the simplest generators within the laws. *)
Definition constant_draws : RandomModule :=
  {| rng := unit;
     seed_rng := fun _ => tt;
     randint := fun a _ g => (a, g);
     shuffle := fun l g => (l, g);
     np_rng := unit;
     np_seed := fun _ => tt |}.

(** ** Banks and files to run the code on *)

(** The multiple-choice row of the specification's example. *)
Definition example_mcq_row : Series :=
  [("variant", VInt 1); ("qnum", VInt 1); ("type", VStr "mcq");
   ("question", VStr "2x + 1 = 5. x?"); ("correct", VStr "B"); ("score", VInt 1)].

Definition example_mcq_bank : DataFrame :=
  {| columns := required; rows := [example_mcq_row] |}.

(** A multiple-choice row whose stored correct value is the text "None". *)
Definition none_row : Series :=
  [("variant", VInt 1); ("qnum", VInt 1); ("type", VStr "mcq");
   ("question", VStr "2x + 1 = 5. x?"); ("correct", VStr "None"); ("score", VInt 1)].

Definition none_bank : DataFrame :=
  {| columns := required; rows := [none_row] |}.

(** The numeric row of the specification's example. *)
Definition example_num_row : Series :=
  [("variant", VInt 1); ("qnum", VInt 2); ("type", VStr "num");
   ("question", VStr "r = 6"); ("correct", VFloat 113.1); ("score", VInt 1);
   ("tolerance", VFloat 5.66)].

Definition example_num_bank : DataFrame :=
  {| columns := required ++ ["tolerance"]; rows := [example_num_row] |}.

(** A row with a negative score. *)
Definition penalty_row : Series :=
  [("variant", VInt 1); ("qnum", VInt 1); ("type", VStr "mcq");
   ("question", VStr "2x + 1 = 5. x?"); ("correct", VStr "B"); ("score", VInt (-1))].

Definition penalty_bank : DataFrame :=
  {| columns := required; rows := [penalty_row] |}.

(** A file [bank.csv] with the six required columns whose [variant] cell
    reads "abc". *)
Definition text_variant_frame : DataFrame :=
  {| columns := required;
     rows := [[("variant", VStr "abc"); ("qnum", VInt 1); ("type", VStr "mcq");
               ("question", VStr "2x + 1 = 5. x?"); ("correct", VStr "B");
               ("score", VInt 1)]] |}.

Definition text_variant_upload : Upload :=
  {| name := "bank.csv"; read_csv := Ok text_variant_frame;
     read_json := Raise ParserError |}.

(** A file [bank.csv] that [pd.read_csv] cannot read, and one without the
    [score] column. *)
Definition unreadable_upload : Upload :=
  {| name := "bank.csv"; read_csv := Raise ParserError;
     read_json := Raise ParserError |}.

Definition no_score_upload : Upload :=
  {| name := "bank.csv";
     read_csv := Ok {| columns := ["variant"; "qnum"; "type"; "question"; "correct"];
                       rows := [] |};
     read_json := Raise ParserError |}.

(** ** Questions on the page *)

Definition opt_keys : list string := ["A"; "B"; "C"; "D"].

(** [pd.notna(v)]: neither [None] nor a NaN. *)
Definition notna (v : pyval) : bool :=
  match v with
  | VNone => false
  | VNpNan => false
  | VFloat f => negb (PrimFloat.is_nan f)
  | VStr _ => true
  | VInt _ => true
  end.

(** [l.index(s)] for a string that is in the list. *)
Fixpoint str_index (l : list string) (s : string) : Z :=
  match l with
  | [] => 0
  | y :: l' => if String.eqb y s then 0 else 1 + str_index l' s
  end.

(** What [render_question] puts on the page for the answer: the radio with
    its options, captions, preselected index and disabled flag, the text
    field with its initial value and disabled flag, or the warning that the
    question has no options. *)
Inductive drawn : Type :=
| Radio (options captions : list string) (index : Z) (disabled : bool)
| TextInput (value : string) (disabled : bool)
| NoOptions.

(** [ss.answers[q_key] = val]. *)
Definition set_answer (ss : Session) (q_key : Z * Z) (val : string) : Session :=
  {| started := started ss; submitted := submitted ss;
     start_time := start_time ss;
     answers := <[q_key := VStr val]> (answers ss);
     active_variant := active_variant ss |}.

(** [(not ss.started) or ss.submitted or (ss.active_variant != v)]: the
    widgets of the questions are drawn disabled. *)
Definition disabled_in (v : Z) (ss : Session) : bool :=
  negb (started ss) || submitted ss || negb (active_variant ss =? v)%Z.

Section Questions.
Context `{B : Builtins}.

(** [k in row.index and pd.notna(row[k])]. *)
Definition has_option (row : Series) (k : string) : bool :=
  match series_get row k with
  | Some c => notna c
  | None => false
  end.

(** The option letters the row has a value for. *)
Definition options_of (row : Series) : list string :=
  filter (fun k => has_option row k) opt_keys.

(** The caption of option [k]: the letter, a point and the cell. *)
Definition caption_of (row : Series) (k : string) : string :=
  let label :=
    match default VNone (series_get row k) with
    | VFloat f => if PrimFloat.is_nan f then "" else str_of_float f
    | VNpNan => ""
    | c => py_str c
    end in
  k ++ ". " ++ label.

(** The index the radio is given: that of the stored answer when it is one
    of the options, else 0. *)
Definition sel_index_of (prev : option pyval) (options : list string) : Z :=
  match prev with
  | Some (VStr s) => if mem_string s options then str_index options s else 0
  | _ => 0
  end.

(** The initial text of the field: the stored answer, blank when there is
    none or when it is [None] or the text 'None'. *)
Definition initial_text (prev : option pyval) : string :=
  match prev with
  | None => ""
  | Some VNone => ""
  | Some (VStr s) => if String.eqb s "None" then "" else s
  | Some p => py_str p
  end.

(** [render_question(row)] with variant [v] selected, where [returned] is
    what the widget of the question ([st.radio] or [st.text_input]) returns
    in this run.  The answer map of the session is written in place. *)
Definition render_question (returned : string) (v : Z) (row : Series)
  (ss : Session) : result (Session * drawn) :=
  variant ← attr row "variant" ≫= py_int;
  qnum ← attr row "qnum" ≫= py_int;
  _ ← attr row "question";
  let q_key := (variant, qnum) in
  let disabled := disabled_in v ss in
  let prev := answers ss !! q_key in
  ty ← attr row "type";
  if is_mcq ty then
    let options := options_of row in
    match options with
    | [] => Ok (ss, NoOptions)
    | _ :: _ =>
        let ss' := if disabled then ss else set_answer ss q_key returned in
        _ ← (if submitted ss' then attr row "correct" else Ok VNone);
        Ok (ss', Radio options (caption_of row <$> options)
                   (sel_index_of prev options) disabled)
    end
  else
    let ss' := if disabled then ss else set_answer ss q_key returned in
    _ ← (if submitted ss' then attr row "correct" else Ok VNone);
    Ok (ss', TextInput (initial_text prev) disabled).

(** The loop over the questions of the variant, each with what its widget
    returns.  Streamlit refuses a second widget with a key already used in
    the run, so on rows that share [(variant, qnum)] the loop of the script
    stops with an error where this one goes on: what is stated of the loop
    is stated of the runs in which it returns. *)
Fixpoint render_questions (v : Z) (qs : list (Series * string)) (ss : Session)
  : result (Session * list drawn) :=
  match qs with
  | [] => Ok (ss, [])
  | (row, returned) :: rest =>
      '(ss1, d) ← render_question returned v row ss;
      '(ss2, ds) ← render_questions v rest ss1;
      Ok (ss2, d :: ds)
  end.

(** The part of one run of the script that writes the session: the
    controls and, unless they end the run, the questions of a started
    session.  The panels after them only read it. *)
Definition script_run (ck : click) (now v : Z) (qs : list (Series * string))
  (ss : Session) : result Session :=
  out ← controls ck now v ss;
  if rerun out then Ok (session out)
  else if started (session out) then
    fst <$> render_questions v qs (session out)
  else Ok (session out).

(** One run of the script: the button pressed, the time, the variant
    selected, and the rows drawn with what their widgets return. *)
Definition Run : Type := click * Z * Z * list (Series * string).

Definition run_click (run : Run) : click := run.1.1.1.
Definition run_variant (run : Run) : Z := run.1.2.
Definition run_rows (run : Run) : list (Series * string) := run.2.

(** Runs one after the other, each with its button, time, selected variant
    and widgets. *)
Fixpoint script_runs (runs : list Run) (ss : Session) : result Session :=
  match runs with
  | [] => Ok ss
  | (ck, now, v, qs) :: later =>
      ss' ← script_run ck now v qs ss; script_runs later ss'
  end.
End Questions.

Section Rendering.
Context `{B : Builtins}.

(** The rows drawn in a run are rows of the variant selected in it, as
    those of [variant_df] are. *)
Definition rows_of_variant (v : Z) (qs : list (Series * string)) : Prop :=
  Forall (fun rq => forall variant,
            attr rq.1 "variant" ≫= py_int = Ok variant -> variant = v) qs.

(** What [astype(int)] on column [k] makes of a row. *)
Definition cell_to_int (k : string) (row row' : Series) : Prop :=
  ∃ x z, series_get row k = Some x ∧ py_int x = Ok z
    ∧ row' = series_set row k (VInt z).
End Rendering.

(** The file is read as [df], by the reader its name selects. *)
Definition reads_as (up : Upload) (df : DataFrame) : Prop :=
  endswith (lower (name up)) ".csv" = true ∧ read_csv up = Ok df
  ∨ endswith (lower (name up)) ".csv" = false
    ∧ endswith (lower (name up)) ".json" = true ∧ read_json up = Ok df.

(** Every answer of the session is under a key of its active variant. *)
Definition answers_of_active (ss : Session) : Prop :=
  forall k, is_Some (answers ss !! k) -> k.1 = active_variant ss.

(** The session the start button leaves, pressed at [now] with variant [v]
    selected. *)
Definition fresh_session (now v : Z) : Session :=
  {| started := true; submitted := false; start_time := Some now;
     answers := ∅; active_variant := v |}.

(** The session as the script creates it. *)
Definition initial_session : Session :=
  {| started := false; submitted := false; start_time := None;
     answers := ∅; active_variant := 1 |}.

(** A started session has its start time. *)
Definition timed (ss : Session) : Prop :=
  started ss = true -> is_Some (start_time ss).

(** ** Sessions and files to run the page on *)

(** A session in the middle of the exam of variant 1, started at time 0. *)
Definition running_session : Session :=
  {| started := true; submitted := false; start_time := Some 0;
     answers := ∅; active_variant := 1 |}.

(** A session of variant 1 submitted with one answer. *)
Definition submitted_session : Session :=
  {| started := true; submitted := true; start_time := Some 0;
     answers := {[ (1, 1) := VStr "B" ]}; active_variant := 1 |}.

(** A multiple-choice row with its four options. *)
Definition options_row : Series :=
  [("variant", VInt 1); ("qnum", VInt 1); ("type", VStr "mcq");
   ("question", VStr "2x + 1 = 5. x?");
   ("A", VStr "1"); ("B", VStr "2"); ("C", VStr "3"); ("D", VStr "4");
   ("correct", VStr "B"); ("score", VInt 1)].

(** A file [bank.csv] whose [variant] cell is text and whose [qnum] cell
    is a float, and the bank it loads to. *)
Definition text_cells_upload : Upload :=
  {| name := "bank.csv";
     read_csv := Ok {| columns := required;
                       rows := [[("variant", VStr "1"); ("qnum", VFloat 2);
                                 ("type", VStr "mcq");
                                 ("question", VStr "2x + 1 = 5. x?");
                                 ("correct", VStr "B"); ("score", VInt 1)]] |};
     read_json := Raise ParserError |}.

Definition whole_cells_bank : DataFrame :=
  {| columns := required;
     rows := [[("variant", VInt 1); ("qnum", VInt 2); ("type", VStr "mcq");
               ("question", VStr "2x + 1 = 5. x?");
               ("correct", VStr "B"); ("score", VInt 1)]] |}.

Definition whole_cells_upload : Upload :=
  {| name := "Bank.JSON"; read_csv := Raise ParserError;
     read_json := Ok whole_cells_bank |}.

(** ** The specification's words *)

(** The code of a character. *)
Definition char_code (c : ascii) : Z := Z.of_N (N_of_ascii c).

(** The same character up to the case of a letter: equal, or a small
    letter a-z and its capital, 32 places before it. *)
Definition same_letter (a b : ascii) : Prop :=
  a = b
  ∨ (97 <= char_code a <= 122 ∧ char_code b = char_code a - 32)%Z
  ∨ (97 <= char_code b <= 122 ∧ char_code a = char_code b - 32)%Z.

(** "Equal, case-normalized", for ASCII texts: of the same length and the
    same character by character up to case. *)
Definition equal_ignoring_case (s t : string) : Prop :=
  Forall2 same_letter (list_ascii_of_string s) (list_ascii_of_string t).

(** * Properties *)

(** ** Rounding of sums and differences of doubles *)

Local Open Scope Z_scope.

Lemma rne_decompose x n q r :
  0 <= n -> x = q * 2 ^ n + r -> 0 <= r < 2 ^ n -> rne x n = rne_qr (2 ^ n) q r.
Proof.
  intros Hn Hx Hr. unfold rne, rne_qr.
  assert (Hq : x / 2 ^ n = q) by (symmetry; apply (Z.div_unique x (2 ^ n) q r); lia).
  assert (Hm : x mod 2 ^ n = r) by (symmetry; apply (Z.mod_unique x (2 ^ n) q r); lia).
  rewrite Hq, Hm. reflexivity.
Qed.

Lemma rne_qr_bounds p q r : q <= rne_qr p q r <= q + 1.
Proof.
  unfold rne_qr. destruct (2 * r ?= p); [destruct (Z.even q)| |]; lia.
Qed.

Lemma rne_qr_mono p q1 r1 q2 r2 :
  0 < p -> 0 <= r1 < p -> 0 <= r2 < p ->
  q1 * p + r1 <= q2 * p + r2 -> rne_qr p q1 r1 <= rne_qr p q2 r2.
Proof.
  intros Hp Hr1 Hr2 Hle.
  assert (Hq : q1 <= q2) by nia.
  destruct (Z.eq_dec q1 q2) as [->|Hne].
  - assert (Hr : r1 <= r2) by lia.
    unfold rne_qr.
    destruct (Z.compare_spec (2 * r1) p), (Z.compare_spec (2 * r2) p);
      destruct (Z.even q2); lia.
  - pose proof (rne_qr_bounds p q1 r1). pose proof (rne_qr_bounds p q2 r2). lia.
Qed.

Lemma rne_mono x y n : 0 <= n -> x <= y -> rne x n <= rne y n.
Proof.
  intros Hn Hxy.
  assert (Hp : 0 < 2 ^ n) by (apply Z.pow_pos_nonneg; lia).
  pose proof (Z.div_mod x (2 ^ n) ltac:(lia)) as Hx.
  pose proof (Z.div_mod y (2 ^ n) ltac:(lia)) as Hy.
  pose proof (Z.mod_pos_bound x (2 ^ n) Hp) as Hrx.
  pose proof (Z.mod_pos_bound y (2 ^ n) Hp) as Hry.
  rewrite (rne_decompose x n (x / 2 ^ n) (x mod 2 ^ n)) by lia.
  rewrite (rne_decompose y n (y / 2 ^ n) (y mod 2 ^ n)) by lia.
  apply rne_qr_mono; lia.
Qed.

Lemma rne_exact q n : 0 <= n -> rne (q * 2 ^ n) n = q.
Proof.
  intros Hn.
  assert (Hp : 0 < 2 ^ n) by (apply Z.pow_pos_nonneg; lia).
  rewrite (rne_decompose _ n q 0) by lia.
  unfold rne_qr. change (2 * 0) with 0. destruct (Z.compare_spec 0 (2 ^ n)); lia.
Qed.

Lemma rne_scale x n j : 0 <= n -> 0 <= j -> rne (x * 2 ^ j) (n + j) = rne x n.
Proof.
  intros Hn Hj.
  assert (Hp : 0 < 2 ^ n) by (apply Z.pow_pos_nonneg; lia).
  assert (Hpj : 0 < 2 ^ j) by (apply Z.pow_pos_nonneg; lia).
  pose proof (Z.div_mod x (2 ^ n) ltac:(lia)) as Hx.
  pose proof (Z.mod_pos_bound x (2 ^ n) Hp) as Hrx.
  rewrite (rne_decompose x n (x / 2 ^ n) (x mod 2 ^ n)) by lia.
  rewrite (rne_decompose (x * 2 ^ j) (n + j) (x / 2 ^ n) (x mod 2 ^ n * 2 ^ j)).
  - unfold rne_qr. rewrite Z.pow_add_r by lia.
    replace (2 * (x mod 2 ^ n * 2 ^ j)) with (2 * (x mod 2 ^ n) * 2 ^ j) by ring.
    generalize dependent (x mod 2 ^ n). generalize dependent (x / 2 ^ n).
    generalize dependent (2 ^ n). generalize dependent (2 ^ j).
    intros J HJ P HP q r Hx Hr.
    destruct (Z.compare_spec (2 * r * J) (P * J)), (Z.compare_spec (2 * r) P);
      try reflexivity; nia.
  - lia.
  - rewrite Z.pow_add_r by lia. nia.
  - rewrite Z.pow_add_r by lia. nia.
Qed.

(* bounds of a value with d digits *)
Lemma log2_digits x : 0 < x -> 2 ^ Z.log2 x <= x < 2 ^ (Z.log2 x + 1).
Proof. intros Hx. pose proof (Z.log2_spec x Hx). unfold Z.succ in *. lia. Qed.

Lemma rne_upper x n d : 0 <= n -> n <= d -> 0 <= x < 2 ^ d -> rne x n <= 2 ^ (d - n).
Proof.
  intros Hn Hd Hx.
  assert (Hp : 0 < 2 ^ n) by (apply Z.pow_pos_nonneg; lia).
  pose proof (Z.div_mod x (2 ^ n) ltac:(lia)) as Hdm.
  pose proof (Z.mod_pos_bound x (2 ^ n) Hp) as Hr.
  rewrite (rne_decompose x n (x / 2 ^ n) (x mod 2 ^ n)) by lia.
  pose proof (rne_qr_bounds (2 ^ n) (x / 2 ^ n) (x mod 2 ^ n)).
  assert (x / 2 ^ n < 2 ^ (d - n)).
  { apply Z.div_lt_upper_bound; [lia|]. rewrite <- Z.pow_add_r by lia.
    replace (n + (d - n)) with d by ring. lia. }
  lia.
Qed.

Lemma rne_lower x n d : 0 <= n -> n <= d -> 2 ^ d <= x -> 2 ^ (d - n) <= rne x n.
Proof.
  intros Hn Hd Hx.
  assert (Hp : 0 < 2 ^ n) by (apply Z.pow_pos_nonneg; lia).
  pose proof (Z.div_mod x (2 ^ n) ltac:(lia)) as Hdm.
  pose proof (Z.mod_pos_bound x (2 ^ n) Hp) as Hr.
  rewrite (rne_decompose x n (x / 2 ^ n) (x mod 2 ^ n)) by lia.
  pose proof (rne_qr_bounds (2 ^ n) (x / 2 ^ n) (x mod 2 ^ n)).
  assert (2 ^ (d - n) <= x / 2 ^ n).
  { apply Z.div_le_lower_bound; [lia|]. rewrite <- Z.pow_add_r by lia.
    replace (n + (d - n)) with d by ring. lia. }
  lia.
Qed.

Lemma rnd_mono x y : 0 <= x -> x <= y -> rnd x <= rnd y.
Proof.
  intros Hx Hxy. unfold rnd. fold (shift_of x) (shift_of y).
  destruct (Z.eq_dec x 0) as [->|Hx0].
  { change (shift_of 0) with 0. change (rne 0 0 * 2 ^ 0) with 0.
    assert (0 <= rne y (shift_of y)).
    { rewrite <- (rne_exact 0 (shift_of y)) at 1 by (unfold shift_of; lia).
      apply rne_mono; unfold shift_of; lia. }
    assert (0 < 2 ^ shift_of y) by (apply Z.pow_pos_nonneg; unfold shift_of; lia).
    nia. }
  assert (Hl : Z.log2 x <= Z.log2 y) by (apply Z.log2_le_mono; lia).
  assert (Hk : shift_of x <= shift_of y) by (unfold shift_of; lia).
  assert (Hkx : 0 <= shift_of x) by (unfold shift_of; lia).
  pose proof (log2_digits x ltac:(lia)) as Hdx.
  pose proof (log2_digits y ltac:(lia)) as Hdy.
  pose proof (Z.log2_nonneg x). pose proof (Z.log2_nonneg y).
  destruct (Z.eq_dec (shift_of x) (shift_of y)) as [He|Hne].
  - rewrite <- He. apply Z.mul_le_mono_nonneg_r; [apply Z.pow_nonneg; lia|].
    apply rne_mono; lia.
  - assert (Hky : shift_of y = Z.log2 y + 1 - 53) by (unfold shift_of in *; lia).
    assert (Hlt : Z.log2 x + 1 <= Z.log2 y) by (unfold shift_of in *; lia).
    (* rnd x <= 2^(log2 x + 1) <= 2^(log2 y) <= rnd y *)
    assert (Hux : rne x (shift_of x) * 2 ^ shift_of x <= 2 ^ (Z.log2 x + 1)).
    { assert (shift_of x <= Z.log2 x + 1) by (unfold shift_of; lia).
      pose proof (rne_upper x (shift_of x) (Z.log2 x + 1) Hkx ltac:(lia) ltac:(lia)) as Hu.
      replace (2 ^ (Z.log2 x + 1)) with (2 ^ (Z.log2 x + 1 - shift_of x) * 2 ^ shift_of x).
      - apply Z.mul_le_mono_nonneg_r; [apply Z.pow_nonneg; lia | exact Hu].
      - rewrite <- Z.pow_add_r by lia. f_equal. ring. }
    assert (Hly : 2 ^ Z.log2 y <= rne y (shift_of y) * 2 ^ shift_of y).
    { pose proof (rne_lower y (shift_of y) (Z.log2 y) ltac:(lia) ltac:(lia) ltac:(lia)) as Hlo.
      replace (2 ^ Z.log2 y) with (2 ^ (Z.log2 y - shift_of y) * 2 ^ shift_of y).
      - apply Z.mul_le_mono_nonneg_r; [apply Z.pow_nonneg; lia | exact Hlo].
      - rewrite <- Z.pow_add_r by lia. f_equal. ring. }
    assert (2 ^ (Z.log2 x + 1) <= 2 ^ Z.log2 y) by (apply Z.pow_le_mono_r; lia).
    lia.
Qed.

Lemma digits2_size m : digits2_pos m = Pos.size m.
Proof. induction m; simpl; congruence. Qed.

Lemma dg_log2 m : dg m = Z.log2 (Zpos m) + 1.
Proof.
  unfold dg. rewrite digits2_size.
  destruct m; simpl; rewrite ?Pos2Z.inj_succ; lia.
Qed.

Lemma dg_bounds m : 2 ^ (dg m - 1) <= Zpos m < 2 ^ dg m.
Proof.
  rewrite dg_log2. pose proof (log2_digits (Zpos m) ltac:(lia)).
  replace (Z.log2 (Zpos m) + 1 - 1) with (Z.log2 (Zpos m)) by ring. lia.
Qed.

Lemma dg_pos m : 1 <= dg m.
Proof. unfold dg. lia. Qed.

Lemma dg_unique m d : 2 ^ (d - 1) <= Zpos m < 2 ^ d -> dg m = d.
Proof.
  intros H. rewrite dg_log2.
  assert (0 <= d - 1).
  { destruct (Z_lt_le_dec (d - 1) 0) as [Hneg|]; [|lia].
    assert (d <= 0) by lia.
    assert (2 ^ d <= 2 ^ 0) by (destruct (Z.eq_dec d 0); [subst; lia|rewrite Z.pow_neg_r by lia; simpl; lia]).
    simpl in *. lia. }
  rewrite (Z.log2_unique (Zpos m) (d - 1)); [lia|lia|].
  replace (Z.succ (d - 1)) with d by lia. lia.
Qed.

Lemma fexp_eq e : fexp prec emax e = Z.max (e - 53) (-1074).
Proof. reflexivity. Qed.

Lemma pos_iter_xO m p : Zpos (Pos.iter xO m p) = Zpos m * 2 ^ Zpos p.
Proof.
  induction p using Pos.peano_ind.
  - simpl. lia.
  - rewrite Pos.iter_succ, Pos2Z.inj_succ, Z.pow_succ_r by lia.
    rewrite Pos2Z.inj_xO, IHp. ring.
Qed.

Lemma sf_iter_nat {A} (f : A -> A) p : forall x,
  SpecFloat.iter_pos f p x = Nat.iter (Pos.to_nat p) f x.
Proof.
  induction p as [p IH|p IH|]; intros x; cbn [SpecFloat.iter_pos].
  - rewrite !IH, Pos2Nat.inj_xI, Nat.iter_succ_r.
    replace (2 * Pos.to_nat p)%nat with (Pos.to_nat p + Pos.to_nat p)%nat by lia.
    rewrite Nat.iter_add. reflexivity.
  - rewrite !IH, Pos2Nat.inj_xO.
    replace (2 * Pos.to_nat p)%nat with (Pos.to_nat p + Pos.to_nat p)%nat by lia.
    rewrite Nat.iter_add. reflexivity.
  - reflexivity.
Qed.

Lemma shr_inv_0 X : 0 <= X -> shr_inv X 0 (Build_shr_record X false false).
Proof. intros HX. exists 0. simpl. repeat split; lia. Qed.

Lemma shr_1_nonneg m r s :
  0 <= m -> shr_1 (Build_shr_record m r s) = Build_shr_record (Z.div2 m) (Z.odd m) (r || s).
Proof. intros Hm. destruct m as [|[p|p|]|p]; try reflexivity; lia. Qed.

Lemma shr_inv_step X j mrs :
  0 <= j -> shr_inv X j mrs -> shr_inv X (j + 1) (shr_1 mrs).
Proof.
  intros Hj (rem & HX & Hrem & Hm & Hr & Hs). destruct mrs as [m r s].
  cbn [shr_m shr_r shr_s] in *.
  rewrite shr_1_nonneg by lia.
  assert (Hp : 0 < 2 ^ j) by (apply Z.pow_pos_nonneg; lia).
  pose proof (Z.div2_odd m) as Hdiv.
  assert (Hd2 : 0 <= Z.div2 m) by (apply Z.div2_nonneg; lia).
  exists (Z.b2z (Z.odd m) * 2 ^ j + rem). cbn [shr_m shr_r shr_s].
  rewrite Z.pow_add_r by lia. change (2 ^ 1) with 2.
  destruct (Z.odd m); simpl Z.b2z in *.
  - repeat split; try nia. subst r s.
    destruct (Z.leb_spec (2 ^ j) (2 * rem)), (Z.eqb_spec (2 * rem) (2 ^ j)),
      (Z.eqb_spec (2 * rem) 0),
      (Z.eqb_spec (2 * (1 * 2 ^ j + rem)) (2 ^ j * 2)); simpl; try reflexivity; try lia.
  - repeat split; try nia. subst r s.
    destruct (Z.leb_spec (2 ^ j) (2 * rem)), (Z.eqb_spec (2 * rem) (2 ^ j)),
      (Z.eqb_spec (2 * rem) 0),
      (Z.eqb_spec (2 * (0 * 2 ^ j + rem)) 0); simpl; try reflexivity; try lia.
Qed.

Lemma shr_inv_iter X n mrs :
  shr_inv X 0 mrs -> shr_inv X (Z.of_nat n) (Nat.iter n shr_1 mrs).
Proof.
  intros H0. induction n as [|n IH]; [exact H0|].
  rewrite Nat2Z.inj_succ. unfold Z.succ. simpl Nat.iter.
  apply shr_inv_step; [lia|exact IH].
Qed.

Lemma round_of_inv X j mrs :
  0 <= j -> shr_inv X j mrs ->
  round_nearest_even (shr_m mrs) (loc_of_shr_record mrs) = rne X j.
Proof.
  intros Hj (rem & HX & Hrem & Hm & Hr & Hs). destruct mrs as [m r s].
  cbn [shr_m shr_r shr_s] in *.
  rewrite (rne_decompose X j m rem) by lia. unfold rne_qr.
  assert (Hp : 0 < 2 ^ j) by (apply Z.pow_pos_nonneg; lia).
  subst r s. remember (2 * rem) as t eqn:Et. remember (2 ^ j) as P eqn:EP.
  destruct (Z.leb_spec P t); cbn [negb];
    [destruct (Z.eqb_spec t P) | destruct (Z.eqb_spec t 0)];
    destruct (Z.compare_spec t P); cbn; try reflexivity; lia.
Qed.

Lemma TOP_eq : TOP = 2 ^ 53 * 2 ^ 2045.
Proof. unfold TOP. rewrite <- Z.pow_add_r by lia. reflexivity. Qed.

Lemma pow2_pos a : 0 <= a -> 0 < 2 ^ a.
Proof. intros. apply Z.pow_pos_nonneg; lia. Qed.

Lemma pow2_le a b : a <= b -> 2 ^ a <= 2 ^ b.
Proof. intros. apply Z.pow_le_mono_r; lia. Qed.

Lemma shr_fexp_exact p e :
  shr_fexp prec emax (Zpos p) e loc_Exact
  = shr (Build_shr_record (Zpos p) false false) e (Z.max (dg p + e - 53) (-1074) - e).
Proof. reflexivity. Qed.

Lemma shr_nonpos mrs e n : n <= 0 -> shr mrs e n = (mrs, e).
Proof. intros Hn. destruct n; try reflexivity. lia. Qed.

Lemma stage1 p e :
  -1074 <= e -> e <= Z.max (dg p + e - 53) (-1074) ->
  exists mrs,
    shr_fexp prec emax (Zpos p) e loc_Exact = (mrs, Z.max (dg p + e - 53) (-1074))
    /\ round_nearest_even (shr_m mrs) (loc_of_shr_record mrs)
       = rne (Zpos p) (Z.max (dg p + e - 53) (-1074) - e).
Proof.
  intros He HT. rewrite shr_fexp_exact.
  set (T := Z.max (dg p + e - 53) (-1074)) in *.
  destruct (T - e) as [|q|q] eqn:En; [| |lia].
  - exists (Build_shr_record (Zpos p) false false). split.
    + simpl. f_equal. lia.
    + cbn [shr_m loc_of_shr_record round_nearest_even].
      rewrite <- (rne_exact (Zpos p) 0) at 1 by lia. f_equal. simpl. lia.
  - exists (SpecFloat.iter_pos shr_1 q (Build_shr_record (Zpos p) false false)). split.
    + cbn [shr]. f_equal. lia.
    + rewrite sf_iter_nat. rewrite <- (positive_nat_Z q).
      apply round_of_inv; [lia|]. apply shr_inv_iter, shr_inv_0. lia.
Qed.

Lemma stage1_bounds p e :
  -1074 <= e -> e <= Z.max (dg p + e - 53) (-1074) ->
  let m2 := rne (Zpos p) (Z.max (dg p + e - 53) (-1074) - e) in
  0 < m2 <= 2 ^ 53 /\ (-1074 < Z.max (dg p + e - 53) (-1074) -> 2 ^ 52 <= m2).
Proof.
  intros He HT. set (T := Z.max (dg p + e - 53) (-1074)) in *. intros m2.
  pose proof (dg_bounds p) as Hdg. pose proof (dg_pos p) as Hd1.
  assert (Hn : 0 <= T - e) by lia.
  assert (Hnd : T - e <= dg p - 1) by (unfold T; lia).
  assert (Hup : m2 <= 2 ^ 53).
  { pose proof (rne_upper (Zpos p) (T - e) (dg p) Hn ltac:(lia) ltac:(lia)) as Hu.
    assert (2 ^ (dg p - (T - e)) <= 2 ^ 53) by (apply pow2_le; unfold T; lia).
    unfold m2. lia. }
  assert (Hlo : 2 ^ (dg p - 1 - (T - e)) <= m2).
  { apply (rne_lower (Zpos p) (T - e) (dg p - 1)); lia. }
  assert (Hpos : 0 < 2 ^ (dg p - 1 - (T - e))) by (apply pow2_pos; lia).
  split; [lia|]. intros HTm.
  assert (Heq : dg p - 1 - (T - e) = 52) by (unfold T in *; lia).
  rewrite Heq in Hlo. exact Hlo.
Qed.

Lemma stage2 s m2 T :
  -1074 <= T -> 0 < m2 <= 2 ^ 53 -> (-1074 < T -> 2 ^ 52 <= m2) ->
  exists mrs e,
    shr_fexp prec emax m2 T loc_Exact = (mrs, e)
    /\ signed_form s (finish s (shr_m mrs) e)
    /\ mag (finish s (shr_m mrs) e) = Z.min (m2 * 2 ^ (T + 1074)) TOP.
Proof.
  intros HT Hm Hlo. destruct m2 as [|p|p]; [lia| |lia].
  rewrite shr_fexp_exact.
  pose proof (dg_bounds p) as Hdg. pose proof (dg_pos p) as Hd1.
  pose proof TOP_eq as HTOP.
  assert (HX : 0 < 2 ^ (T + 1074)) by (apply pow2_pos; lia).
  destruct (Z.eq_dec (Zpos p) (2 ^ 53)) as [E53|N53].
  - assert (Hd : dg p = 54) by (apply dg_unique; rewrite E53; simpl; lia).
    rewrite Hd. replace (Z.max (54 + T - 53) (-1074) - T) with 1 by lia.
    assert (Hp : p = 9007199254740992%positive)
      by (apply Pos2Z.inj; rewrite E53; reflexivity).
    clear Hdg Hd1 Hlo Hm Hd E53. subst p.
    eexists _, _. split; [reflexivity|].
    change (shr_m (SpecFloat.iter_pos shr_1 1
              {| shr_m := 9007199254740992; shr_r := false; shr_s := false |}))
      with 4503599627370496.
    unfold finish, emax, prec.
    assert (H52 : Z.pos 4503599627370496 = 2 ^ 52) by reflexivity.
    assert (H53 : Z.pos 9007199254740992 = 2 * 2 ^ 52) by reflexivity.
    assert (HT53 : TOP = 2 * 2 ^ 52 * 2 ^ 2045) by (rewrite HTOP; reflexivity).
    assert (H2045 : 2 ^ 2045 = 2 * 2 ^ 2044)
      by (rewrite <- Z.pow_succ_r by lia; reflexivity).
    assert (HT1 : 2 ^ (T + 1 + 1074) = 2 * 2 ^ (T + 1074)).
    { replace (T + 1 + 1074) with (Z.succ (T + 1074)) by lia.
      rewrite Z.pow_succ_r by lia. reflexivity. }
    destruct (Z.leb_spec (T + 1) (1024 - 53)).
    + split; [right; eauto|]. cbn [mag]. rewrite H52, H53, HT1, HT53, H2045.
      assert (2 ^ (T + 1074) <= 2 ^ 2044) by (apply pow2_le; lia).
      assert (0 < 2 ^ 52) by (apply pow2_pos; lia).
      generalize dependent (2 ^ (T + 1074)). generalize dependent (2 ^ 2044).
      generalize dependent (2 ^ 52). intros. nia.
    + split; [by left|]. cbn [mag]. rewrite H53, HT53, H2045.
      assert (2 ^ 2045 <= 2 ^ (T + 1074)) by (apply pow2_le; lia).
      assert (0 < 2 ^ 52) by (apply pow2_pos; lia).
      rewrite H2045 in *.
      generalize dependent (2 ^ (T + 1074)). generalize dependent (2 ^ 2044).
      generalize dependent (2 ^ 52). intros. nia.
  - assert (Hd : dg p <= 53).
    { destruct (Z_le_gt_dec (dg p) 53); [lia|].
      assert (2 ^ 53 <= 2 ^ (dg p - 1)) by (apply pow2_le; lia). lia. }
    rewrite shr_nonpos by lia.
    eexists _, _. split; [reflexivity|].
    cbn [shr_m finish]. unfold emax, prec.
    destruct (Z.leb_spec T (1024 - 53)).
    + split; [right; eauto|]. cbn [mag].
      assert (2 ^ (T + 1074) <= 2 ^ 2045) by (apply pow2_le; lia).
      generalize dependent (2 ^ (T + 1074)). generalize dependent (2 ^ 2045).
      intros. nia.
    + split; [by left|]. cbn [mag].
      assert (2 ^ 2046 <= 2 ^ (T + 1074)) by (apply pow2_le; lia).
      assert (2 ^ 2046 = 2 * 2 ^ 2045) by (rewrite <- Z.pow_succ_r by lia; reflexivity).
      assert (2 ^ 52 <= Zpos p) by (apply Hlo; lia).
      change (2 ^ 53) with (2 * 2 ^ 52) in HTOP.
      generalize dependent (2 ^ (T + 1074)). generalize dependent (2 ^ 2045).
      generalize dependent (2 ^ 2046). intros. nia.
Qed.

Lemma shift_of_scaled p e :
  -1074 <= e ->
  Z.max (Z.log2 (Zpos p * 2 ^ (e + 1074)) + 1 - 53) 0
  = Z.max (dg p + e - 53) (-1074) + 1074.
Proof.
  intros He. rewrite Z.log2_mul_pow2 by lia. rewrite dg_log2. lia.
Qed.

Lemma rnd_scaled p e :
  -1074 <= e -> e <= Z.max (dg p + e - 53) (-1074) ->
  rnd (Zpos p * 2 ^ (e + 1074))
  = rne (Zpos p) (Z.max (dg p + e - 53) (-1074) - e)
    * 2 ^ (Z.max (dg p + e - 53) (-1074) + 1074).
Proof.
  intros He HT. unfold rnd. rewrite shift_of_scaled by lia.
  set (T := Z.max (dg p + e - 53) (-1074)) in *.
  replace (T + 1074) with ((T - e) + (e + 1074)) at 1 by ring.
  rewrite rne_scale by lia. reflexivity.
Qed.

Lemma round_aux_mag s p e :
  -1074 <= e -> e <= Z.max (dg p + e - 53) (-1074) ->
  signed_form s (binary_round_aux prec emax s (Zpos p) e loc_Exact)
  /\ mag (binary_round_aux prec emax s (Zpos p) e loc_Exact)
     = Z.min (rnd (Zpos p * 2 ^ (e + 1074))) TOP.
Proof.
  intros He HT.
  destruct (stage1 p e He HT) as (mrs & Hs1 & Hr1).
  pose proof (stage1_bounds p e He HT) as [Hb1 Hb2].
  destruct (stage2 s _ (Z.max (dg p + e - 53) (-1074)) ltac:(lia) Hb1 Hb2)
    as (mrs2 & e2 & Hs2 & Hform & Hmag).
  assert (Hr : binary_round_aux prec emax s (Zpos p) e loc_Exact
               = finish s (shr_m mrs2) e2).
  { unfold binary_round_aux. rewrite Hs1, Hr1, Hs2. reflexivity. }
  rewrite Hr, rnd_scaled by lia. split; assumption.
Qed.

Lemma dg_shift m q : dg (Pos.iter xO m q) = dg m + Zpos q.
Proof.
  apply dg_unique. rewrite pos_iter_xO. pose proof (dg_bounds m) as Hb.
  pose proof (dg_pos m).
  replace (dg m + Zpos q - 1) with ((dg m - 1) + Zpos q) by ring.
  rewrite !Z.pow_add_r by lia.
  assert (0 < 2 ^ Zpos q) by (apply pow2_pos; lia). nia.
Qed.

Lemma binary_round_mag s m e :
  -1074 <= e ->
  signed_form s (binary_round prec emax s m e)
  /\ mag (binary_round prec emax s m e) = Z.min (rnd (Zpos m * 2 ^ (e + 1074))) TOP.
Proof.
  intros He. unfold binary_round, shl_align.
  change (Zpos (digits2_pos m)) with (dg m). rewrite fexp_eq.
  set (T := Z.max (dg m + e - 53) (-1074)).
  destruct (T - e) as [|q|q] eqn:En.
  - apply round_aux_mag; fold T; lia.
  - apply round_aux_mag; fold T; lia.
  - assert (HT : -1074 <= T) by (unfold T; lia).
    assert (Hq : Zpos q = e - T) by lia.
    pose proof (round_aux_mag s (Pos.iter xO m q) T HT) as H.
    rewrite dg_shift, Hq in H.
    replace (dg m + (e - T) + T - 53) with (dg m + e - 53) in H by ring.
    fold T in H. specialize (H ltac:(lia)).
    assert (Hval : Zpos (Pos.iter xO m q) * 2 ^ (T + 1074) = Zpos m * 2 ^ (e + 1074)).
    { rewrite pos_iter_xO, Hq, <- Z.mul_assoc, <- Z.pow_add_r by lia.
      do 2 f_equal. ring. }
    rewrite Hval in H. exact H.
Qed.

Lemma nonneg_leb x : SFleb (S754_zero false) x = true <-> nonneg x.
Proof. destruct x as [s|[|]| |[|] m e]; simpl; split; intros; try done. Qed.

Lemma valid_finite s m e :
  valid_binary (S754_finite s m e) = true ->
  e = Z.max (dg m + e - 53) (-1074) /\ e <= 971.
Proof.
  unfold SpecFloat.valid_binary, bounded, canonical_mantissa. rewrite fexp_eq.
  fold (dg m). unfold emax, prec. intros H.
  apply andb_true_iff in H as [H1 H2].
  apply Z.eqb_eq in H1. apply Z.leb_le in H2. lia.
Qed.

Lemma valid_mantissa s m e :
  valid_binary (S754_finite s m e) = true ->
  Zpos m < 2 ^ 53 /\ (-1074 < e -> 2 ^ 52 <= Zpos m) /\ -1074 <= e <= 971.
Proof.
  intros H. apply valid_finite in H as [Hc He].
  pose proof (dg_bounds m) as Hb. pose proof (dg_pos m).
  assert (Hd : dg m <= 53) by lia.
  assert (2 ^ dg m <= 2 ^ 53) by (apply pow2_le; lia).
  split; [lia|]. split; [|lia]. intros Hn.
  assert (dg m = 53) by lia.
  replace (dg m - 1) with 52 in Hb by lia. lia.
Qed.

Lemma valid_mag_bounds s m e :
  valid_binary (S754_finite s m e) = true ->
  0 < mag (S754_finite s m e) < TOP.
Proof.
  intros H. apply valid_mantissa in H as (Hm & _ & He). cbn [mag].
  assert (0 < 2 ^ (e + 1074)) by (apply pow2_pos; lia).
  assert (2 ^ (e + 1074) <= 2 ^ 2045) by (apply pow2_le; lia).
  rewrite TOP_eq.
  generalize dependent (2 ^ (e + 1074)). generalize dependent (2 ^ 2045).
  intros. nia.
Qed.

Lemma rne_0 x : rne x 0 = x.
Proof. rewrite <- (rne_exact x 0) at 2 by lia. f_equal. simpl. lia. Qed.

Lemma valid_rnd_fix s m e :
  valid_binary (S754_finite s m e) = true ->
  rnd (mag (S754_finite s m e)) = mag (S754_finite s m e).
Proof.
  intros H. apply valid_finite in H as [Hc He]. cbn [mag].
  rewrite rnd_scaled by lia. rewrite <- Hc.
  replace (e - e) with 0 by ring. by rewrite rne_0.
Qed.

Lemma rnd_0 : rnd 0 = 0.
Proof. reflexivity. Qed.

Lemma rnd_TOP : rnd TOP = TOP.
Proof.
  unfold rnd, TOP. rewrite Z.log2_pow2 by lia.
  change (Z.max (2098 + 1 - 53) 0) with 2046.
  replace (2 ^ 2098) with (2 ^ 52 * 2 ^ 2046)
    by (rewrite <- Z.pow_add_r by lia; reflexivity).
  rewrite rne_exact by lia. reflexivity.
Qed.

Lemma TOP_pos : 0 < TOP.
Proof. unfold TOP. apply pow2_pos. lia. Qed.

Lemma rnd_above_TOP z : TOP <= z -> Z.min (rnd z) TOP = TOP.
Proof.
  intros Hz. pose proof TOP_pos.
  pose proof (rnd_mono TOP z ltac:(lia) Hz) as Hm. rewrite rnd_TOP in Hm. lia.
Qed.

Lemma mag_nonneg x : 0 <= mag x.
Proof.
  pose proof TOP_pos.
  destruct x as [s|s| |s m e]; cbn [mag]; lia.
Qed.

(** order of canonical mantissas and exponents *)
Lemma canonical_lt s1 m1 e1 s2 m2 e2 :
  valid_binary (S754_finite s1 m1 e1) = true ->
  valid_binary (S754_finite s2 m2 e2) = true ->
  e1 < e2 ->
  mag (S754_finite s1 m1 e1) < mag (S754_finite s2 m2 e2).
Proof.
  intros H1 H2 He.
  apply valid_mantissa in H1 as (Hm1 & _ & He1).
  apply valid_mantissa in H2 as (_ & Hm2 & He2).
  specialize (Hm2 ltac:(lia)). cbn [mag].
  assert (0 < 2 ^ (e1 + 1074)) by (apply pow2_pos; lia).
  assert (2 * 2 ^ (e1 + 1074) <= 2 ^ (e2 + 1074)).
  { rewrite <- Z.pow_succ_r by lia. apply pow2_le. lia. }
  change (2 ^ 53) with (2 * 2 ^ 52) in Hm1.
  assert (0 < 2 ^ 52) by (apply pow2_pos; lia).
  generalize dependent (2 ^ (e1 + 1074)). generalize dependent (2 ^ (e2 + 1074)).
  generalize dependent (2 ^ 52). intros. nia.
Qed.

Lemma SFleb_mag x y :
  valid_binary x = true -> valid_binary y = true -> nonneg x -> nonneg y ->
  (SFleb x y = true <-> mag x <= mag y).
Proof.
  intros Hx Hy Nx Ny. pose proof TOP_pos as HT.
  destruct x as [sx|sx| |sx mx ex], y as [sy|sy| |sy my ey];
    cbn [nonneg] in Nx, Ny; try contradiction; subst;
    try pose proof (valid_mag_bounds _ _ _ Hx) as Bx;
    try pose proof (valid_mag_bounds _ _ _ Hy) as By;
    try (cbn [SFleb SFcompare mag] in *; split; intros Hh; first [done | lia]).
  unfold SFleb, SFcompare.
  destruct (Z.compare_spec ex ey) as [->|Hlt|Hgt].
  - change (Pos.compare_cont Eq mx my) with (Pos.compare mx my). cbn [mag].
    assert (0 < 2 ^ (ey + 1074)).
    { apply valid_mantissa in Hy as (_ & _ & ?). apply pow2_pos. lia. }
    rewrite Pos2Z.inj_compare.
    destruct (Z.compare_spec (Zpos mx) (Zpos my)); split; try done; nia.
  - pose proof (canonical_lt _ _ _ _ _ _ Hx Hy Hlt). split; [lia|done].
  - pose proof (canonical_lt _ _ _ _ _ _ Hy Hx Hgt). split; [done|lia].
Qed.

Lemma shl_align_val mx ex ez :
  -1074 <= ez -> ez <= ex ->
  Zpos (shl_align mx ex ez).1 * 2 ^ (ez + 1074) = Zpos mx * 2 ^ (ex + 1074).
Proof.
  intros Hz Hle. unfold shl_align. destruct (ez - ex) as [|q|q] eqn:E; cbn [fst].
  - replace ez with ex by lia. reflexivity.
  - lia.
  - rewrite pos_iter_xO, <- Z.mul_assoc, <- Z.pow_add_r by lia.
    do 2 f_equal. lia.
Qed.

Lemma signed_form_nonneg r : signed_form false r -> nonneg r.
Proof. by intros [-> | (m & e & ->)]. Qed.

Lemma SFabs_form s r : signed_form s r -> nonneg (SFabs r) /\ mag (SFabs r) = mag r.
Proof. by intros [-> | (m & e & ->)]. Qed.

Lemma SFadd_mag x y :
  valid_binary x = true -> valid_binary y = true -> nonneg x -> nonneg y ->
  nonneg (SFadd prec emax x y)
  /\ mag (SFadd prec emax x y) = Z.min (rnd (mag x + mag y)) TOP.
Proof.
  intros Hx Hy Nx Ny. pose proof TOP_pos as HT.
  destruct x as [sx|sx| |sx mx ex], y as [sy|sy| |sy my ey];
    cbn [nonneg] in Nx, Ny; try contradiction; subst;
    try pose proof (valid_mag_bounds _ _ _ Hx) as Bx;
    try pose proof (valid_mag_bounds _ _ _ Hy) as By;
    try pose proof (valid_rnd_fix _ _ _ Hx) as Fx;
    try pose proof (valid_rnd_fix _ _ _ Hy) as Fy.
  - (* zero, zero *)
    split; [by destruct sx, sy|].
    replace (mag (SFadd prec emax (S754_zero sx) (S754_zero sy))) with 0
      by (by destruct sx, sy).
    cbn [mag]. change (rnd (0 + 0)) with 0. lia.
  - (* zero, infinity *)
    split; [done|]. cbn [SFadd mag]. rewrite rnd_above_TOP; lia.
  - (* zero, finite *)
    split; [done|]. cbn [SFadd]. change (mag (S754_zero sx)) with 0.
    rewrite Z.add_0_l, Fy. lia.
  - (* infinity, zero *)
    split; [done|]. cbn [SFadd mag]. rewrite rnd_above_TOP; lia.
  - (* infinity, infinity *)
    split; [done|]. cbn [SFadd mag]. rewrite rnd_above_TOP; lia.
  - (* infinity, finite *)
    split; [done|]. cbn [SFadd]. change (mag (S754_infinity false)) with TOP.
    rewrite rnd_above_TOP; lia.
  - (* finite, zero *)
    split; [done|]. cbn [SFadd]. change (mag (S754_zero sy)) with 0.
    rewrite Z.add_0_r, Fx. lia.
  - (* finite, infinity *)
    split; [done|]. cbn [SFadd]. change (mag (S754_infinity false)) with TOP.
    rewrite rnd_above_TOP; lia.
  - (* finite, finite *)
    apply valid_mantissa in Hx as (_ & _ & Hex).
    apply valid_mantissa in Hy as (_ & _ & Hey).
    cbn [SFadd cond_Zopp]. rewrite <- Pos2Z.inj_add. cbn [binary_normalize].
    destruct (binary_round_mag false
                ((shl_align mx ex (Z.min ex ey)).1 + (shl_align my ey (Z.min ex ey)).1)%positive
                (Z.min ex ey) ltac:(lia)) as [Hf Hm].
    split; [by apply signed_form_nonneg|].
    rewrite Hm. do 2 f_equal. rewrite Pos2Z.inj_add, Z.mul_add_distr_r.
    rewrite !shl_align_val by lia. reflexivity.
Qed.

Lemma cond_Zopp_mul s a b : cond_Zopp s a * b = cond_Zopp s (a * b).
Proof. destruct s; cbn [cond_Zopp]; lia. Qed.

Lemma SFsub_abs_mag x y :
  valid_binary x = true -> valid_binary y = true ->
  finite_or_zero x -> finite_or_zero y ->
  nonneg (SFabs (SFsub prec emax x y))
  /\ mag (SFabs (SFsub prec emax x y)) = Z.min (rnd (Z.abs (sval x - sval y))) TOP.
Proof.
  intros Hx Hy Fx Fy. pose proof TOP_pos as HT.
  destruct x as [sx|sx| |sx mx ex], y as [sy|sy| |sy my ey];
    cbn [finite_or_zero] in Fx, Fy; try contradiction;
    try pose proof (valid_mag_bounds _ _ _ Hx) as Bx;
    try pose proof (valid_mag_bounds _ _ _ Hy) as By;
    try pose proof (valid_rnd_fix _ _ _ Hx) as Rx;
    try pose proof (valid_rnd_fix _ _ _ Hy) as Ry.
  - split; [by destruct sx, sy|].
    replace (mag (SFabs (SFsub prec emax (S754_zero sx) (S754_zero sy)))) with 0
      by (by destruct sx, sy).
    cbn [sval]. change (rnd (Z.abs (0 - 0))) with 0. lia.
  - split; [done|]. cbn [SFsub SFabs sval]. cbn [mag] in *.
    replace (Z.abs (0 - cond_Zopp sy (Zpos my * 2 ^ (ey + 1074))))
      with (Zpos my * 2 ^ (ey + 1074)) by (destruct sy; cbn [cond_Zopp]; lia).
    rewrite Ry. lia.
  - split; [done|]. cbn [SFsub SFabs sval]. cbn [mag] in *.
    replace (Z.abs (cond_Zopp sx (Zpos mx * 2 ^ (ex + 1074)) - 0))
      with (Zpos mx * 2 ^ (ex + 1074)) by (destruct sx; cbn [cond_Zopp]; lia).
    rewrite Rx. lia.
  - apply valid_mantissa in Hx as (_ & _ & Hex).
    apply valid_mantissa in Hy as (_ & _ & Hey).
    cbn [SFsub sval].
    set (ez := Z.min ex ey).
    set (a := (shl_align mx ex ez).1). set (b := (shl_align my ey ez).1).
    assert (HX : 0 < 2 ^ (ez + 1074)) by (apply pow2_pos; lia).
    assert (Ha : Zpos a * 2 ^ (ez + 1074) = Zpos mx * 2 ^ (ex + 1074))
      by (apply shl_align_val; lia).
    assert (Hb : Zpos b * 2 ^ (ez + 1074) = Zpos my * 2 ^ (ey + 1074))
      by (apply shl_align_val; lia).
    assert (HD : (cond_Zopp sx (Zpos a) - cond_Zopp sy (Zpos b)) * 2 ^ (ez + 1074)
                 = cond_Zopp sx (Zpos mx * 2 ^ (ex + 1074))
                   - cond_Zopp sy (Zpos my * 2 ^ (ey + 1074))).
    { rewrite Z.mul_sub_distr_r, !cond_Zopp_mul, Ha, Hb. reflexivity. }
    rewrite <- HD.
    destruct (cond_Zopp sx (Zpos a) - cond_Zopp sy (Zpos b)) as [|m|m];
      cbn [binary_normalize].
    + split; [done|]. cbn [SFabs mag]. change (rnd (Z.abs (0 * _))) with 0. lia.
    + destruct (binary_round_mag false m ez ltac:(lia)) as [Hf Hm].
      destruct (SFabs_form _ _ Hf) as [Hn ->]. split; [done|].
      rewrite Hm. do 2 f_equal. lia.
    + destruct (binary_round_mag true m ez ltac:(lia)) as [Hf Hm].
      destruct (SFabs_form _ _ Hf) as [Hn ->]. split; [done|].
      rewrite Hm. do 2 f_equal. lia.
Qed.

Lemma SFleb_nonneg x y : SFleb x y = true -> nonneg x -> nonneg y.
Proof.
  destruct x as [sx|[|]| |[|] mx ex], y as [sy|[|]| |[|] my ey]; cbn; try done.
Qed.

Lemma leb_zero_nonneg x : PrimFloat.leb 0 x = true <-> nonneg (Prim2SF x).
Proof. rewrite leb_spec. apply nonneg_leb. Qed.

(** Addition of doubles is monotone on the non-negative ones. *)
Lemma float_add_le_mono (a b c d : float) :
  PrimFloat.leb 0 a = true -> PrimFloat.leb a b = true ->
  PrimFloat.leb 0 c = true -> PrimFloat.leb c d = true ->
  PrimFloat.leb 0 (PrimFloat.add a c) = true
  /\ PrimFloat.leb (PrimFloat.add a c) (PrimFloat.add b d) = true.
Proof.
  intros Ha Hab Hc Hcd.
  apply leb_zero_nonneg in Ha, Hc. rewrite leb_spec in Hab, Hcd.
  pose proof (SFleb_nonneg _ _ Hab Ha) as Hb.
  pose proof (SFleb_nonneg _ _ Hcd Hc) as Hd.
  apply SFleb_mag in Hab; [|apply Prim2SF_valid..|done|done].
  apply SFleb_mag in Hcd; [|apply Prim2SF_valid..|done|done].
  destruct (SFadd_mag (Prim2SF a) (Prim2SF c)
              (Prim2SF_valid a) (Prim2SF_valid c) Ha Hc) as [Nac Mac].
  destruct (SFadd_mag (Prim2SF b) (Prim2SF d)
              (Prim2SF_valid b) (Prim2SF_valid d) Hb Hd) as [Nbd Mbd].
  fold (SF64add (Prim2SF a) (Prim2SF c)) in Nac, Mac.
  fold (SF64add (Prim2SF b) (Prim2SF d)) in Nbd, Mbd.
  rewrite <- add_spec in Nac, Mac, Nbd, Mbd.
  split; [by apply leb_zero_nonneg|].
  rewrite leb_spec. apply SFleb_mag; [apply Prim2SF_valid..|done|done|].
  rewrite Mac, Mbd.
  pose proof (mag_nonneg (Prim2SF a)). pose proof (mag_nonneg (Prim2SF c)).
  pose proof (rnd_mono (mag (Prim2SF a) + mag (Prim2SF c))
                (mag (Prim2SF b) + mag (Prim2SF d)) ltac:(lia) ltac:(lia)).
  lia.
Qed.

Lemma quanta_sval x q :
  quanta x = Some q -> finite_or_zero (Prim2SF x) /\ sval (Prim2SF x) = q.
Proof.
  unfold quanta. destruct (Prim2SF x); intros H; try done; by injection H as <-.
Qed.

(** A difference that is within [t] exactly is within [t] as computed. *)
Lemma float_within_exact (u c t : float) (qu qc qt : Z) :
  quanta u = Some qu -> quanta c = Some qc -> quanta t = Some qt ->
  Z.abs (qu - qc) <= qt ->
  PrimFloat.leb (PrimFloat.abs (PrimFloat.sub u c)) t = true.
Proof.
  intros Hu Hc Ht Hle.
  apply quanta_sval in Hu as [Fu Su]. apply quanta_sval in Hc as [Fc Sc].
  destruct (SFsub_abs_mag (Prim2SF u) (Prim2SF c)
              (Prim2SF_valid u) (Prim2SF_valid c) Fu Fc) as [Nd Md].
  fold (SF64sub (Prim2SF u) (Prim2SF c)) in Nd, Md.
  rewrite <- sub_spec, <- abs_spec, Su, Sc in Md.
  rewrite <- sub_spec, <- abs_spec in Nd.
  pose proof (Prim2SF_valid t) as Vt. pose proof TOP_pos.
  assert (Hmt : nonneg (Prim2SF t) /\ mag (Prim2SF t) = qt
                /\ rnd qt = qt).
  { unfold quanta in Ht. destruct (Prim2SF t) as [st|st| |st mt et] eqn:Et; try done.
    - injection Ht as <-. done.
    - injection Ht as <-. pose proof (valid_mag_bounds _ _ _ Vt) as Bt.
      pose proof (valid_rnd_fix _ _ _ Vt) as Rt. cbn [mag] in *.
      destruct st; cbn [cond_Zopp nonneg] in *; [lia|done]. }
  destruct Hmt as (Nt & Mt & Rt).
  rewrite leb_spec. apply SFleb_mag; [apply Prim2SF_valid..|done|done|].
  rewrite Md, Mt.
  pose proof (rnd_mono (Z.abs (qu - qc)) qt ltac:(lia) Hle). lia.
Qed.

Local Open Scope string_scope.

Section GradingFacts.
Context `{B : Builtins}.

Lemma grade_row_inv row t m ds a t' m' ds' a' :
  grade_row row (t, m, ds) a = (Ok (t', m', ds'), a') ->
  a' = a ∧ ∃ d, graded a row d
    ∧ t' = PrimFloat.add t (d_score d)
    ∧ m' = PrimFloat.add m (d_max_score d)
    ∧ ds' = (ds ++ [d])%list.
Proof.
  unfold grade_row, exec_bind, lift, answers_get, exec_ret. intros H.
  destruct (attr row "variant" ≫= py_int) as [variant|] eqn:Ev; [|discriminate H].
  destruct (attr row "qnum" ≫= py_int) as [qnum|] eqn:Eq; [|discriminate H].
  destruct (attr row "type") as [ty|] eqn:Et; [|discriminate H].
  destruct (attr row "correct") as [correct|] eqn:Ec; [|discriminate H].
  set (ans := default VNone (a !! (variant, qnum))) in *.
  set (ok := if is_mcq ty then mcq_ok ans correct
             else check_numeric_answer ans correct (get row "tolerance" VNone)) in *.
  destruct (attr row "score" ≫= py_float) as [score|] eqn:Es.
  - assert (Hs : (if ok then Ok score else Ok 0%float)
                 = Ok (if ok then score else 0%float)) by (by destruct ok).
    rewrite Hs in H. injection H as <- <- <- <-. split; [done|].
    exists {| d_variant := variant; d_qnum := qnum; d_type := ty;
              d_topic := get row "topic" (VStr "");
              d_difficulty := get row "difficulty" (VStr "");
              d_correct := correct; d_your := ans; d_is_correct := ok;
              d_score := if ok then score else 0%float;
              d_max_score := score |}.
    split; [|by repeat split].
    exists variant, qnum, ty, correct, score. simpl. by repeat split.
  - clearbody ok. destruct ok; simpl in H.
    + discriminate H.
    + discriminate H.
Qed.

Lemma grade_rows_inv rs : forall t m ds a t' m' ds' a',
  grade_rows rs (t, m, ds) a = (Ok (t', m', ds'), a') ->
  a' = a ∧ ∃ new, Forall2 (graded a) rs new
    ∧ t' = sum_from t (d_score <$> new)
    ∧ m' = sum_from m (d_max_score <$> new)
    ∧ ds' = (ds ++ new)%list.
Proof.
  induction rs as [|row rs IH]; intros t m ds a t' m' ds' a' H.
  - injection H as <- <- <- <-. split; [done|]. exists [].
    rewrite app_nil_r. by repeat split.
  - cbn [grade_rows] in H. unfold exec_bind in H.
    destruct (grade_row row (t, m, ds) a) as [[[[t1 m1] ds1]|e] a1] eqn:E1;
      [|discriminate H].
    apply grade_row_inv in E1 as (-> & d & Hd & -> & -> & ->).
    apply IH in H as (-> & new & Hnew & -> & -> & ->).
    split; [done|]. exists (d :: new). rewrite <- app_assoc.
    repeat split; try done. by constructor.
Qed.

Lemma grade_exam_inv bank a t m ds a' :
  grade_exam bank a = (Ok (t, m, ds), a') ->
  a' = a ∧ Forall2 (graded a) (rows bank) ds
  ∧ t = sum_from 0 (d_score <$> ds)
  ∧ m = sum_from 0 (d_max_score <$> ds).
Proof.
  intros H. apply grade_rows_inv in H as (-> & new & Hnew & -> & -> & ->).
  by repeat split.
Qed.

Lemma grade_row_gradable row acc a :
  gradable row -> ∃ acc', grade_row row acc a = (Ok acc', a).
Proof.
  intros (variant & qnum & ty & correct & score & Hv & Hq & Ht & Hc & Hs).
  destruct acc as [[t m] ds].
  unfold grade_row, exec_bind, lift, answers_get, exec_ret.
  rewrite Hv, Hq, Ht, Hc, Hs.
  match goal with |- context [if ?b then Ok score else _] => destruct b end;
    eauto.
Qed.

Lemma grade_rows_gradable rs : forall acc a,
  Forall gradable rs -> ∃ acc', grade_rows rs acc a = (Ok acc', a).
Proof.
  induction rs as [|row rs IH]; intros acc a Hall.
  - by exists acc.
  - inversion Hall as [|? ? Hrow Hrest]; subst. cbn [grade_rows]. unfold exec_bind.
    destruct (grade_row_gradable row acc a Hrow) as [acc1 ->].
    apply IH, Hrest.
Qed.

(** The store is left as it was whatever happens, also when a row raises. *)
Lemma grade_row_store row acc a : (grade_row row acc a).2 = a.
Proof.
  destruct acc as [[t m] ds].
  unfold grade_row, exec_bind, lift, answers_get, exec_ret.
  repeat match goal with
  | |- context [match ?x with _ => _ end] => destruct x; simpl; try done
  end.
Qed.

Lemma grade_rows_store rs : forall acc a, (grade_rows rs acc a).2 = a.
Proof.
  induction rs as [|row rs IH]; intros acc a; [done|].
  cbn [grade_rows]. unfold exec_bind.
  pose proof (grade_row_store row acc a) as Hs.
  destruct (grade_row row acc a) as [[acc1|e] a1]; simpl in Hs; subst; [|done].
  apply IH.
Qed.
End GradingFacts.

(** ** Text *)

Lemma lstrip_map g s :
  (forall c, is_space (g c) = is_space c) ->
  lstrip (map_string g s) = map_string g (lstrip s).
Proof.
  intros Hg. induction s as [|c s IH]; [done|].
  cbn [map_string lstrip]. rewrite Hg. by destruct (is_space c).
Qed.

Lemma rstrip_map g s :
  (forall c, is_space (g c) = is_space c) ->
  rstrip (map_string g s) = map_string g (rstrip s).
Proof.
  intros Hg. induction s as [|c s IH]; [done|].
  cbn [map_string rstrip]. rewrite IH, Hg.
  destruct (rstrip s); cbn [map_string]; [|done]. by destruct (is_space c).
Qed.

Lemma strip_map g s :
  (forall c, is_space (g c) = is_space c) ->
  strip (map_string g s) = map_string g (strip s).
Proof.
  intros Hg. unfold strip. by rewrite lstrip_map, rstrip_map.
Qed.

Lemma map_string_empty g s : map_string g s = "" <-> s = "".
Proof. by destruct s. Qed.

Lemma comma_to_point_space c :
  is_space (if Ascii.eqb c "," then "."%char else c) = is_space c.
Proof.
  destruct (Ascii.eqb c ",") eqn:E; [|done].
  apply Ascii.eqb_eq in E. by subst.
Qed.

Lemma strip_replace_empty s :
  String.eqb (strip (replace_char "," "." s)) "" = String.eqb (strip s) "".
Proof.
  unfold replace_char. rewrite strip_map by apply comma_to_point_space.
  destruct (strip s); done.
Qed.

Lemma replace_char_idem s :
  replace_char "," "." (replace_char "," "." s) = replace_char "," "." s.
Proof.
  unfold replace_char. induction s as [|c s IH]; [done|].
  cbn [map_string]. rewrite IH. f_equal.
  destruct (Ascii.eqb c ",") eqn:E; [reflexivity|]. by rewrite E.
Qed.

Lemma char_code_inj a b : char_code a = char_code b -> a = b.
Proof.
  unfold char_code. intros H. apply N2Z.inj in H.
  rewrite <- (ascii_N_embedding a), <- (ascii_N_embedding b). by rewrite H.
Qed.

Lemma char_code_upper_char a :
  char_code (upper_char a)
  = if is_lower a then (char_code a - 32)%Z else char_code a.
Proof.
  unfold upper_char. destruct (is_lower a) eqn:E; [|done].
  unfold char_code. rewrite N_ascii_embedding.
  - unfold is_lower in E. lia.
  - pose proof (N_ascii_bounded a). lia.
Qed.

Lemma upper_char_same_letter a b :
  upper_char a = upper_char b <-> same_letter a b.
Proof.
  pose proof (char_code_upper_char a) as Ha.
  pose proof (char_code_upper_char b) as Hb.
  assert (La : is_lower a = true <-> (97 <= char_code a <= 122)%Z)
    by (unfold is_lower, char_code; lia).
  assert (Lb : is_lower b = true <-> (97 <= char_code b <= 122)%Z)
    by (unfold is_lower, char_code; lia).
  split.
  - intros H. rewrite H in Ha. rewrite Ha in Hb. clear H Ha.
    unfold same_letter.
    destruct (is_lower a) eqn:Ea, (is_lower b) eqn:Eb.
    + left. apply char_code_inj. lia.
    + right. left. split; [by apply La|lia].
    + right. right. split; [by apply Lb|lia].
    + left. by apply char_code_inj.
  - intros [-> | [[Hr He] | [Hr He]]]; [done| |];
      apply char_code_inj; rewrite Ha, Hb.
    + assert (is_lower a = true) as -> by (by apply La).
      assert (is_lower b = false) as ->
        by (apply not_true_is_false; rewrite Lb; lia).
      lia.
    + assert (is_lower b = true) as -> by (by apply Lb).
      assert (is_lower a = false) as ->
        by (apply not_true_is_false; rewrite La; lia).
      lia.
Qed.

(** On the model's [upper], equality after [upper()] is equality up to the
    case of the letters a-z. *)
Lemma upper_equal_ignoring_case s : forall t,
  upper s = upper t <-> equal_ignoring_case s t.
Proof.
  unfold equal_ignoring_case, upper.
  induction s as [|a s IH]; intros [|b t]; cbn.
  - split; [constructor|done].
  - split; [discriminate|inversion 1].
  - split; [discriminate|inversion 1].
  - split.
    + intros [= Hc Hs].
      constructor; [by apply upper_char_same_letter|by apply IH].
    + inversion 1; subst.
      f_equal; [by apply upper_char_same_letter|by apply IH].
Qed.

Section GradingClaims.
Context `{B : Builtins}.

Lemma grade_exam_row bank a t m ds a' i row :
  grade_exam bank a = (Ok (t, m, ds), a') ->
  rows bank !! i = Some row ->
  ∃ d, ds !! i = Some d ∧ graded a row d.
Proof.
  intros H Hi. apply grade_exam_inv in H as (_ & Hall & _ & _).
  by eapply Forall2_lookup_l.
Qed.

Lemma grade_exam_returns bank a :
  Forall gradable (rows bank) ->
  ∃ t m ds, grade_exam bank a = (Ok (t, m, ds), a).
Proof.
  intros Hall. unfold grade_exam.
  destruct (grade_rows_gradable (rows bank) (0%float, 0%float, []) a Hall)
    as [[[t m] ds] ->].
  by exists t, m, ds.
Qed.

(** C3.  For a multiple-choice row answered with an ASCII text [letter]
    against a stored correct value whose text is ASCII (the letters A to D
    of a bank are), the record [grade_exam] appends is marked correct
    exactly when the two texts are equal case-normalized: of the same
    length and, character by character, the same up to the case of a
    letter.  So against a stored "B" the answers "b" and "B" are both
    marked correct, and two answers that differ in case only are marked
    alike. *)
Theorem mcq_case_insensitive bank a t m ds a' i row variant qnum ty correct letter :
  grade_exam bank a = (Ok (t, m, ds), a') ->
  rows bank !! i = Some row ->
  attr row "variant" ≫= py_int = Ok variant ->
  attr row "qnum" ≫= py_int = Ok qnum ->
  attr row "type" = Ok ty ->
  attr row "correct" = Ok correct ->
  is_mcq ty = true ->
  a !! (variant, qnum) = Some (VStr letter) ->
  is_ascii letter = true ->
  is_ascii (py_str correct) = true ->
  ∃ d, ds !! i = Some d
    ∧ d_your d = VStr letter
    ∧ (d_is_correct d = true <-> equal_ignoring_case letter (py_str correct))
    ∧ (correct = VStr "B" -> letter = "b" ∨ letter = "B" -> d_is_correct d = true)
    ∧ (forall other a2 t2 m2 ds2 a2',
         is_ascii other = true ->
         equal_ignoring_case other letter ->
         a2 !! (variant, qnum) = Some (VStr other) ->
         grade_exam bank a2 = (Ok (t2, m2, ds2), a2') ->
         ∃ d2, ds2 !! i = Some d2 ∧ d_is_correct d2 = d_is_correct d).
Proof.
  intros H Hi Hv Hq Ht Hc Hmcq Ha _ _.
  assert (Hrow : forall b tb mb dsb b' x,
    grade_exam bank b = (Ok (tb, mb, dsb), b') ->
    b !! (variant, qnum) = Some (VStr x) ->
    ∃ d, dsb !! i = Some d ∧ d_your d = VStr x
      ∧ d_is_correct d = String.eqb (upper x) (upper (py_str correct))).
  { intros b tb mb dsb b' x Hb Hx.
    destruct (grade_exam_row _ _ _ _ _ _ _ _ Hb Hi) as (d & Hd & Hg).
    destruct Hg as (v' & q' & ty' & c' & sc & (Hv' & Hq' & Ht' & Hc' & _) & _ & _ & _
                    & _ & _ & _ & Hyour & Hok & _).
    rewrite Hv in Hv'. rewrite Hq in Hq'. rewrite Ht in Ht'. rewrite Hc in Hc'.
    injection Hv' as <-. injection Hq' as <-. injection Ht' as <-. injection Hc' as <-.
    rewrite Hx in Hyour. simpl in Hyour.
    rewrite Hmcq, Hyour in Hok. unfold mcq_ok in Hok. cbn [py_str] in Hok.
    by exists d. }
  destruct (Hrow _ _ _ _ _ _ H Ha) as (d & Hd & Hyour & Hok).
  exists d. split; [done|]. split; [done|]. split; [|split].
  - rewrite Hok, String.eqb_eq. apply upper_equal_ignoring_case.
  - intros -> Hl. rewrite Hok. by destruct Hl as [-> | ->].
  - intros other a2 t2 m2 ds2 a2' _ Heq Ha2 H2.
    destruct (Hrow _ _ _ _ _ _ H2 Ha2) as (d2 & Hd2 & _ & Hok2).
    exists d2. split; [done|]. rewrite Hok, Hok2.
    apply upper_equal_ignoring_case in Heq. by rewrite Heq.
Qed.

(** C10.  The row of a multiple-choice question without an entry in the
    answer map is compared through the text of [None]: it is marked correct
    exactly when the stored correct value reads "NONE" after [upper()].
    With a stored letter A to D it is marked incorrect; with the stored
    text "None" it is marked correct and earns the score. *)
Theorem mcq_absent_answer_compared_as_none bank a t m ds a' i row variant qnum ty correct :
  grade_exam bank a = (Ok (t, m, ds), a') ->
  rows bank !! i = Some row ->
  attr row "variant" ≫= py_int = Ok variant ->
  attr row "qnum" ≫= py_int = Ok qnum ->
  attr row "type" = Ok ty ->
  attr row "correct" = Ok correct ->
  is_mcq ty = true ->
  a !! (variant, qnum) = None ->
  ∃ d, ds !! i = Some d
    ∧ d_your d = VNone
    ∧ (d_is_correct d = true <-> upper (py_str correct) = "NONE")
    ∧ (correct ∈ [VStr "A"; VStr "B"; VStr "C"; VStr "D"] -> d_is_correct d = false)
    ∧ (correct = VStr "None" -> d_is_correct d = true ∧ d_score d = d_max_score d).
Proof.
  intros H Hi Hv Hq Ht Hc Hmcq Ha.
  destruct (grade_exam_row _ _ _ _ _ _ _ _ H Hi) as (d & Hd & Hg).
  destruct Hg as (v' & q' & ty' & c' & sc & (Hv' & Hq' & Ht' & Hc' & _) & _ & _ & _
                  & _ & _ & _ & Hyour & Hok & Hsc & Hmax).
  rewrite Hv in Hv'. rewrite Hq in Hq'. rewrite Ht in Ht'. rewrite Hc in Hc'.
  injection Hv' as <-. injection Hq' as <-. injection Ht' as <-. injection Hc' as <-.
  rewrite Ha in Hyour. simpl in Hyour.
  rewrite Hmcq, Hyour in Hok. unfold mcq_ok in Hok. cbn [py_str] in Hok.
  exists d. split; [done|]. split; [done|]. split; [|split].
  - rewrite Hok. change (upper "None") with "NONE".
    rewrite String.eqb_eq. split; congruence.
  - intros Hin. rewrite Hok.
    repeat (apply elem_of_cons in Hin as [-> | Hin]; [done|]).
    by apply elem_of_nil in Hin.
  - intros ->. assert (Ht' : d_is_correct d = true) by (by rewrite Hok).
    split; [done|]. by rewrite Hsc, Hmax, Ht'.
Qed.

(** C9.  [grade_exam] leaves the answer map as it received it, whether it
    returns or raises, and a second call on the same bank and map gives
    the same total, maximum and detail table. *)
Theorem grade_exam_pure bank a :
  (grade_exam bank a).2 = a
  ∧ (grade_exam bank (grade_exam bank a).2).1 = (grade_exam bank a).1.
Proof.
  assert (Hs : (grade_exam bank a).2 = a) by apply grade_rows_store.
  split; [done|]. by rewrite Hs.
Qed.

End GradingClaims.


(** ** Runs on the example banks *)

Lemma mcq_case_insensitive_witness :
  ∃ t m ds a',
    grade_exam example_mcq_bank {[ (1, 1) := VStr "b" ]} = (Ok (t, m, ds), a')
    ∧ ∃ d, ds !! 0%nat = Some d
        ∧ d_your d = VStr "b"
        ∧ (d_is_correct d = true <-> equal_ignoring_case "b" (py_str (VStr "B")))
        ∧ (VStr "B" = VStr "B" -> "b" = "b" ∨ "b" = "B" -> d_is_correct d = true)
        ∧ (forall other a2 t2 m2 ds2 a2',
             is_ascii other = true ->
             equal_ignoring_case other "b" ->
             a2 !! (1, 1) = Some (VStr other) ->
             grade_exam example_mcq_bank a2 = (Ok (t2, m2, ds2), a2') ->
             ∃ d2, ds2 !! 0%nat = Some d2 ∧ d_is_correct d2 = d_is_correct d).
Proof.
  eexists _, _, _, _. split; [vm_compute; reflexivity|].
  eapply (mcq_case_insensitive example_mcq_bank {[ (1, 1) := VStr "b" ]}
            _ _ _ _ 0%nat example_mcq_row 1 1 (VStr "mcq") (VStr "B") "b");
    vm_compute; reflexivity.
Defined.

Lemma mcq_absent_answer_compared_as_none_witness :
  ∃ t m ds a',
    grade_exam none_bank ∅ = (Ok (t, m, ds), a')
    ∧ ∃ d, ds !! 0%nat = Some d
        ∧ d_your d = VNone
        ∧ (d_is_correct d = true <-> upper (py_str (VStr "None")) = "NONE")
        ∧ (VStr "None" ∈ [VStr "A"; VStr "B"; VStr "C"; VStr "D"] ->
           d_is_correct d = false)
        ∧ (VStr "None" = VStr "None" ->
           d_is_correct d = true ∧ d_score d = d_max_score d).
Proof.
  eexists _, _, _, _. split; [vm_compute; reflexivity|].
  eapply (mcq_absent_answer_compared_as_none none_bank ∅
            _ _ _ _ 0%nat none_row 1 1 (VStr "mcq") (VStr "None"));
    vm_compute; reflexivity.
Defined.

(** C5.  On a bank whose one multiple-choice row stores the correct value
    "None", and with an empty answer map, [grade_exam] marks the unanswered
    question correct and awards its score. *)
Theorem absent_answer_graded_correct :
  grade_exam none_bank ∅
  = (Ok (1%float, 1%float,
         [ {| d_variant := 1; d_qnum := 1; d_type := VStr "mcq";
              d_topic := VStr ""; d_difficulty := VStr "";
              d_correct := VStr "None"; d_your := VNone;
              d_is_correct := true; d_score := 1%float;
              d_max_score := 1%float |} ]), ∅).
Proof. vm_compute. reflexivity. Qed.

(** ** Bank loader *)

(** C1.  For the file [bank.csv] whose [variant] cell reads "abc", the
    conversion raises [ValueError] out of [load_bank_from_upload]: nothing
    is written on the page, and the import block ends with the exception
    instead of going on with the demo bank. *)
Theorem coercion_failure_not_caught :
  load_bank_from_upload (Some text_variant_upload) [] = (Raise ValueError, [])
  ∧ sidebar_import (Some text_variant_upload) [] = (Raise ValueError, []).
Proof. split; vm_compute; reflexivity. Qed.

(** The two failures the loader does handle: it writes the error and
    returns [None], and the import block goes on with the demo bank. *)
Lemma handled_failures_fall_back :
  sidebar_import (Some unreadable_upload) []
  = (Ok DemoBank, [ErrorRead ParserError; InfoDemo])
  ∧ sidebar_import (Some no_score_upload) []
    = (Ok DemoBank, [ErrorMissing "score"; InfoDemo]).
Proof. split; vm_compute; reflexivity. Qed.

Section LoaderFacts.
Context `{B : Builtins}.

(** Whatever the file, once it is read and has the required columns, a
    failed conversion of [variant] is the outcome of the loader and of the
    import block. *)
Lemma load_bank_coercion_raises up df e page :
  endswith (lower (name up)) ".csv" = true ->
  read_csv up = Ok df ->
  filter (fun c => negb (mem_string c (columns df))) required = [] ->
  astype_int "variant" df = Raise e ->
  load_bank_from_upload (Some up) page = (Raise e, page)
  ∧ sidebar_import (Some up) page = (Raise e, page).
Proof.
  intros Hcsv Hread Hmiss Hconv.
  assert (H : load_bank_from_upload (Some up) page = (Raise e, page)).
  { unfold load_bank_from_upload. rewrite Hcsv, Hread, Hmiss.
    unfold exec_bind, lift. by rewrite Hconv. }
  split; [done|]. unfold sidebar_import, exec_bind. by rewrite H.
Qed.
End LoaderFacts.

(** ** Timer *)

(** C7.  In a run of the controls with no button pressed (or only the save
    button), a started session is shown the remaining time
    [max(duration - elapsed, 0)]; once the elapsed time has reached the 100
    minutes the run leaves the session submitted, the remaining time shown
    is zero, and the session is still submitted after the reruns. *)
Theorem timer_expiry ck now v ss t0 :
  ck = NoClick ∨ ck = ClickSave ->
  started ss = true ->
  start_time ss = Some t0 ->
  ∃ out, controls ck now v ss = Ok out
    ∧ remain out = Some (Z.max (timedelta_minutes EXAM_DURATION_MIN - (now - t0)) 0)
    ∧ (timedelta_minutes EXAM_DURATION_MIN <= now - t0 ->
       submitted (session out) = true
       ∧ remain out = Some 0
       ∧ clock out = Some (0, 0)
       ∧ answers (session out) = answers ss
       ∧ forall later,
           ∃ ss', evaluate ck (now :: later) v ss = Ok ss' ∧ submitted ss' = true).
Proof.
  intros Hck Hst Ht0.
  assert (Hc : controls ck now v ss
    = let rem := Z.max (timedelta_minutes EXAM_DURATION_MIN - (now - t0)) 0 in
      let shown := Some (rem / 60000000, (rem / 1000000) mod 60) in
      if (rem <=? 0)%Z && negb (submitted ss) then
        Ok {| session := {| started := started ss; submitted := true;
                            start_time := start_time ss; answers := answers ss;
                            active_variant := active_variant ss |};
              remain := Some rem; clock := shown;
              written := [WarningExpired]; rerun := true |}
      else Ok {| session := ss; remain := Some rem; clock := shown;
                 written := []; rerun := false |}).
  { unfold controls. rewrite Hst, Ht0.
    destruct Hck as [-> | ->]; by rewrite !andb_false_r. }
  cbv zeta in Hc.
  set (rem := Z.max (timedelta_minutes EXAM_DURATION_MIN - (now - t0)) 0) in *.
  destruct ((rem <=? 0)%Z && negb (submitted ss)) eqn:Hexp.
  - eexists. split; [exact Hc|]. split; [done|]. intros Hlate.
    assert (Hrem : rem = 0) by (unfold rem; lia).
    cbn [session remain clock submitted answers]. rewrite Hrem.
    split; [done|]. split; [done|]. split; [done|]. split; [done|].
    intros later. cbn [evaluate]. rewrite Hc. cbn [rerun session].
    destruct later as [|now2 later]; [by eexists|].
    cbn [evaluate]. unfold controls. cbn [started submitted start_time].
    rewrite Hst, Ht0. cbn [negb andb orb]. rewrite !andb_false_r. cbn [rerun session].
    eexists. split; [reflexivity|]. done.
  - eexists. split; [exact Hc|]. split; [done|]. intros Hlate.
    assert (Hrem : rem = 0) by (unfold rem; lia).
    rewrite Hrem in Hexp. cbn in Hexp.
    assert (Hsub : submitted ss = true) by (by destruct (submitted ss)).
    cbn [session remain clock]. rewrite Hrem.
    split; [done|]. split; [done|]. split; [done|]. split; [done|].
    intros later. cbn [evaluate]. rewrite Hc. cbn [rerun session].
    by eexists.
Qed.

Lemma timer_expiry_witness :
  let ss := {| started := true; submitted := false; start_time := Some 0;
               answers := ∅; active_variant := 1 |} in
  let now := timedelta_minutes 101 in
  ∃ out, controls NoClick now 1 ss = Ok out
    ∧ remain out = Some (Z.max (timedelta_minutes EXAM_DURATION_MIN - (now - 0)) 0)
    ∧ (timedelta_minutes EXAM_DURATION_MIN <= now - 0 ->
       submitted (session out) = true
       ∧ remain out = Some 0
       ∧ clock out = Some (0, 0)
       ∧ answers (session out) = answers ss
       ∧ forall later,
           ∃ ss', evaluate NoClick (now :: later) 1 ss = Ok ss' ∧ submitted ss' = true).
Proof.
  intros ss now.
  apply (timer_expiry NoClick now 1 ss 0); [by left | reflexivity | reflexivity].
Defined.

(** ** Demo bank *)

Section DemoBankFacts.
Context `{B : Builtins} `{R : RandomModule}.

(** C8.  [generate_demo_bank(seed)] gives the same outcome, the same bank
    cell for cell, from whatever state the two generators are in when it
    is called; in particular a second call, made in the state the first
    one leaves, gives what the first gave. *)
Theorem generate_demo_bank_deterministic seed g g' :
  (generate_demo_bank seed g).1 = (generate_demo_bank seed g').1
  ∧ (generate_demo_bank seed (generate_demo_bank seed g).2).1
    = (generate_demo_bank seed g).1.
Proof.
  assert (H : forall g1 g2,
    (generate_demo_bank seed g1).1 = (generate_demo_bank seed g2).1).
  { intros g1 g2.
    unfold generate_demo_bank, exec_bind, random_seed, np_random_seed.
    by destruct ((0 <=? seed) && (seed <? 2 ^ 32))%Z. }
  split; [apply H|apply H].
Qed.
End DemoBankFacts.

(** ** Tolerance and totals *)

Lemma leb_refl_nonneg x : PrimFloat.leb 0 x = true -> PrimFloat.leb x x = true.
Proof.
  intros H. apply leb_zero_nonneg in H. rewrite leb_spec.
  apply SFleb_mag; [apply Prim2SF_valid..|done|done|lia].
Qed.

Lemma leb_nan_r x : PrimFloat.leb x PrimFloat.nan = false.
Proof. rewrite leb_spec. by destruct (Prim2SF x). Qed.

Section ToleranceAndTotals.
Context `{B : Builtins}.

Lemma check_numeric_answer_parsed user_text correct_value tolerance u c :
  strip user_text ≠ "" ->
  float_of_str (replace_char "," "." user_text) = Some u ->
  py_float correct_value = Ok c ->
  check_numeric_answer (VStr user_text) correct_value tolerance
  = match (if tolerance_missing tolerance then Ok 0%float else py_float tolerance) with
    | Ok t => PrimFloat.leb (PrimFloat.abs (PrimFloat.sub u c)) t
    | Raise _ => false
    end.
Proof.
  intros Hs Hu Hc. unfold check_numeric_answer, check_numeric_body.
  cbn [py_str is_none orb py_float]. apply String.eqb_neq in Hs.
  rewrite Hs, Hu, Hc. cbn.
  by destruct (if tolerance_missing tolerance then Ok 0%float else py_float tolerance).
Qed.

(** C2, as the code has it.  With [t] the tolerance in force, 0 when the
    tolerance is [None], the empty string or [np.nan], the parsed answer
    [u] is graded correct exactly when the double [abs(u - c)] is at most
    [t].  An answer whose exact deviation from [c] is at most [t], the
    boundary [c + t] included, is graded correct. *)
Theorem numeric_tolerance user_text correct_value tolerance u c t :
  strip user_text ≠ "" ->
  float_of_str (replace_char "," "." user_text) = Some u ->
  py_float correct_value = Ok c ->
  (tolerance = VNone ∨ tolerance = VStr "" ∨ tolerance = VNpNan) ∧ t = 0%float
  ∨ tolerance_missing tolerance = false ∧ py_float tolerance = Ok t ->
  check_numeric_answer (VStr user_text) correct_value tolerance
  = PrimFloat.leb (PrimFloat.abs (PrimFloat.sub u c)) t
  ∧ forall qu qc qt,
      quanta u = Some qu -> quanta c = Some qc -> quanta t = Some qt ->
      (Z.abs (qu - qc) <= qt)%Z ->
      check_numeric_answer (VStr user_text) correct_value tolerance = true.
Proof.
  intros Hs Hu Hc Ht.
  assert (H : check_numeric_answer (VStr user_text) correct_value tolerance
              = PrimFloat.leb (PrimFloat.abs (PrimFloat.sub u c)) t).
  { rewrite (check_numeric_answer_parsed _ _ _ u c) by done.
    destruct Ht as [[Hm ->] | [Hm Hpt]].
    - by destruct Hm as [-> | [-> | ->]].
    - by rewrite Hm, Hpt. }
  split; [done|]. intros qu qc qt Hqu Hqc Hqt Hle. rewrite H.
  by eapply float_within_exact.
Qed.

(** A tolerance that holds a NaN without being the object [np.nan] is not
    taken for missing: it is the tolerance, and no answer is within it. *)
Lemma nan_tolerance_never_correct user_text correct_value :
  check_numeric_answer user_text correct_value (VFloat PrimFloat.nan) = false.
Proof.
  unfold check_numeric_answer, check_numeric_body.
  destruct (is_none user_text || String.eqb (strip (py_str user_text)) ""); [done|].
  destruct (py_float (VStr _)); [|done]. cbn.
  destruct (py_float correct_value); [|done]. cbn. apply leb_nan_r.
Qed.

(** The totals of the loop, for scores that are not negative. *)
Lemma totals_ordered ds : forall t m,
  PrimFloat.leb 0 t = true -> PrimFloat.leb t m = true ->
  Forall (fun d => PrimFloat.leb 0 (d_max_score d) = true
                   ∧ d_score d = if d_is_correct d then d_max_score d else 0%float) ds ->
  PrimFloat.leb (sum_from t (d_score <$> ds)) (sum_from m (d_max_score <$> ds)) = true.
Proof.
  induction ds as [|d ds IH]; intros t m Ht Htm Hall; [done|].
  inversion Hall as [|? ? [Hd Hs] Hrest]; subst. cbn [fmap list_fmap sum_from fold_left].
  assert (Hs0 : PrimFloat.leb 0 (d_score d) = true
                ∧ PrimFloat.leb (d_score d) (d_max_score d) = true).
  { rewrite Hs. destruct (d_is_correct d); [|done].
    split; [done|]. by apply leb_refl_nonneg. }
  destruct Hs0 as [Hs0 Hs1].
  destruct (float_add_le_mono t m (d_score d) (d_max_score d)) as [H0 H1]; try done.
  by apply IH.
Qed.

Lemma graded_score_functional a1 a2 row d1 d2 :
  graded a1 row d1 -> graded a2 row d2 -> d_max_score d1 = d_max_score d2.
Proof.
  intros (v1 & q1 & ty1 & c1 & s1 & (_ & _ & _ & _ & Hs1) & _ & _ & _ & _ & _ & _ & _ & _ & _ & E1)
         (v2 & q2 & ty2 & c2 & s2 & (_ & _ & _ & _ & Hs2) & _ & _ & _ & _ & _ & _ & _ & _ & _ & E2).
  rewrite E1, E2. congruence.
Qed.

Lemma graded_scores_functional a1 a2 rs : forall ds1 ds2,
  Forall2 (graded a1) rs ds1 -> Forall2 (graded a2) rs ds2 ->
  d_max_score <$> ds1 = d_max_score <$> ds2.
Proof.
  induction rs as [|row rs IH]; intros ds1 ds2 H1 H2;
    inversion H1; inversion H2; subst; [done|].
  cbn. f_equal; [by eapply graded_score_functional | by apply IH].
Qed.

(** C6, as the code has it.  The maximum returned by [grade_exam] is the
    sum of [float(score)] over the rows of the bank, accumulated in order
    from 0.0, and it is the maximum returned for every other answer map;
    when no score is negative the total is at most the maximum. *)
Theorem score_conservation bank a t m ds a' :
  grade_exam bank a = (Ok (t, m, ds), a') ->
  ∃ scores,
    Forall2 (fun row sc => attr row "score" ≫= py_float = Ok sc) (rows bank) scores
    ∧ m = sum_from 0 scores
    ∧ (forall a2, ∃ t2 ds2, grade_exam bank a2 = (Ok (t2, m, ds2), a2))
    ∧ (Forall (fun sc => PrimFloat.leb 0 sc = true) scores ->
       PrimFloat.leb t m = true).
Proof.
  intros H. apply grade_exam_inv in H as (-> & Hall & -> & ->).
  exists (d_max_score <$> ds). split; [|split; [done|split]].
  - apply Forall2_fmap_r. eapply Forall2_impl; [exact Hall|].
    intros row d (v & q & ty & c & s & (_ & _ & _ & _ & Hs) & _ & _ & _ & _ & _ & _ & _ & _ & _ & E).
    unfold compose. by rewrite E.
  - intros a2.
    assert (Hg : Forall gradable (rows bank)).
    { apply Forall_forall. intros row Hin.
      apply list_elem_of_lookup in Hin as [i Hi].
      destruct (Forall2_lookup_l _ _ _ _ _ Hall Hi) as (d & _ & v & q & ty & c & s & Hr & _).
      by exists v, q, ty, c, s. }
    destruct (grade_exam_returns bank a2 Hg) as (t2 & m2 & ds2 & H2).
    exists t2, ds2. rewrite H2.
    apply grade_exam_inv in H2 as (_ & Hall2 & _ & ->).
    by rewrite (graded_scores_functional a2 a (rows bank) ds2 ds Hall2 Hall).
  - intros Hpos. apply totals_ordered; [done..|].
    apply Forall_forall. intros d Hin.
    apply list_elem_of_lookup in Hin as [i Hi].
    destruct (Forall2_lookup_r _ _ _ _ _ Hall Hi) as (row & _ & v & q & ty & c & s & _ & _ & _ & _ & _ & _ & _ & _ & _ & Hsc & Hmx).
    split.
    + rewrite Forall_forall in Hpos. apply Hpos.
      apply list_elem_of_fmap. by exists d; split; [|apply list_elem_of_lookup; exists i].
    + by rewrite Hsc, Hmx.
Qed.
End ToleranceAndTotals.

Section AbsentAnswers.
Context `{B : Builtins}.

(** Where the absent answer is graded as the specification says: on a
    numeric row, and on a multiple-choice row whose stored correct value
    does not read "NONE". *)
Lemma absent_answer_incorrect bank a t m ds a' i row variant qnum ty correct score :
  grade_exam bank a = (Ok (t, m, ds), a') ->
  rows bank !! i = Some row ->
  row_reads row variant qnum ty correct score ->
  a !! (variant, qnum) = None ->
  is_mcq ty = false ∨ upper (py_str correct) ≠ "NONE" ->
  ∃ d, ds !! i = Some d
    ∧ d_is_correct d = false ∧ d_score d = 0%float ∧ d_max_score d = score.
Proof.
  intros H Hi (Hv & Hq & Ht & Hc & Hs) Ha Hcase.
  destruct (grade_exam_row _ _ _ _ _ _ _ _ H Hi) as (d & Hd & Hg).
  destruct Hg as (v' & q' & ty' & c' & sc & (Hv' & Hq' & Ht' & Hc' & Hs') & _ & _ & _
                  & _ & _ & _ & Hyour & Hok & Hsc & Hmax).
  rewrite Hv in Hv'. rewrite Hq in Hq'. rewrite Ht in Ht'. rewrite Hc in Hc'.
  rewrite Hs in Hs'.
  injection Hv' as <-. injection Hq' as <-. injection Ht' as <-. injection Hc' as <-.
  injection Hs' as <-.
  rewrite Ha in Hyour. cbn in Hyour. rewrite Hyour in Hok.
  assert (Hf : d_is_correct d = false).
  { rewrite Hok. destruct (is_mcq ty) eqn:Em.
    - destruct Hcase as [|Hne]; [done|]. unfold mcq_ok. cbn [py_str].
      change (upper "None") with "NONE". apply String.eqb_neq. congruence.
    - done. }
  exists d. rewrite Hsc, Hf. by repeat split.
Qed.
End AbsentAnswers.

(** ** Runs on the example rows *)

(** The three examples of the specification. *)
Lemma specification_examples :
  mcq_ok (VStr "b") (VStr "B") = true
  ∧ check_numeric_answer (VStr "118") (VFloat 113.1) (VFloat 5.66) = true
  ∧ check_numeric_answer (VStr "120") (VFloat 113.1) (VFloat 5.66) = false.
Proof. repeat split; vm_compute; reflexivity. Qed.

Lemma numeric_tolerance_witness :
  check_numeric_answer (VStr "118") (VFloat 113.1) (VFloat 5.66)
  = PrimFloat.leb (PrimFloat.abs (PrimFloat.sub 118 113.1)) 5.66
  ∧ forall qu qc qt,
      quanta 118 = Some qu -> quanta 113.1 = Some qc -> quanta 5.66 = Some qt ->
      (Z.abs (qu - qc) <= qt)%Z ->
      check_numeric_answer (VStr "118") (VFloat 113.1) (VFloat 5.66) = true.
Proof.
  apply (numeric_tolerance "118" (VFloat 113.1) (VFloat 5.66) 118 113.1 5.66).
  - vm_compute. discriminate.
  - vm_compute. reflexivity.
  - reflexivity.
  - right. split; reflexivity.
Defined.

(** Two answers on which the statement of the specification fails.  The
    answer "1.1" to a question with correct value 0.1 and tolerance 1.0 is
    graded correct although its double is further from the double of 0.1
    than 1.0: the excess is lost when the difference is rounded.  The
    answer "118.76" to the question with correct value 113.1 and tolerance
    5.66 is graded incorrect although 113.1 + 5.66 = 118.76 in decimals:
    the double of 118.76 is above the sum of the two doubles. *)
Lemma numeric_tolerance_counterexample :
  (∃ u qu qc qt,
     float_of_str "1.1" = Some u
     ∧ quanta u = Some qu ∧ quanta 0.1 = Some qc ∧ quanta 1 = Some qt
     ∧ (qt < Z.abs (qu - qc))%Z
     ∧ check_numeric_answer (VStr "1.1") (VFloat 0.1) (VFloat 1) = true)
  ∧ check_numeric_answer (VStr "118.76") (VFloat 113.1) (VFloat 5.66) = false.
Proof.
  split; [|vm_compute; reflexivity].
  eexists _, _, _, _.
  split; [vm_compute; reflexivity|].
  split; [vm_compute; reflexivity|].
  split; [vm_compute; reflexivity|].
  split; [vm_compute; reflexivity|].
  split; vm_compute; reflexivity.
Qed.

Lemma score_conservation_witness :
  ∃ t m ds a',
    grade_exam example_mcq_bank {[ (1, 1) := VStr "b" ]} = (Ok (t, m, ds), a')
    ∧ ∃ scores,
        Forall2 (fun row sc => attr row "score" ≫= py_float = Ok sc)
                (rows example_mcq_bank) scores
        ∧ m = sum_from 0 scores
        ∧ (forall a2, ∃ t2 ds2, grade_exam example_mcq_bank a2 = (Ok (t2, m, ds2), a2))
        ∧ (Forall (fun sc => PrimFloat.leb 0 sc = true) scores ->
           PrimFloat.leb t m = true).
Proof.
  eexists _, _, _, _. split; [vm_compute; reflexivity|].
  eapply (score_conservation example_mcq_bank {[ (1, 1) := VStr "b" ]}).
  vm_compute. reflexivity.
Defined.

(** On the bank with a score of -1 and no answer the total is 0.0 and the
    maximum is -1.0. *)
Lemma score_conservation_counterexample :
  ∃ ds,
    grade_exam penalty_bank ∅ = (Ok (0%float, (-1)%float, ds), ∅)
    ∧ PrimFloat.leb 0 (-1) = false.
Proof. eexists. split; vm_compute; reflexivity. Qed.

(** ** Generation goes through *)

Lemma list_index_elem l x :
  x ∈ l -> ∃ i, list_index l x = Ok i ∧ (0 <= i < Z.of_nat (length l))%Z.
Proof.
  induction l as [|y l IH]; intros Hin; [by apply elem_of_nil in Hin|].
  cbn [list_index length]. destruct (Z.eqb_spec y x) as [->|Hne].
  - exists 0%Z. split; [done|lia].
  - apply elem_of_cons in Hin as [->|Hin]; [done|].
    destruct (IH Hin) as (i & -> & Hi). exists (i + 1)%Z. split; [done|lia].
Qed.

Lemma index_list_in_range {A} (l : list A) i :
  (0 <= i < Z.of_nat (length l))%Z -> ∃ a, index_list l i = Ok a.
Proof.
  intros Hi. unfold index_list.
  destruct (lookup_lt_is_Some_2 l (Z.to_nat i) ltac:(lia)) as [a ->].
  exists a. by destruct (Z.leb_spec 0 i); [|lia].
Qed.

Lemma float_of_Z_radius r : (2 <= r <= 12)%Z -> ∃ f, float_of_Z r = Ok f.
Proof.
  intros Hr.
  assert (Hc : r ∈ seqZ 2 11) by (apply elem_of_seqZ; lia).
  vm_compute seqZ in Hc.
  repeat (apply elem_of_cons in Hc as [-> | Hc]; [by eexists|]).
  by apply elem_of_nil in Hc.
Qed.

Section GenerationTotal.
Context `{B : Builtins} `{R : RandomModule} `{!RandomLaws}.

Lemma mcq_row_ok v q topic difficulty g :
  ∃ row g', mcq_row v q topic difficulty g = (Ok row, g').
Proof.
  unfold mcq_row, exec_bind, random_randint, random_shuffle, lift, exec_ret.
  destruct (randint 2 9 g.1) as [a g1] eqn:Ea.
  pose proof (randint_range 2 9 g.1 ltac:(lia)) as Ha. rewrite Ea in Ha.
  cbn [fst snd] in *.
  destruct (randint 0 9 g1) as [b g2] eqn:Eb. cbn [fst snd].
  destruct (randint 1 9 g2) as [x g3] eqn:Ex. cbn [fst snd].
  destruct (shuffle [x; (x + 1)%Z; (x - 1)%Z; (x + 2)%Z] g3) as [opts g4] eqn:Es.
  pose proof (shuffle_perm [x; (x + 1)%Z; (x - 1)%Z; (x + 2)%Z] g3) as Hp.
  rewrite Es in Hp. cbn [fst snd] in *.
  assert (Hlen : length opts = 4%nat) by (by rewrite Hp).
  assert (Hin : x ∈ opts) by (rewrite Hp; apply elem_of_cons; by left).
  destruct (list_index_elem opts x Hin) as (i & -> & Hi). rewrite Hlen in Hi.
  destruct (index_list_in_range ["A"; "B"; "C"; "D"] i ltac:(cbn; lia)) as [letter ->].
  destruct opts as [|o0 [|o1 [|o2 [|o3 [|]]]]]; try discriminate Hlen.
  cbn. unfold floordiv. destruct (Z.eqb_spec a 0); [lia|]. by eexists _, _.
Qed.

Lemma num_row_ok v q topic difficulty g :
  ∃ row g', num_row v q topic difficulty g = (Ok row, g').
Proof.
  unfold num_row, exec_bind, random_randint, lift, exec_ret.
  destruct (randint 2 12 g.1) as [r g1] eqn:Er.
  pose proof (randint_range 2 12 g.1 ltac:(lia)) as Hr. rewrite Er in Hr.
  cbn [fst snd] in *.
  destruct (float_of_Z_radius r Hr) as [f ->]. by eexists _, _.
Qed.

Lemma demo_row_ok vq g : ∃ row g', demo_row vq g = (Ok row, g').
Proof.
  destruct vq as [v q]. unfold demo_row, exec_bind, lift.
  destruct (index_list_in_range topics ((q - 1) mod Z.of_nat (length topics)))
    as [topic ->].
  { apply Z.mod_pos_bound. cbn. lia. }
  destruct (index_list_in_range difficulties (q mod 3)) as [difficulty ->].
  { apply (Z.mod_pos_bound q 3). lia. }
  destruct (q mod 2 =? 1)%Z; [apply mcq_row_ok | apply num_row_ok].
Qed.

Lemma demo_rows_ok vqs : forall g,
  ∃ rs g', demo_rows vqs g = (Ok rs, g') ∧ length rs = length vqs.
Proof.
  induction vqs as [|vq vqs IH]; intros g; [by eexists _, _|].
  cbn [demo_rows]. unfold exec_bind at 1.
  destruct (demo_row_ok vq g) as (row & g1 & ->).
  unfold exec_bind at 1. destruct (IH g1) as (rs & g2 & -> & Hlen).
  eexists _, _. split; [reflexivity|]. cbn. by rewrite Hlen.
Qed.

(** With a seed that [np.random.seed] accepts, draws in their ranges and a
    shuffle that permutes, [generate_demo_bank] returns a bank of 4 x 40
    rows. *)
Lemma generate_demo_bank_returns seed g :
  (0 <= seed < 2 ^ 32)%Z ->
  ∃ bank g', generate_demo_bank seed g = (Ok bank, g')
    ∧ length (rows bank) = 160%nat.
Proof.
  intros Hseed.
  unfold generate_demo_bank, exec_bind, random_seed, np_random_seed, exec_ret.
  replace ((0 <=? seed) && (seed <? 2 ^ 32))%Z with true by lia.
  cbn [fst snd].
  destruct (demo_rows_ok loop_indices (seed_rng seed, np_seed seed))
    as (rs & g' & -> & Hlen).
  eexists _, _. split; [reflexivity|]. cbn [rows frame_of]. by rewrite Hlen.
Qed.
End GenerationTotal.

Lemma constant_draws_laws : @RandomLaws constant_draws.
Proof. split; [cbn; lia | done]. Qed.

(** The laws can be met, so generation does go through for some
    generators. *)
Lemma generate_demo_bank_runs :
  ∃ bank g', @generate_demo_bank decimal_builtins constant_draws 12 (tt, tt)
             = (Ok bank, g')
    ∧ length (rows bank) = 160%nat.
Proof.
  apply (@generate_demo_bank_returns decimal_builtins constant_draws
           constant_draws_laws).
  lia.
Qed.

(** ** More on grading *)

Section GradingMore.
Context `{B : Builtins}.

Lemma graded_gradable a row d : graded a row d -> gradable row.
Proof. intros (v & q & ty & c & s & Hr & _). by exists v, q, ty, c, s. Qed.

(** X1.  [grade_exam] returns exactly on the banks all of whose rows have the
    five cells it converts: a [variant] and a [qnum] that [int] accepts, a
    [type], a [correct] and a [score] that [float] accepts.  On any other
    bank it raises. *)
Theorem grade_exam_returns_iff bank a :
  (∃ t m ds, grade_exam bank a = (Ok (t, m, ds), a))
  <-> Forall gradable (rows bank).
Proof.
  split.
  - intros (t & m & ds & H). apply grade_exam_inv in H as (_ & Hall & _ & _).
    apply Forall_forall. intros row Hin.
    apply list_elem_of_lookup in Hin as [i Hi].
    destruct (Forall2_lookup_l _ _ _ _ _ Hall Hi) as (d & _ & Hg).
    by eapply graded_gradable.
  - apply grade_exam_returns.
Qed.

(** X2.  The records [grade_exam] appends to [details], of which the table
    it returns is made, are one for each row of the bank, in the order of
    the bank.  The record of a row carries the key, type and stored correct
    value of that row and, as [your], the answer found under its key, [None]
    when there is none. *)
Theorem details_follow_rows bank a t m ds a' :
  grade_exam bank a = (Ok (t, m, ds), a') ->
  length ds = length (rows bank)
  ∧ forall i row d, rows bank !! i = Some row -> ds !! i = Some d ->
      attr row "variant" ≫= py_int = Ok (d_variant d)
      ∧ attr row "qnum" ≫= py_int = Ok (d_qnum d)
      ∧ attr row "type" = Ok (d_type d)
      ∧ attr row "correct" = Ok (d_correct d)
      ∧ d_your d = default VNone (a !! (d_variant d, d_qnum d))
      ∧ d_topic d = get row "topic" (VStr "")
      ∧ d_difficulty d = get row "difficulty" (VStr "").
Proof.
  intros H. apply grade_exam_inv in H as (_ & Hall & _ & _).
  split; [symmetry; by eapply Forall2_length|].
  intros i row d Hi Hd.
  destruct (Forall2_lookup_l _ _ _ _ _ Hall Hi) as (d' & Hd' & Hg).
  rewrite Hd in Hd'. injection Hd' as <-.
  destruct Hg as (v & q & ty & c & s & (Hv & Hq & Ht & Hc & _) & <- & <- & <- & Htop
                  & Hdif & <- & Hy & _).
  by repeat split.
Qed.

Lemma grade_row_frame row acc a1 a2 :
  (forall variant qnum,
     attr row "variant" ≫= py_int = Ok variant ->
     attr row "qnum" ≫= py_int = Ok qnum ->
     a1 !! (variant, qnum) = a2 !! (variant, qnum)) ->
  (grade_row row acc a1).1 = (grade_row row acc a2).1.
Proof.
  intros Hkey. destruct acc as [[t m] ds].
  unfold grade_row, exec_bind, lift, answers_get, exec_ret.
  destruct (attr row "variant" ≫= py_int) as [variant|]; [|done].
  destruct (attr row "qnum" ≫= py_int) as [qnum|]; [|done].
  rewrite (Hkey variant qnum) by done.
  repeat match goal with
  | |- context [match ?x with _ => _ end] => destruct x; simpl; try done
  end.
Qed.

Lemma grade_rows_frame rs : forall acc a1 a2,
  (forall row variant qnum, row ∈ rs ->
     attr row "variant" ≫= py_int = Ok variant ->
     attr row "qnum" ≫= py_int = Ok qnum ->
     a1 !! (variant, qnum) = a2 !! (variant, qnum)) ->
  (grade_rows rs acc a1).1 = (grade_rows rs acc a2).1.
Proof.
  induction rs as [|row rs IH]; intros acc a1 a2 Hkey; [done|].
  cbn [grade_rows]. unfold exec_bind.
  pose proof (grade_row_frame row acc a1 a2) as Hrow.
  pose proof (grade_row_store row acc a1) as Hs1.
  pose proof (grade_row_store row acc a2) as Hs2.
  destruct (grade_row row acc a1) as [r1 s1], (grade_row row acc a2) as [r2 s2].
  cbn [fst snd] in *. subst s1 s2.
  rewrite Hrow by (intros; apply (Hkey row); [apply elem_of_cons; by left|done..]).
  destruct r2 as [acc'|e]; [|done].
  apply IH. intros row' v q Hin. apply Hkey. apply elem_of_cons. by right.
Qed.

(** X3.  [grade_exam] looks the answer map up under the keys of the rows of the
    bank and nowhere else: two maps that agree on those keys are graded
    alike, whatever else they hold (the answers to another variant, for
    one). *)
Theorem grade_exam_reads_bank_keys bank a1 a2 :
  (forall row variant qnum, row ∈ rows bank ->
     attr row "variant" ≫= py_int = Ok variant ->
     attr row "qnum" ≫= py_int = Ok qnum ->
     a1 !! (variant, qnum) = a2 !! (variant, qnum)) ->
  (grade_exam bank a1).1 = (grade_exam bank a2).1.
Proof. apply grade_rows_frame. Qed.

(** X4.  When every row is marked correct the total is the maximum. *)
Theorem full_marks bank a t m ds a' :
  grade_exam bank a = (Ok (t, m, ds), a') ->
  Forall (fun d => d_is_correct d = true) ds ->
  t = m.
Proof.
  intros H Hall. apply grade_exam_inv in H as (_ & Hg & -> & ->).
  f_equal. apply list_eq. intros i. rewrite !list_lookup_fmap.
  destruct (ds !! i) as [d|] eqn:Hd; [|done]. cbn. f_equal.
  destruct (Forall2_lookup_r _ _ _ _ _ Hg Hd) as (row & _ & v & q & ty & c & s & _ & _ & _
    & _ & _ & _ & _ & _ & _ & Hsc & Hmx).
  rewrite Forall_forall in Hall.
  rewrite Hsc, Hmx, (Hall d); [done|]. apply list_elem_of_lookup. by exists i.
Qed.

Lemma sum_from_zeros (xs : list float) :
  Forall (fun x => x = 0%float) xs -> sum_from 0 xs = 0%float.
Proof.
  induction xs as [|x xs IH]; intros Hall; [done|].
  inversion Hall as [|? ? -> Hrest]; subst. cbn [sum_from fold_left].
  change (PrimFloat.add 0 0) with 0%float. by apply IH.
Qed.

(** X5.  With an empty answer map, on a bank none of whose multiple-choice rows
    stores a correct value reading "NONE", every row is marked incorrect
    with no answer and the total is 0.0. *)
Theorem unanswered_exam_scores_zero bank t m ds a' :
  grade_exam bank ∅ = (Ok (t, m, ds), a') ->
  (forall row ty correct, row ∈ rows bank ->
     attr row "type" = Ok ty -> attr row "correct" = Ok correct ->
     is_mcq ty = true -> upper (py_str correct) ≠ "NONE") ->
  t = 0%float
  ∧ Forall (fun d => d_your d = VNone ∧ d_is_correct d = false
                     ∧ d_score d = 0%float) ds.
Proof.
  intros H Hkeys. apply grade_exam_inv in H as (_ & Hg & -> & _).
  assert (Hall : Forall (fun d => d_your d = VNone ∧ d_is_correct d = false
                                  ∧ d_score d = 0%float) ds).
  { apply Forall_forall. intros d Hin. apply list_elem_of_lookup in Hin as [i Hd].
    destruct (Forall2_lookup_r _ _ _ _ _ Hg Hd) as (row & Hrow & v & q & ty & c & s
      & (_ & _ & Ht & Hc & _) & _ & _ & Hty & _ & _ & Hcor & Hy & Hok & Hsc & _).
    unfold Answers in Hy. rewrite lookup_empty in Hy. cbn in Hy.
    assert (Hf : d_is_correct d = false).
    { rewrite Hok, Hy. destruct (is_mcq ty) eqn:Em; [|done].
      unfold mcq_ok. cbn [py_str]. change (upper "None") with "NONE".
      apply String.eqb_neq. intros Heq.
      eapply (Hkeys row ty c); [|done..|by symmetry].
      apply list_elem_of_lookup. by exists i. }
    by rewrite Hsc, Hf. }
  split; [|done]. apply sum_from_zeros.
  apply Forall_fmap. eapply Forall_impl; [exact Hall|]. by intros d (_ & _ & Hd).
Qed.
End GradingMore.

(** ** More on the tolerance *)

Lemma SFleb_abs_nonneg x y : SFleb (SFabs x) y = true -> nonneg y.
Proof.
  destruct x as [sx|sx| |sx mx ex], y as [sy|[|]| |[|] my ey]; cbn; try done.
Qed.

Lemma leb_abs_nonneg d t :
  PrimFloat.leb (PrimFloat.abs d) t = true -> PrimFloat.leb 0 t = true.
Proof.
  rewrite leb_spec, abs_spec. intros H. apply leb_zero_nonneg.
  by eapply SFleb_abs_nonneg.
Qed.

Lemma SFleb_zero_l s y : SFleb (S754_zero s) y = SFleb (S754_zero false) y.
Proof. by destruct y as [sy|[|]| |[|] my ey]. Qed.

Lemma SFleb_abs_zero x :
  SFleb (SFabs x) (S754_zero false) = true -> ∃ s, SFabs x = S754_zero s.
Proof. destruct x as [sx|sx| |sx mx ex]; cbn; try done; by eexists. Qed.

Section ToleranceMore.
Context `{B : Builtins}.

(** X6.  A tolerance that is there and is negative, or a NaN, admits no answer:
    the comparison [abs(u - c) <= tol] fails for every [u] and [c]. *)
Theorem negative_tolerance_rejects user_text correct_value tolerance t :
  tolerance_missing tolerance = false ->
  py_float tolerance = Ok t ->
  PrimFloat.leb 0 t = false ->
  check_numeric_answer user_text correct_value tolerance = false.
Proof.
  intros Hm Ht Hneg. unfold check_numeric_answer, check_numeric_body.
  destruct (is_none user_text || String.eqb (strip (py_str user_text)) ""); [done|].
  destruct (py_float (VStr _)) as [u|]; [|done]. cbn.
  destruct (py_float correct_value) as [c|]; [|done]. cbn.
  rewrite Hm, Ht. cbn.
  destruct (PrimFloat.leb (PrimFloat.abs (PrimFloat.sub u c)) t) eqn:E; [|done].
  apply leb_abs_nonneg in E. congruence.
Qed.

(** X7.  An answer that reads as the very double stored as the correct value, a
    finite one, is graded correct whenever the tolerance is missing or is
    a double not below zero, infinity included. *)
Theorem stored_value_accepted user_text correct_value tolerance u q :
  strip user_text ≠ "" ->
  float_of_str (replace_char "," "." user_text) = Some u ->
  py_float correct_value = Ok u ->
  quanta u = Some q ->
  tolerance_missing tolerance = true
  ∨ (∃ t, py_float tolerance = Ok t ∧ PrimFloat.leb 0 t = true) ->
  check_numeric_answer (VStr user_text) correct_value tolerance = true.
Proof.
  intros Hs Hu Hc Hq Htol.
  rewrite (check_numeric_answer_parsed _ _ _ u u) by done.
  assert (H0 : PrimFloat.leb (PrimFloat.abs (PrimFloat.sub u u)) 0 = true).
  { apply (float_within_exact u u 0%float q q 0%Z); [done..|lia]. }
  assert (Hany : forall t, PrimFloat.leb 0 t = true ->
            PrimFloat.leb (PrimFloat.abs (PrimFloat.sub u u)) t = true).
  { intros t Ht. rewrite leb_spec, abs_spec in *.
    change (Prim2SF 0) with (S754_zero false) in *.
    destruct (SFleb_abs_zero _ H0) as [s ->]. by rewrite SFleb_zero_l. }
  destruct Htol as [-> | (t & Ht & Hpos)].
  - by apply Hany.
  - destruct (tolerance_missing tolerance); [by apply Hany|].
    rewrite Ht. by apply Hany.
Qed.
End ToleranceMore.

Lemma sub_self_within u q t :
  quanta u = Some q -> PrimFloat.leb 0 t = true ->
  PrimFloat.leb (PrimFloat.abs (PrimFloat.sub u u)) t = true.
Proof.
  intros Hq Ht.
  assert (H0 : PrimFloat.leb (PrimFloat.abs (PrimFloat.sub u u)) 0 = true).
  { apply (float_within_exact u u 0%float q q 0%Z); [done..|lia]. }
  rewrite leb_spec, abs_spec in *.
  change (Prim2SF 0) with (S754_zero false) in *.
  destruct (SFleb_abs_zero _ H0) as [s ->]. by rewrite SFleb_zero_l.
Qed.

Section NumericAnswers.
Context `{B : Builtins}.

(** C4.  [check_numeric_answer] reads the answer with a comma as with a
    point: the grade of a text is the grade of the text with its commas
    replaced, so "3,14" and "3.14" are graded alike.  An answer that is not
    blank and that [float] reads, after the replacement, as [u] is graded
    by the comparison of [abs(u - c)] with the tolerance in force, and is
    graded correct when [u] is the stored value itself.  An answer that is
    absent, blank or not a number is graded false, and no error of the body
    leaves the function. *)
Theorem numeric_answer_parsing (user_text : string) (correct_value tolerance : pyval) :
  check_numeric_answer (VStr (replace_char "," "." user_text)) correct_value tolerance
  = check_numeric_answer (VStr user_text) correct_value tolerance
  ∧ check_numeric_answer (VStr "3,14") correct_value tolerance
    = check_numeric_answer (VStr "3.14") correct_value tolerance
  ∧ (forall u c,
       strip user_text ≠ "" ->
       float_of_str (replace_char "," "." user_text) = Some u ->
       py_float correct_value = Ok c ->
       check_numeric_answer (VStr user_text) correct_value tolerance
       = match (if tolerance_missing tolerance then Ok 0%float
                else py_float tolerance) with
         | Ok t => PrimFloat.leb (PrimFloat.abs (PrimFloat.sub u c)) t
         | Raise _ => false
         end)
  ∧ (forall u q,
       strip user_text ≠ "" ->
       float_of_str (replace_char "," "." user_text) = Some u ->
       py_float correct_value = Ok u ->
       quanta u = Some q ->
       tolerance_missing tolerance = true ->
       check_numeric_answer (VStr user_text) correct_value tolerance = true)
  ∧ (float_of_str (replace_char "," "." user_text) = None ->
     check_numeric_answer (VStr user_text) correct_value tolerance = false)
  ∧ (strip user_text = "" ->
     check_numeric_answer (VStr user_text) correct_value tolerance = false)
  ∧ check_numeric_answer VNone correct_value tolerance = false
  ∧ (forall v e, check_numeric_body v correct_value tolerance = Raise e ->
     check_numeric_answer v correct_value tolerance = false).
Proof.
  assert (Hrep : forall s,
    check_numeric_answer (VStr (replace_char "," "." s)) correct_value tolerance
    = check_numeric_answer (VStr s) correct_value tolerance).
  { intros s. unfold check_numeric_answer, check_numeric_body. cbn [py_str is_none].
    by rewrite strip_replace_empty, replace_char_idem. }
  split; [apply Hrep|]. split; [apply (Hrep "3,14")|].
  split; [|split; [|split; [|split; [|split]]]].
  - intros u c Hs Hu Hc. by apply check_numeric_answer_parsed.
  - intros u q Hs Hu Hc Hq Hm.
    rewrite (check_numeric_answer_parsed _ _ _ u u) by done. rewrite Hm.
    by apply (sub_self_within u q).
  - intros Hnone. unfold check_numeric_answer, check_numeric_body.
    cbn [py_str is_none orb py_float]. rewrite Hnone.
    by destruct (String.eqb (strip user_text) "").
  - intros Hblank. unfold check_numeric_answer, check_numeric_body.
    cbn [py_str is_none orb]. by rewrite Hblank.
  - done.
  - intros v e He. unfold check_numeric_answer. by rewrite He.
Qed.
End NumericAnswers.

(** C4 on examples: "3,14" is read as 3.14 and graded correct against it;
    "abc" and a blank answer are graded false. *)
Lemma numeric_answer_parsing_witness :
  float_of_str (replace_char "," "." "3,14") = Some 3.14%float
  ∧ check_numeric_answer (VStr "3,14") (VFloat 3.14) VNone = true
  ∧ check_numeric_answer (VStr "3,14") (VFloat 113.1) (VFloat 5.66)
    = PrimFloat.leb (PrimFloat.abs (PrimFloat.sub 3.14 113.1)) 5.66
  ∧ float_of_str (replace_char "," "." "abc") = None
  ∧ check_numeric_answer (VStr "abc") (VFloat 113.1) (VFloat 5.66) = false
  ∧ strip "  " = ""
  ∧ check_numeric_answer (VStr "  ") (VFloat 113.1) (VFloat 5.66) = false.
Proof.
  pose proof (numeric_answer_parsing "3,14" (VFloat 3.14) VNone)
    as (_ & _ & _ & Hexact & _).
  pose proof (numeric_answer_parsing "3,14" (VFloat 113.1) (VFloat 5.66))
    as (_ & _ & Hcmp & _).
  pose proof (numeric_answer_parsing "abc" (VFloat 113.1) (VFloat 5.66))
    as (_ & _ & _ & _ & Hparse & _).
  pose proof (numeric_answer_parsing "  " (VFloat 113.1) (VFloat 5.66))
    as (_ & _ & _ & _ & _ & Hblank & _).
  split; [vm_compute; reflexivity|].
  split.
  { eapply (Hexact 3.14%float).
    - vm_compute. discriminate.
    - vm_compute. reflexivity.
    - reflexivity.
    - vm_compute. reflexivity.
    - reflexivity. }
  split.
  { apply (Hcmp 3.14%float 113.1%float).
    - vm_compute. discriminate.
    - vm_compute. reflexivity.
    - reflexivity. }
  split; [reflexivity|]. split; [apply Hparse; reflexivity|].
  split; [reflexivity|]. apply Hblank; reflexivity.
Defined.

(** ** More on the controls *)

(** X8.  Before the 100 minutes are over, a run of the controls with no
    button pressed (or only the save button) leaves the session as it is,
    asks for no rerun, writes no warning that the time is up, and shows
    the remaining time, the duration less the time elapsed. *)
Theorem no_early_submission ck now v ss t0 :
  ck = NoClick ∨ ck = ClickSave ->
  started ss = true ->
  start_time ss = Some t0 ->
  (now - t0 < timedelta_minutes EXAM_DURATION_MIN)%Z ->
  ∃ out, controls ck now v ss = Ok out
    ∧ session out = ss ∧ rerun out = false
    ∧ (WarningExpired ∉ written out)
    ∧ remain out = Some (timedelta_minutes EXAM_DURATION_MIN - (now - t0))%Z.
Proof.
  intros Hck Hst Ht0 Hlt.
  assert (Hc : controls ck now v ss
    = Ok {| session := ss;
            remain := Some (timedelta_minutes EXAM_DURATION_MIN - (now - t0))%Z;
            clock := Some
              ((timedelta_minutes EXAM_DURATION_MIN - (now - t0)) / 60000000,
               ((timedelta_minutes EXAM_DURATION_MIN - (now - t0)) / 1000000) mod 60)%Z;
            written := []; rerun := false |}).
  { unfold controls. rewrite Hst, Ht0.
    replace (_ && match ck with ClickStart => true | _ => false end) with false
      by (destruct Hck as [-> | ->]; by rewrite andb_false_r).
    replace (_ && match ck with ClickSubmit => true | _ => false end) with false
      by (destruct Hck as [-> | ->]; by rewrite andb_false_r).
    cbv zeta. rewrite Z.max_l by lia.
    destruct (Z.leb_spec (timedelta_minutes EXAM_DURATION_MIN - (now - t0)) 0); [lia|].
    done. }
  eexists. split; [exact Hc|]. cbn [session rerun written remain].
  repeat split. apply not_elem_of_nil.
Qed.

(** X9.  When the clock has not gone back behind the start, the time shown is
    between 00:00 and 100:00 with seconds from 0 to 59, and it is the
    remaining time in whole seconds. *)
Theorem clock_within_exam ck now v ss t0 out r mins secs :
  started ss = true ->
  start_time ss = Some t0 ->
  (t0 <= now)%Z ->
  controls ck now v ss = Ok out ->
  remain out = Some r ->
  clock out = Some (mins, secs) ->
  (0 <= r <= timedelta_minutes EXAM_DURATION_MIN
   ∧ 0 <= mins <= EXAM_DURATION_MIN ∧ 0 <= secs <= 59
   ∧ mins * 60 + secs = r / 1000000)%Z.
Proof.
  intros Hst Ht0 Hle Hc Hr Hk. unfold controls in Hc. rewrite Hst, Ht0 in Hc.
  cbv zeta in Hc.
  set (rem := Z.max (timedelta_minutes EXAM_DURATION_MIN - (now - t0)) 0) in *.
  assert (Hrem : (0 <= rem <= timedelta_minutes EXAM_DURATION_MIN)%Z).
  { unfold rem, timedelta_minutes, EXAM_DURATION_MIN. lia. }
  clearbody rem.
  assert (Hshape : remain out = Some rem ∧
            clock out = Some (rem / 60000000, (rem / 1000000) mod 60)%Z
          ∨ remain out = None).
  { repeat match type of Hc with
    | (if ?b then _ else _) = _ => destruct b
    end; injection Hc as <-; cbn; auto. }
  destruct Hshape as [[Hr' Hk'] | Hn]; [|congruence].
  rewrite Hr in Hr'. injection Hr' as ->. rewrite Hk in Hk'.
  injection Hk' as -> ->.
  unfold timedelta_minutes, EXAM_DURATION_MIN in *.
  split; [done|].
  pose proof (Z.mod_pos_bound (rem / 1000000) 60 ltac:(lia)).
  assert (rem / 60000000 = rem / 1000000 / 60)%Z as ->
    by (rewrite Z.div_div by lia; reflexivity).
  pose proof (Z.div_mod (rem / 1000000) 60 ltac:(lia)).
  assert (0 <= rem / 1000000 <= 6000)%Z.
  { split; [apply Z.div_pos; lia|]. apply Z.div_le_upper_bound; lia. }
  assert (0 <= rem / 1000000 / 60 <= 100)%Z.
  { split; [apply Z.div_pos; lia|]. apply Z.div_le_upper_bound; lia. }
  lia.
Qed.

(** ** Questions on the page *)

Lemma str_index_lookup l s :
  mem_string s l = true ->
  (0 <= str_index l s < Z.of_nat (length l))%Z
  ∧ l !! Z.to_nat (str_index l s) = Some s.
Proof.
  unfold mem_string. induction l as [|y l IH]; [done|].
  cbn [existsb str_index length]. rewrite (String.eqb_sym s y).
  destruct (String.eqb_spec y s) as [->|Hne]; cbn [orb].
  - intros _. split; [lia|done].
  - intros H. destruct (IH H) as [Hr Hl]. split; [lia|].
    replace (Z.to_nat (1 + str_index l s)) with (S (Z.to_nat (str_index l s))) by lia.
    done.
Qed.

Lemma answers_lookup_insert (a : Answers) k x : <[k := x]> a !! k = Some x.
Proof. apply lookup_insert_eq. Qed.

Lemma answers_lookup_insert_ne (a : Answers) k k' x :
  k ≠ k' -> <[k := x]> a !! k' = a !! k'.
Proof. apply lookup_insert_ne. Qed.

Section QuestionFacts.
Context `{B : Builtins}.

Lemma render_question_inv r v row ss ss' d :
  render_question r v row ss = Ok (ss', d) ->
  ∃ variant qnum ty,
    attr row "variant" ≫= py_int = Ok variant
    ∧ attr row "qnum" ≫= py_int = Ok qnum
    ∧ attr row "type" = Ok ty
    ∧ ((is_mcq ty = true ∧ options_of row = [] ∧ ss' = ss ∧ d = NoOptions)
       ∨ (ss' = (if disabled_in v ss then ss else set_answer ss (variant, qnum) r)
          ∧ (is_mcq ty = true ∧ options_of row ≠ []
             ∧ d = Radio (options_of row) (caption_of row <$> options_of row)
                     (sel_index_of (answers ss !! (variant, qnum)) (options_of row))
                     (disabled_in v ss)
             ∨ is_mcq ty = false
               ∧ d = TextInput (initial_text (answers ss !! (variant, qnum)))
                       (disabled_in v ss)))).
Proof.
  unfold render_question. intros H.
  destruct (attr row "variant" ≫= py_int) as [variant|] eqn:Ev; [|discriminate H].
  destruct (attr row "qnum" ≫= py_int) as [qnum|] eqn:Eq; [|discriminate H].
  cbn [mbind result_bind] in H.
  destruct (attr row "question") as [qt|]; [|discriminate H]. cbn [mbind result_bind] in H.
  destruct (attr row "type") as [ty|] eqn:Et; [|discriminate H]. cbn [mbind result_bind] in H.
  exists variant, qnum, ty. do 3 (split; [done|]).
  destruct (is_mcq ty) eqn:Em.
  - destruct (options_of row) as [|o os] eqn:Eo; cbv iota beta in H.
    + injection H as <- <-. by left.
    + right.
      destruct (if submitted _ then attr row "correct" else Ok VNone); [|discriminate H].
      cbn [mbind result_bind] in H. injection H as <- <-. split; [done|]. left. by repeat split.
  - right. cbv iota beta in H.
    destruct (if submitted _ then attr row "correct" else Ok VNone); [|discriminate H].
    cbn [mbind result_bind] in H. injection H as <- <-. split; [done|]. by right.
Qed.

Lemma render_question_flags r v row ss ss' d :
  render_question r v row ss = Ok (ss', d) ->
  started ss' = started ss ∧ submitted ss' = submitted ss
  ∧ start_time ss' = start_time ss ∧ active_variant ss' = active_variant ss.
Proof.
  intros H. apply render_question_inv in H
    as (variant & qnum & ty & _ & _ & _ & [(_ & _ & -> & _) | [-> _]]); [done|].
  by destruct (disabled_in v ss).
Qed.

Lemma render_question_disabled r v row ss ss' d :
  disabled_in v ss = true -> render_question r v row ss = Ok (ss', d) -> ss' = ss.
Proof.
  intros Hd H. apply render_question_inv in H
    as (variant & qnum & ty & _ & _ & _ & [(_ & _ & -> & _) | [-> _]]); [done|].
  by rewrite Hd.
Qed.

Lemma render_questions_inv v qs : forall ss ss' ds,
  render_questions v qs ss = Ok (ss', ds) ->
  match qs with
  | [] => ss' = ss ∧ ds = []
  | (row, r) :: rest =>
      ∃ ss1 d ds', render_question r v row ss = Ok (ss1, d)
        ∧ render_questions v rest ss1 = Ok (ss', ds') ∧ ds = d :: ds'
  end.
Proof.
  destruct qs as [|[row r] rest]; intros ss ss' ds H; cbn [render_questions] in H.
  - by injection H as <- <-.
  - destruct (render_question r v row ss) as [[ss1 d]|]; [|discriminate H].
    cbn [mbind result_bind] in H. cbv beta iota in H.
    destruct (render_questions v rest ss1) as [[ss2 ds']|] eqn:E; [|discriminate H].
    cbn [mbind result_bind] in H. cbv beta iota in H.
    injection H as <- <-. by exists ss1, d, ds'.
Qed.

Lemma render_questions_flags v qs : forall ss ss' ds,
  render_questions v qs ss = Ok (ss', ds) ->
  started ss' = started ss ∧ submitted ss' = submitted ss
  ∧ start_time ss' = start_time ss ∧ active_variant ss' = active_variant ss.
Proof.
  induction qs as [|[row r] rest IH]; intros ss ss' ds H;
    apply render_questions_inv in H.
  - by destruct H as [-> _].
  - destruct H as (ss1 & d & ds' & H1 & H2 & _).
    apply render_question_flags in H1 as (? & ? & ? & ?).
    apply IH in H2 as (? & ? & ? & ?). repeat split; congruence.
Qed.

Lemma render_questions_disabled v qs : forall ss ss' ds,
  disabled_in v ss = true -> render_questions v qs ss = Ok (ss', ds) -> ss' = ss.
Proof.
  induction qs as [|[row r] rest IH]; intros ss ss' ds Hd H;
    apply render_questions_inv in H.
  - by destruct H as [-> _].
  - destruct H as (ss1 & d & ds' & H1 & H2 & _).
    apply (render_question_disabled _ _ _ _ _ _ Hd) in H1 as ->. by eapply IH.
Qed.

Lemma controls_timed ck now v ss :
  timed ss -> ∃ out, controls ck now v ss = Ok out ∧ timed (session out).
Proof.
  intros Ht. unfold controls.
  destruct ((negb (started ss) || negb (active_variant ss =? v)%Z)
            && match ck with ClickStart => true | _ => false end).
  { eexists. split; [done|]. intros _. by eexists. }
  destruct ((started ss && negb (submitted ss))
            && match ck with ClickSubmit => true | _ => false end).
  { eexists. split; [done|]. exact Ht. }
  destruct (started ss) eqn:Hst.
  - destruct (Ht Hst) as [t0 Ht0]. rewrite Ht0. cbv zeta.
    match goal with |- context [if ?b then _ else _] => destruct b end;
      (eexists; split; [done|]); cbn [session]; [|exact Ht].
    intros _. by eexists.
  - eexists. split; [done|]. exact Ht.
Qed.

Lemma script_run_timed ck now v qs ss ss' :
  timed ss -> script_run ck now v qs ss = Ok ss' -> timed ss'.
Proof.
  intros Ht H. unfold script_run in H.
  destruct (controls_timed ck now v ss Ht) as (out & Hc & Hto).
  rewrite Hc in H. cbn in H.
  destruct (rerun out); [by injection H as <-|].
  destruct (started (session out)); [|by injection H as <-].
  destruct (render_questions v qs (session out)) as [[ss1 ds]|] eqn:Hr;
    [|discriminate H].
  cbn in H. injection H as <-.
  apply render_questions_flags in Hr as (Hs & _ & Hst & _).
  unfold timed. rewrite Hs, Hst. exact Hto.
Qed.

Lemma script_runs_timed runs : forall ss ss',
  timed ss -> script_runs runs ss = Ok ss' -> timed ss'.
Proof.
  induction runs as [|[[[ck now] v] qs] later IH]; intros ss ss' Ht H; cbn in H.
  - by injection H as <-.
  - destruct (script_run ck now v qs ss) as [ss1|] eqn:H1; [|discriminate H].
    cbn in H. eapply IH; [|exact H]. by eapply script_run_timed.
Qed.

(** X11.  In every session reached from the initial one, by whatever runs of the
    script, the controls return: the subtraction
    [datetime.now() - ss.start_time] never meets the [None] the session is
    created with, and a started session always has its start time. *)
Theorem timer_always_has_start runs ss ck now v :
  script_runs runs initial_session = Ok ss ->
  (started ss = true -> is_Some (start_time ss))
  ∧ ∃ out, controls ck now v ss = Ok out.
Proof.
  intros H.
  assert (Ht : timed ss).
  { eapply script_runs_timed; [|exact H]. intros Hs. discriminate Hs. }
  split; [exact Ht|].
  destruct (controls_timed ck now v ss Ht) as (out & Hc & _). by exists out.
Qed.

Lemma script_run_submitted ck now v qs ss ss' :
  started ss = true -> submitted ss = true ->
  (ck = ClickStart -> v = active_variant ss) ->
  script_run ck now v qs ss = Ok ss' -> ss' = ss.
Proof.
  intros Hst Hsub Hck.
  assert (Hd : disabled_in v ss = true).
  { unfold disabled_in. by rewrite Hsub, orb_true_r. }
  assert (Hc : controls ck now v ss
    = match start_time ss with
      | None => Raise TypeError
      | Some t0 =>
          let rem := Z.max (timedelta_minutes EXAM_DURATION_MIN - (now - t0)) 0 in
          Ok {| session := ss; remain := Some rem;
                clock := Some (rem / 60000000, (rem / 1000000) mod 60)%Z;
                written := []; rerun := false |}
      end).
  { unfold controls. rewrite Hst, Hsub. cbn [negb orb andb].
    replace (negb (active_variant ss =? v)%Z
             && match ck with ClickStart => true | _ => false end) with false.
    2:{ destruct ck; rewrite ?andb_false_r; try done.
        rewrite Hck by done. by rewrite Z.eqb_refl. }
    destruct (start_time ss); [|done]. cbv zeta. by rewrite andb_false_r. }
  unfold script_run. rewrite Hc. intros H.
  destruct (start_time ss); [|discriminate H]. cbn in H.
  rewrite Hst in H.
  destruct (render_questions v qs ss) as [[ss1 ds]|] eqn:Hr; [|discriminate H].
  cbn in H. injection H as <-. by eapply render_questions_disabled.
Qed.

(** X12.  A submitted session is final.  Whatever runs of the script
    follow, with any button other than a restart under another variant, at
    any time and with any widget values, they leave the session exactly as
    it was submitted, answers included. *)
Theorem submitted_session_is_final runs ss :
  started ss = true -> submitted ss = true ->
  Forall (fun run => run_click run = ClickStart ->
                     run_variant run = active_variant ss) runs ->
  forall ss', script_runs runs ss = Ok ss' -> ss' = ss.
Proof.
  intros Hst Hsub. induction runs as [|[[[ck now] v] qs] later IH]; intros Hall.
  - by intros ss' [= <-].
  - inversion Hall as [|? ? Hck Hrest]; subst.
    unfold run_click, run_variant in Hck. cbn in Hck.
    cbn [script_runs]. intros ss' H.
    destruct (script_run ck now v qs ss) as [ss1|] eqn:E; [|discriminate H].
    cbn in H.
    rewrite (script_run_submitted ck now v qs ss ss1 Hst Hsub Hck E) in H.
    by apply IH.
Qed.

(** X13.  An answer entered in a question of the running exam is the answer the
    grader finds for that question: after [render_question] has run enabled
    on a row, with the widget returning [returned], [grade_exam] on a bank
    holding the row reports [returned] as the answer given. *)
Theorem entered_answer_is_graded returned v row ss ss' d bank t m ds a' i :
  started ss = true -> submitted ss = false -> active_variant ss = v ->
  render_question returned v row ss = Ok (ss', d) ->
  d ≠ NoOptions ->
  rows bank !! i = Some row ->
  grade_exam bank (answers ss') = (Ok (t, m, ds), a') ->
  ∃ det, ds !! i = Some det ∧ d_your det = VStr returned.
Proof.
  intros Hst Hsub Hv Hr Hd Hi Hg.
  assert (Hen : disabled_in v ss = false).
  { unfold disabled_in. rewrite Hst, Hsub, Hv, Z.eqb_refl. done. }
  apply render_question_inv in Hr
    as (variant & qnum & ty & Hvar & Hq & _ & [(_ & _ & _ & ->) | [-> _]]); [done|].
  rewrite Hen in Hg.
  destruct (grade_exam_row _ _ _ _ _ _ _ _ Hg Hi) as (det & Hdet & Hgr).
  exists det. split; [done|].
  destruct Hgr as (v' & q' & ty' & c' & sc & (Hv' & Hq' & _) & _ & _ & _
                   & _ & _ & _ & Hyour & _).
  rewrite Hvar in Hv'. rewrite Hq in Hq'. injection Hv' as <-. injection Hq' as <-.
  rewrite Hyour. cbn [answers set_answer]. by rewrite answers_lookup_insert.
Qed.

(** X14.  What is entered in a question is shown in it again in the next run:
    the text field starts with the text entered, but blank when that text
    is None; the radio has, at an index within its options, the option
    entered preselected, and its first option when what was entered is not
    among them. *)
Theorem entered_answer_shown_again r1 r2 v row ss ss1 d1 ss2 d2 :
  started ss = true -> submitted ss = false -> active_variant ss = v ->
  render_question r1 v row ss = Ok (ss1, d1) ->
  render_question r2 v row ss1 = Ok (ss2, d2) ->
  match d2 with
  | TextInput txt _ => txt = if String.eqb r1 "None" then "" else r1
  | Radio opts caps idx _ =>
      (0 <= idx < Z.of_nat (length opts))%Z
      ∧ length caps = length opts
      ∧ if mem_string r1 opts then opts !! Z.to_nat idx = Some r1
        else idx = 0%Z
  | NoOptions => ss2 = ss
  end.
Proof.
  intros Hst Hsub Hv H1 H2.
  assert (Hen : disabled_in v ss = false).
  { unfold disabled_in. rewrite Hst, Hsub, Hv, Z.eqb_refl. done. }
  apply render_question_inv in H1
    as (variant & qnum & ty & Hvar & Hq & Hty & H1).
  apply render_question_inv in H2
    as (variant' & qnum' & ty' & Hvar' & Hq' & Hty' & H2).
  rewrite Hvar in Hvar'. rewrite Hq in Hq'. rewrite Hty in Hty'.
  injection Hvar' as <-. injection Hq' as <-. injection Hty' as <-.
  destruct H2 as [(Hm & Ho & -> & ->) | [-> H2]].
  - destruct H1 as [(_ & _ & -> & _) | [_ [(_ & Hne & _) | (Hm' & _)]]];
      [done | done | congruence].
  - destruct H1 as [(Hm & Ho & _ & _) | [-> H1]].
    { destruct H2 as [(_ & Hne & _) | (Hm' & _)]; [done | congruence]. }
    rewrite Hen in H2. cbn [answers set_answer] in H2.
    rewrite answers_lookup_insert in H2.
    destruct H2 as [(_ & Hne & ->) | (_ & ->)].
    + rewrite length_fmap. cbn [sel_index_of].
      destruct (mem_string r1 (options_of row)) eqn:Emem.
      * destruct (str_index_lookup _ _ Emem) as [Hr Hl].
        split; [exact Hr|split; [done|exact Hl]].
      * split; [|done]. destruct (options_of row); [done|].
        cbn [length]. lia.
    + done.
Qed.

Lemma render_question_frame r v row ss ss' d k :
  render_question r v row ss = Ok (ss', d) ->
  (forall variant qnum, attr row "variant" ≫= py_int = Ok variant ->
     attr row "qnum" ≫= py_int = Ok qnum -> k ≠ (variant, qnum)) ->
  answers ss' !! k = answers ss !! k.
Proof.
  intros H Hk. apply render_question_inv in H
    as (variant & qnum & ty & Hv & Hq & _ & [(_ & _ & -> & _) | [-> _]]); [done|].
  destruct (disabled_in v ss); [done|]. cbn [answers set_answer].
  apply answers_lookup_insert_ne. intros <-. by eapply Hk.
Qed.

(** X15.  Rendering the questions of a page changes nothing of the session but
    the answers under the keys of the rows rendered: the flags, the start
    time and the active variant stay, and so does every answer under
    another key, those of the other variants among them. *)
Theorem rendering_writes_own_keys v qs : forall ss ss' ds,
  render_questions v qs ss = Ok (ss', ds) ->
  started ss' = started ss ∧ submitted ss' = submitted ss
  ∧ start_time ss' = start_time ss ∧ active_variant ss' = active_variant ss
  ∧ length ds = length qs
  ∧ forall k,
      (forall row variant qnum, row ∈ qs.*1 ->
         attr row "variant" ≫= py_int = Ok variant ->
         attr row "qnum" ≫= py_int = Ok qnum -> k ≠ (variant, qnum)) ->
      answers ss' !! k = answers ss !! k.
Proof.
  intros ss ss' ds H.
  destruct (render_questions_flags _ _ _ _ _ H) as (H1 & H2 & H3 & H4).
  do 4 (split; [done|]). clear H1 H2 H3 H4.
  revert ss ss' ds H.
  induction qs as [|[row r] rest IH]; intros ss ss' ds H;
    apply render_questions_inv in H.
  - by destruct H as [-> ->].
  - destruct H as (ss1 & d & ds' & H1 & H2 & ->).
    destruct (IH _ _ _ H2) as [Hl Hf]. split; [cbn; by rewrite Hl|].
    intros k Hk. rewrite Hf.
    + eapply render_question_frame; [exact H1|].
      intros variant qnum. apply Hk. cbn. apply elem_of_cons. by left.
    + intros row' variant qnum Hin. apply Hk. cbn. apply elem_of_cons. by right.
Qed.
Lemma render_questions_frame v qs : forall ss ss' ds k,
  render_questions v qs ss = Ok (ss', ds) ->
  (forall row variant qnum, row ∈ qs.*1 ->
     attr row "variant" ≫= py_int = Ok variant ->
     attr row "qnum" ≫= py_int = Ok qnum -> k ≠ (variant, qnum)) ->
  answers ss' !! k = answers ss !! k.
Proof.
  induction qs as [|[row r] rest IH]; intros ss ss' ds k H Hk;
    apply render_questions_inv in H.
  - by destruct H as [-> _].
  - destruct H as (ss1 & d & ds' & H1 & H2 & _).
    rewrite (IH _ _ _ k H2).
    + eapply render_question_frame; [exact H1|].
      intros variant qnum. apply Hk. cbn. apply elem_of_cons. by left.
    + intros row' variant qnum Hin. apply Hk. cbn. apply elem_of_cons. by right.
Qed.

(** X10.  Pressing start (or restart, under another variant) leaves, at
    the rerun the controls ask for, a started and unsubmitted session of
    the selected variant with no answers, timed from the press.  When the
    run that follows within the 100 minutes returns, the session is still
    started, unsubmitted and timed from the press, and the only answers it
    holds are under the keys of the questions of that run: no answer of
    the exam before is left. *)
Theorem start_gives_fresh_session now later v qs1 qs2 ss :
  started ss = false ∨ active_variant ss ≠ v ->
  (later - now < timedelta_minutes EXAM_DURATION_MIN)%Z ->
  (∃ out, controls ClickStart now v ss = Ok out
     ∧ session out = fresh_session now v ∧ rerun out = true)
  ∧ forall ss',
      script_runs [(ClickStart, now, v, qs1); (NoClick, later, v, qs2)] ss = Ok ss' ->
      started ss' = true ∧ submitted ss' = false
      ∧ start_time ss' = Some now ∧ active_variant ss' = v
      ∧ forall k,
          (forall row variant qnum, row ∈ qs2.*1 ->
             attr row "variant" ≫= py_int = Ok variant ->
             attr row "qnum" ≫= py_int = Ok qnum -> k ≠ (variant, qnum)) ->
          answers ss' !! k = None.
Proof.
  intros Hdraw Hlt.
  assert (Hc : (negb (started ss) || negb (active_variant ss =? v)%Z) = true).
  { destruct Hdraw as [-> | Hne]; [done|].
    apply Z.eqb_neq in Hne. rewrite Hne. by rewrite orb_true_r. }
  assert (H0 : controls ClickStart now v ss
    = Ok {| session := fresh_session now v; remain := None; clock := None;
            written := []; rerun := true |}).
  { unfold controls. rewrite Hc. reflexivity. }
  assert (H1 : script_run ClickStart now v qs1 ss = Ok (fresh_session now v)).
  { unfold script_run. rewrite H0. reflexivity. }
  split; [eexists; split; [exact H0|]; by split|].
  intros ss' H. cbn [script_runs] in H. rewrite H1 in H.
  cbn [mbind result_bind] in H.
  assert (H2 : script_run NoClick later v qs2 (fresh_session now v)
               = fst <$> render_questions v qs2 (fresh_session now v)).
  { unfold script_run, controls, fresh_session.
    cbn [started active_variant submitted start_time negb orb andb].
    rewrite Z.eqb_refl. cbn [negb andb]. cbv zeta.
    rewrite Z.max_l by lia.
    destruct (Z.leb_spec (timedelta_minutes EXAM_DURATION_MIN - (later - now)) 0);
      [lia|].
    reflexivity. }
  rewrite H2 in H.
  destruct (render_questions v qs2 (fresh_session now v)) as [[ss2 ds]|] eqn:Hr;
    [|discriminate H].
  cbn in H. injection H as <-.
  destruct (render_questions_flags _ _ _ _ _ Hr) as (Hs & Hsub & Hst & Hav).
  do 4 (split; [done|]).
  intros k Hk. rewrite (render_questions_frame _ _ _ _ _ k Hr Hk).
  cbn [answers fresh_session]. unfold Answers. apply lookup_empty.
Qed.
End QuestionFacts.

Section ActiveVariant.
Context `{B : Builtins}.

Lemma render_question_active r v row ss ss' d :
  (forall variant, attr row "variant" ≫= py_int = Ok variant -> variant = v) ->
  answers_of_active ss ->
  render_question r v row ss = Ok (ss', d) ->
  answers_of_active ss'.
Proof.
  intros Hrow Hinv H. apply render_question_inv in H
    as (variant & qnum & ty & Hv & _ & _ & [(_ & _ & -> & _) | [-> _]]); [done|].
  destruct (disabled_in v ss) eqn:Hd; [done|].
  intros k. cbn [answers set_answer active_variant].
  destruct (decide (k = (variant, qnum))) as [->|Hne].
  - intros _. cbn. rewrite (Hrow variant Hv).
    unfold disabled_in in Hd. apply orb_false_elim in Hd as [_ Hd].
    apply negb_false_iff, Z.eqb_eq in Hd. done.
  - rewrite answers_lookup_insert_ne by done. apply Hinv.
Qed.

Lemma render_questions_active v qs : forall ss ss' ds,
  rows_of_variant v qs ->
  answers_of_active ss ->
  render_questions v qs ss = Ok (ss', ds) ->
  answers_of_active ss'.
Proof.
  induction qs as [|[row r] rest IH]; intros ss ss' ds Hrows Hinv H;
    apply render_questions_inv in H.
  - by destruct H as [-> _].
  - destruct H as (ss1 & d & ds' & H1 & H2 & _).
    inversion Hrows as [|? ? Hrow Hrest]; subst.
    eapply IH; [exact Hrest| |exact H2].
    by eapply render_question_active.
Qed.

Lemma controls_active ck now v ss out :
  answers_of_active ss -> controls ck now v ss = Ok out ->
  answers_of_active (session out).
Proof.
  intros Hinv. unfold controls.
  destruct ((negb (started ss) || negb (active_variant ss =? v)%Z)
            && match ck with ClickStart => true | _ => false end).
  { intros [= <-]. intros k. cbn [session answers]. unfold Answers.
    rewrite lookup_empty. by intros [? ?]. }
  destruct ((started ss && negb (submitted ss))
            && match ck with ClickSubmit => true | _ => false end).
  { intros [= <-]. exact Hinv. }
  destruct (started ss); [|intros [= <-]; exact Hinv].
  destruct (start_time ss); [|discriminate]. cbv zeta.
  match goal with |- context [if ?b then _ else _] => destruct b end;
    intros [= <-]; exact Hinv.
Qed.

Lemma script_run_active ck now v qs ss ss' :
  rows_of_variant v qs -> answers_of_active ss ->
  script_run ck now v qs ss = Ok ss' -> answers_of_active ss'.
Proof.
  intros Hrows Hinv H. unfold script_run in H.
  destruct (controls ck now v ss) as [out|] eqn:Hc; [|discriminate H].
  cbn [mbind result_bind] in H.
  pose proof (controls_active _ _ _ _ _ Hinv Hc) as Hout.
  destruct (rerun out); [by injection H as <-|].
  destruct (started (session out)); [|by injection H as <-].
  destruct (render_questions v qs (session out)) as [[ss1 ds]|] eqn:Hr;
    [|discriminate H].
  cbn in H. injection H as <-. by eapply render_questions_active.
Qed.

(** X16.  The answers of a session are those of its active variant.  In every
    session reached from the initial one by runs that draw, as the script
    does, rows of the variant selected, each answer is under a key whose
    variant is the active variant: starting another variant leaves no
    answer of the one before. *)
Theorem answers_are_of_active_variant runs : forall ss,
  Forall (fun run => rows_of_variant (run_variant run) (run_rows run)) runs ->
  script_runs runs initial_session = Ok ss ->
  forall variant qnum,
    is_Some (answers ss !! (variant, qnum)) -> variant = active_variant ss.
Proof.
  assert (Hgen : forall s0 ss,
    Forall (fun run => rows_of_variant (run_variant run) (run_rows run)) runs ->
    answers_of_active s0 -> script_runs runs s0 = Ok ss -> answers_of_active ss).
  { induction runs as [|[[[ck now] v] qs] later IH]; intros s0 ss Hall Hinv H;
      cbn [script_runs] in H.
    - by injection H as <-.
    - inversion Hall as [|? ? Hrun Hrest]; subst.
      unfold run_variant, run_rows in Hrun. cbn in Hrun.
      destruct (script_run ck now v qs s0) as [s1|] eqn:H1; [|discriminate H].
      cbn [mbind result_bind] in H. eapply (IH s1); [done| |exact H].
      by eapply script_run_active. }
  intros ss Hall H variant qnum Hk.
  apply (Hgen initial_session ss Hall) in H; [by apply (H (variant, qnum))|].
  intros k. cbn. unfold Answers. rewrite lookup_empty. by intros [? ?].
Qed.
End ActiveVariant.

(** ** More on the loader *)

Lemma series_get_set row k v : series_get (series_set row k v) k = Some v.
Proof.
  induction row as [|[k' v'] row IH]; cbn [series_set series_get].
  - by rewrite String.eqb_refl.
  - destruct (String.eqb k' k) eqn:E; cbn [series_get]; by rewrite E.
Qed.

Lemma series_get_set_ne row k k' v :
  k' ≠ k -> series_get (series_set row k v) k' = series_get row k'.
Proof.
  intros Hne. induction row as [|[k0 v0] row IH]; cbn [series_set series_get].
  - apply String.eqb_neq in Hne. rewrite String.eqb_sym in Hne. by rewrite Hne.
  - destruct (String.eqb_spec k0 k) as [->|Hk]; cbn [series_get].
    + apply String.eqb_neq in Hne. rewrite String.eqb_sym in Hne. by rewrite Hne.
    + by rewrite IH.
Qed.

Lemma series_set_same row k v :
  series_get row k = Some v -> series_set row k v = row.
Proof.
  induction row as [|[k' v'] row IH]; cbn [series_set series_get]; [done|].
  destruct (String.eqb k' k); [by intros [= ->]|]. intros H. by rewrite IH.
Qed.

Lemma mapM_result_inv {A C} (f : A -> result C) l : forall l',
  mapM f l = Ok l' -> Forall2 (fun x y => f x = Ok y) l l'.
Proof.
  induction l as [|x l IH]; intros l' H; cbn in H.
  - injection H as <-. constructor.
  - destruct (f x) as [y|] eqn:Ef; [|discriminate H]. cbn in H.
    destruct (mapM f l) as [ys|]; [|discriminate H]. cbn in H.
    injection H as <-. constructor; [done|by apply IH].
Qed.

Lemma mapM_result_ok {A C} (f : A -> result C) l l' :
  Forall2 (fun x y => f x = Ok y) l l' -> mapM f l = Ok l'.
Proof.
  induction 1 as [|x y l l' Hf _ IH]; [done|]. cbn. rewrite Hf. cbn.
  by rewrite IH.
Qed.

Section LoaderMore.
Context `{B : Builtins}.

Lemma astype_int_inv k df df' :
  astype_int k df = Ok df' ->
  columns df' = columns df ∧ Forall2 (cell_to_int k) (rows df) (rows df').
Proof.
  unfold astype_int. intros H.
  destruct (mapM _ (rows df)) as [rs|] eqn:E; [|discriminate H]. cbn in H.
  injection H as <-. split; [done|]. cbn [rows].
  apply mapM_result_inv in E. eapply Forall2_impl; [exact E|].
  intros row row' Hrow. cbv beta in Hrow. unfold cell_to_int.
  destruct (series_get row k) as [x|] eqn:Ex; [|discriminate Hrow].
  destruct (py_int x) as [z|] eqn:Ez; [|discriminate Hrow]. cbn in Hrow.
  injection Hrow as <-. by exists x, z.
Qed.

Lemma astype_int_fixed k df :
  Forall (fun row => ∃ z, series_get row k = Some (VInt z)) (rows df) ->
  astype_int k df = Ok df.
Proof.
  intros Hall. unfold astype_int.
  rewrite (mapM_result_ok _ (rows df) (rows df)); [by destruct df|].
  apply Forall2_same_length_lookup. split; [done|].
  intros i row row' Hi Hi'. rewrite Hi in Hi'. injection Hi' as <-.
  rewrite Forall_forall in Hall.
  destruct (Hall row) as [z Hz]; [apply list_elem_of_lookup; by exists i|].
  rewrite Hz. cbn. by rewrite (series_set_same _ _ _ Hz).
Qed.

Lemma load_bank_inv up page df' page' :
  load_bank_from_upload (Some up) page = (Ok (Some df'), page') ->
  page' = page
  ∧ ∃ df df1, reads_as up df
      ∧ filter (fun c => negb (mem_string c (columns df))) required = []
      ∧ astype_int "variant" df = Ok df1 ∧ astype_int "qnum" df1 = Ok df'.
Proof.
  unfold load_bank_from_upload, reads_as. intros H.
  destruct (endswith (lower (name up)) ".csv") eqn:Ecsv.
  - destruct (read_csv up) as [df|e] eqn:Er; [|discriminate H].
    destruct (filter _ required) eqn:Em; [|discriminate H].
    unfold exec_bind, lift, exec_ret in H.
    destruct (astype_int "variant" df) as [df1|] eqn:E1; [|discriminate H].
    destruct (astype_int "qnum" df1) as [df2|] eqn:E2; [|discriminate H].
    injection H as <- <-. split; [done|]. exists df, df1. by repeat split; auto.
  - destruct (endswith (lower (name up)) ".json") eqn:Ejson; [|discriminate H].
    destruct (read_json up) as [df|e] eqn:Er; [|discriminate H].
    destruct (filter _ required) eqn:Em; [|discriminate H].
    unfold exec_bind, lift, exec_ret in H.
    destruct (astype_int "variant" df) as [df1|] eqn:E1; [|discriminate H].
    destruct (astype_int "qnum" df1) as [df2|] eqn:E2; [|discriminate H].
    injection H as <- <-. split; [done|]. exists df, df1. by repeat split; auto.
Qed.

Lemma required_present cols :
  filter (fun c => negb (mem_string c cols)) required = [] ->
  forall c, c ∈ required -> c ∈ cols.
Proof.
  intros Hf c Hc.
  destruct (mem_string c cols) eqn:E.
  - unfold mem_string in E. apply existsb_exists in E as (c' & Hin & Heq).
    apply String.eqb_eq in Heq as ->. by apply list_elem_of_In.
  - assert (Hin : c ∈ filter (fun c => negb (mem_string c cols)) required).
    { apply list_elem_of_filter. split; [|done]. by rewrite E. }
    rewrite Hf in Hin. by apply elem_of_nil in Hin.
Qed.

Lemma mapM_result_raise {A C} (f : A -> result C) l e :
  mapM f l = Raise e -> ∃ x, x ∈ l ∧ f x = Raise e.
Proof.
  induction l as [|x l IH]; intros H; cbn in H; [discriminate H|].
  destruct (f x) as [y|e'] eqn:Ef; cbn in H.
  - destruct (mapM f l) as [ys|e''] eqn:Em; cbn in H; [discriminate H|].
    injection H as ->. destruct (IH eq_refl) as (x' & Hin & Hx').
    exists x'. split; [apply elem_of_cons; by right|done].
  - injection H as ->. exists x. split; [apply elem_of_cons; by left|done].
Qed.

Lemma astype_int_raise_int64 k df e :
  k = "variant" ∨ k = "qnum" -> int64_frame df ->
  astype_int k df = Raise e -> e = ValueError.
Proof.
  intros Hk Hdf H.
  unfold astype_int in H.
  destruct (mapM _ (rows df)) as [rs|e'] eqn:E; [discriminate H|].
  cbn in H. injection H as ->.
  apply mapM_result_raise in E as (row & Hin & Hrow).
  destruct (series_get row k) as [x|] eqn:Hx; [|by injection Hrow as <-].
  unfold int64_frame in Hdf. rewrite Forall_forall in Hdf.
  destruct (Hdf row Hin k x Hk Hx) as [_ Hval]. apply Hval.
  destruct (py_int x) as [z|e']; [discriminate Hrow|]. cbn in Hrow. congruence.
Qed.

Lemma astype_int_int64 df df1 :
  int64_frame df -> astype_int "variant" df = Ok df1 -> int64_frame df1.
Proof.
  intros Hdf H. apply astype_int_inv in H as [_ Hr].
  unfold int64_frame in *. rewrite Forall_forall in *. intros row1 Hin k x Hk Hx.
  apply list_elem_of_lookup in Hin as [i Hi].
  destruct (Forall2_lookup_r _ _ _ _ _ Hr Hi) as (row & Hi0 & y & z & Hy & Hz & ->).
  assert (Hrow : row ∈ rows df) by (apply list_elem_of_lookup; by exists i).
  destruct Hk as [-> | ->].
  - rewrite series_get_set in Hx. injection Hx as <-.
    destruct (Hdf row Hrow "variant" y (or_introl eq_refl) Hy) as [Hfit _].
    split; [|discriminate]. intros z' [= <-]. by apply Hfit.
  - rewrite series_get_set_ne in Hx by done.
    by apply (Hdf row Hrow "qnum" x (or_intror eq_refl)).
Qed.

(** X17.  Of a file whose [variant] and [qnum] cells are within the reach
    of the 64-bit cast: a bank the loader returns is the frame read from
    the file with the [variant] and [qnum] cells replaced by their [int],
    each an integer of 64 bits.  It has the six required columns, the
    columns and the number of rows of the frame read, and every other cell
    as read.  Nothing is written on the page. *)
Theorem loaded_bank_is_converted_frame up page bank page' :
  (forall df, reads_as up df -> int64_frame df) ->
  load_bank_from_upload (Some up) page = (Ok (Some bank), page') ->
  page' = page
  ∧ (forall c, c ∈ required -> c ∈ columns bank)
  ∧ ∃ df,
      reads_as up df
      ∧ columns bank = columns df
      ∧ Forall2 (fun row row' =>
           ∃ x y v q,
             series_get row "variant" = Some x ∧ py_int x = Ok v
             ∧ series_get row "qnum" = Some y ∧ py_int y = Ok q
             ∧ fits_int64 v ∧ fits_int64 q
             ∧ series_get row' "variant" = Some (VInt v)
             ∧ series_get row' "qnum" = Some (VInt q)
             ∧ forall k, k ≠ "variant" -> k ≠ "qnum" ->
                 series_get row' k = series_get row k)
          (rows df) (rows bank).
Proof.
  intros Hreach H.
  apply load_bank_inv in H as (-> & df & df1 & Hread & Hmiss & H1 & H2).
  pose proof (Hreach df Hread) as Hdf.
  apply astype_int_inv in H1 as [Hc1 Hr1]. apply astype_int_inv in H2 as [Hc2 Hr2].
  split; [done|]. split.
  { rewrite Hc2, Hc1. by apply required_present. }
  exists df. split; [exact Hread|]. split; [congruence|].
  apply Forall2_same_length_lookup. split.
  { rewrite (Forall2_length _ _ _ Hr1). by eapply Forall2_length. }
  intros i row row' Hi Hi'.
  destruct (Forall2_lookup_l _ _ _ _ _ Hr1 Hi) as (row1 & Hi1 & x & v & Hx & Hv & ->).
  destruct (Forall2_lookup_l _ _ _ _ _ Hr2 Hi1) as (row2 & Hi2 & y & q & Hy & Hq & ->).
  rewrite Hi' in Hi2. injection Hi2 as ->.
  rewrite series_get_set_ne in Hy by done.
  assert (Hrow : row ∈ rows df) by (apply list_elem_of_lookup; by exists i).
  unfold int64_frame in Hdf. rewrite Forall_forall in Hdf.
  destruct (Hdf row Hrow "variant" x (or_introl eq_refl) Hx) as [Hfv _].
  destruct (Hdf row Hrow "qnum" y (or_intror eq_refl) Hy) as [Hfq _].
  exists x, y, v, q. repeat split; try done.
  - by apply Hfv.
  - by apply Hfv.
  - by apply Hfq.
  - by apply Hfq.
  - rewrite series_get_set_ne by done. apply series_get_set.
  - apply series_get_set.
  - intros k Hk1 Hk2. by rewrite !series_get_set_ne.
Qed.

(** X18.  The loader takes a bank it has returned as it is.  When a file
    within the reach of the 64-bit cast has loaded to a bank, any file
    that is read as that bank, by [read_csv] or by [read_json], loads to
    the same bank again with nothing written: the two conversions change
    nothing, the cells they convert being integers of 64 bits already. *)
Theorem loaded_bank_loads_unchanged up page bank page' up2 page2 :
  (forall df, reads_as up df -> int64_frame df) ->
  load_bank_from_upload (Some up) page = (Ok (Some bank), page') ->
  reads_as up2 bank ->
  int64_frame bank
  ∧ load_bank_from_upload (Some up2) page2 = (Ok (Some bank), page2).
Proof.
  intros Hreach H Hread2.
  apply load_bank_inv in H as (-> & df & df1 & Hread & Hmiss & H1 & H2).
  pose proof (Hreach df Hread) as Hdf.
  pose proof (astype_int_int64 _ _ Hdf H1) as Hdf1.
  apply astype_int_inv in H1 as [Hc1 Hr1]. apply astype_int_inv in H2 as [Hc2 Hr2].
  assert (Hints : forall k, k = "variant" ∨ k = "qnum" ->
            Forall (fun row => ∃ z, series_get row k = Some (VInt z) ∧ fits_int64 z)
                   (rows bank)).
  { intros k Hk. apply Forall_forall. intros row Hin.
    apply list_elem_of_lookup in Hin as [i Hi].
    destruct (Forall2_lookup_r _ _ _ _ _ Hr2 Hi) as (row1 & Hi1 & y & q & Hy & Hq & ->).
    assert (Hrow1 : row1 ∈ rows df1) by (apply list_elem_of_lookup; by exists i).
    unfold int64_frame in Hdf1. rewrite Forall_forall in Hdf1.
    destruct Hk as [-> | ->].
    - destruct (Forall2_lookup_r _ _ _ _ _ Hr1 Hi1)
        as (row0 & Hi0 & x & v & Hx & Hv & ->).
      exists v. rewrite series_get_set_ne by done. split; [apply series_get_set|].
      destruct (Hdf1 _ Hrow1 "variant" (VInt v) (or_introl eq_refl)
                  (series_get_set _ _ _)) as [Hfit _].
      by apply Hfit.
    - exists q. split; [apply series_get_set|].
      destruct (Hdf1 _ Hrow1 "qnum" y (or_intror eq_refl) Hy) as [Hfit _].
      by apply Hfit. }
  split.
  { unfold int64_frame. apply Forall_forall. intros row Hin k x Hk Hx.
    pose proof (Hints k Hk) as Hall. rewrite Forall_forall in Hall.
    destruct (Hall row Hin) as (z & Hz & Hfit). rewrite Hz in Hx.
    injection Hx as <-. split; [by intros z' [= <-]|discriminate]. }
  assert (Hfix : forall k, k = "variant" ∨ k = "qnum" -> astype_int k bank = Ok bank).
  { intros k Hk. apply astype_int_fixed. eapply Forall_impl; [exact (Hints k Hk)|].
    intros row (z & Hz & _). by exists z. }
  assert (Hgo : forall rd : result DataFrame, rd = Ok bank ->
    match rd with
    | Ok df0 =>
        match filter (fun c => negb (mem_string c (columns df0))) required with
        | [] => do df1 <- lift (astype_int "variant" df0);
                do df2 <- lift (astype_int "qnum" df1); exec_ret (Some df2)
        | _ :: _ => do _ <- st_write (ErrorMissing (join ", "
              (filter (fun c => negb (mem_string c (columns df0))) required)));
            exec_ret None
        end
    | Raise e => do _ <- st_write (ErrorRead e); exec_ret None
    end page2 = (Ok (Some bank), page2)).
  { intros rd ->. rewrite Hc2, Hc1, Hmiss. unfold exec_bind, lift, exec_ret.
    rewrite (Hfix "variant") by (by left). by rewrite (Hfix "qnum") by (by right). }
  unfold load_bank_from_upload.
  destruct Hread2 as [[Hcsv Hr] | (Hcsv & Hjson & Hr)].
  - rewrite Hcsv. by apply Hgo.
  - rewrite Hcsv, Hjson. by apply Hgo.
Qed.

(** X19.  Of an upload within the reach of the 64-bit cast, the import
    block ends in one of three ways.  It goes on with the demo bank, having
    written the notice of it last, after no error when there is no file
    and after exactly one error when the file is refused; it goes on with
    the imported bank, having written nothing; or it raises, having
    written nothing, and then the file was read, with all required
    columns, and the exception is the [ValueError] of the conversion of a
    [variant] or [qnum] cell. *)
Theorem import_outcomes upload page r page' :
  (forall up df, upload = Some up -> reads_as up df -> int64_frame df) ->
  sidebar_import upload page = (r, page') ->
  match r with
  | Ok DemoBank =>
      upload = None ∧ page' = (page ++ [InfoDemo])%list
      ∨ ∃ up err, upload = Some up
          ∧ page' = (page ++ [err; InfoDemo])%list
          ∧ (err = ErrorUnsupported ∨ (∃ e, err = ErrorRead e)
             ∨ ∃ cols, err = ErrorMissing cols)
  | Ok (Imported bank) =>
      page' = page
      ∧ ∃ up, upload = Some up
          ∧ load_bank_from_upload (Some up) page = (Ok (Some bank), page)
  | Raise e =>
      page' = page
      ∧ e = ValueError
      ∧ ∃ up df, upload = Some up
          ∧ reads_as up df
          ∧ (forall c, c ∈ required -> c ∈ columns df)
          ∧ (astype_int "variant" df = Raise e
             ∨ ∃ df1, astype_int "variant" df = Ok df1
                 ∧ astype_int "qnum" df1 = Raise e)
  end.
Proof.
  unfold sidebar_import, load_bank_from_upload. intros Hreach H.
  destruct upload as [up|]; cbn in H.
  2:{ injection H as <- <-. by left. }
  assert (Happ : forall e1, ((page ++ [e1]) ++ [InfoDemo] = page ++ [e1; InfoDemo])%list)
    by (intros; by rewrite <- app_assoc).
  set (nm := lower (name up)) in *.
  assert (Hrd : forall rd : result DataFrame,
    (forall df, rd = Ok df -> int64_frame df) ->
    (exec_bind
       match rd with
       | Ok df =>
           match filter (fun c => negb (mem_string c (columns df))) required with
           | [] => do df1 <- lift (astype_int "variant" df);
                   do df2 <- lift (astype_int "qnum" df1); exec_ret (Some df2)
           | _ :: _ => do _ <- st_write (ErrorMissing (join ", "
                 (filter (fun c => negb (mem_string c (columns df))) required)));
               exec_ret None
           end
       | Raise e => do _ <- st_write (ErrorRead e); exec_ret None
       end
       (fun bank_df => match bank_df with
          | Some df => exec_ret (Imported df)
          | None => do _ <- st_write InfoDemo; exec_ret DemoBank
          end) page = (r, page')) ->
    match r with
    | Ok DemoBank => ∃ err, page' = (page ++ [err; InfoDemo])%list
          ∧ ((∃ e, err = ErrorRead e) ∨ ∃ cols, err = ErrorMissing cols)
    | Ok (Imported bank) => page' = page ∧ ∃ df df1, rd = Ok df
        ∧ filter (fun c => negb (mem_string c (columns df))) required = []
        ∧ astype_int "variant" df = Ok df1 ∧ astype_int "qnum" df1 = Ok bank
    | Raise e => page' = page ∧ e = ValueError
        ∧ ∃ df, rd = Ok df
        ∧ (forall c, c ∈ required -> c ∈ columns df)
        ∧ (astype_int "variant" df = Raise e
           ∨ ∃ df1, astype_int "variant" df = Ok df1
               ∧ astype_int "qnum" df1 = Raise e)
    end).
  { intros rd Hin Hrd. unfold exec_bind, lift, exec_ret, st_write in Hrd.
    destruct rd as [df|e0].
    - pose proof (Hin df eq_refl) as Hdf.
      destruct (filter _ required) as [|c0 miss] eqn:Em.
      + pose proof (required_present _ Em) as Hreq.
        destruct (astype_int "variant" df) as [df1|e1] eqn:E1.
        * pose proof (astype_int_int64 _ _ Hdf E1) as Hdf1.
          destruct (astype_int "qnum" df1) as [df2|e2] eqn:E2;
            injection Hrd as <- <-.
          -- split; [done|]. by exists df, df1.
          -- split; [done|].
             split; [by apply (astype_int_raise_int64 "qnum" df1); auto|].
             exists df. split; [done|]. split; [done|].
             right. by exists df1.
        * injection Hrd as <- <-. split; [done|].
          split; [by apply (astype_int_raise_int64 "variant" df); auto|].
          exists df. by auto.
      + injection Hrd as <- <-. eexists. rewrite Happ. split; [done|].
        right. by eexists.
    - injection Hrd as <- <-. eexists. rewrite Happ. split; [done|].
      left. by eexists. }
  destruct (endswith nm ".csv") eqn:Ecsv.
  - apply Hrd in H.
    2:{ intros df Hr. apply (Hreach up df eq_refl). left. by split. }
    destruct r as [[bank|]|e].
    + destruct H as (-> & df & df1 & Hr & Hm & H1 & H2). split; [done|].
      exists up. split; [done|]. fold nm. rewrite Ecsv, Hr, Hm.
      unfold exec_bind, lift, exec_ret. by rewrite H1, H2.
    + destruct H as (err & -> & Herr). right. exists up, err. by auto.
    + destruct H as (-> & He & df & Hr & Hreq & Hc). split; [done|].
      split; [done|]. exists up, df. split; [done|].
      split; [left; by split|]. by split.
  - destruct (endswith nm ".json") eqn:Ejson.
    + apply Hrd in H.
      2:{ intros df Hr. apply (Hreach up df eq_refl). right. by repeat split. }
      destruct r as [[bank|]|e].
      * destruct H as (-> & df & df1 & Hr & Hm & H1 & H2). split; [done|].
        exists up. split; [done|]. fold nm. rewrite Ecsv, Ejson, Hr, Hm.
        unfold exec_bind, lift, exec_ret. by rewrite H1, H2.
      * destruct H as (err & -> & Herr). right. exists up, err. by auto.
      * destruct H as (-> & He & df & Hr & Hreq & Hc). split; [done|].
        split; [done|]. exists up, df. split; [done|].
        split; [right; by repeat split|]. by split.
    + unfold exec_bind, exec_ret, st_write in H. injection H as <- <-.
      right. exists up, ErrorUnsupported. rewrite Happ. by auto.
Qed.
End LoaderMore.

(** ** More on the demo bank *)

Lemma loop_indices_NoDup : NoDup loop_indices.
Proof. apply (bool_decide_unpack (NoDup loop_indices)). vm_compute. exact I. Qed.

Lemma loop_indices_range v q :
  (v, q) ∈ loop_indices <->
  (1 <= v <= TOTAL_VARIANTS ∧ 1 <= q <= TOTAL_QUESTIONS)%Z.
Proof.
  unfold loop_indices. rewrite list_elem_of_bind. split.
  - intros (v' & Hq & Hv). apply list_elem_of_bind in Hq as (q' & Heq & Hq).
    apply list_elem_of_singleton in Heq. injection Heq as -> ->.
    apply elem_of_seqZ in Hv, Hq. lia.
  - intros [Hv Hq]. exists v. split; [|apply elem_of_seqZ; lia].
    apply list_elem_of_bind. exists q. split; [by apply list_elem_of_singleton|].
    apply elem_of_seqZ. lia.
Qed.

Section DemoBankMore.
Context `{B : Builtins} `{R : RandomModule} `{L : !RandomLaws}.

Lemma mcq_row_inv v q topic difficulty g row g' :
  mcq_row v q topic difficulty g = (Ok row, g') ->
  ∃ a b x o0 o1 o2 o3 letter,
    (2 <= a <= 9 ∧ 0 <= b <= 9 ∧ 1 <= x <= 9)%Z
    ∧ [o0; o1; o2; o3] ≡ₚ [x; x + 1; x - 1; x + 2]%Z
    ∧ letter ∈ opt_keys
    ∧ series_get row letter = Some (VStr (pretty x))
    ∧ row =
      [("variant", VInt v); ("qnum", VInt q); ("type", VStr "mcq");
       ("question", VStr (pretty a ++ "x + " ++ pretty b ++ " = "
                          ++ pretty (a * x + b)%Z ++ ". x-ийн утга?"));
       ("A", VStr (pretty o0)); ("B", VStr (pretty o1));
       ("C", VStr (pretty o2)); ("D", VStr (pretty o3));
       ("correct", VStr letter); ("score", VInt 1);
       ("solution", VStr (pretty a ++ "x = " ++ pretty (a * x + b)%Z ++ "-"
                          ++ pretty b ++ " ⇒ x=" ++ pretty x));
       ("topic", VStr topic); ("difficulty", VStr difficulty);
       ("tolerance", VStr "")].
Proof.
  unfold mcq_row, exec_bind, random_randint, random_shuffle, lift, exec_ret.
  destruct (randint 2 9 g.1) as [a g1] eqn:Ea.
  pose proof (randint_range 2 9 g.1 ltac:(lia)) as Ha. rewrite Ea in Ha.
  cbn [fst snd] in *.
  destruct (randint 0 9 g1) as [b g2] eqn:Eb.
  pose proof (randint_range 0 9 g1 ltac:(lia)) as Hb. rewrite Eb in Hb.
  cbn [fst snd] in *.
  destruct (randint 1 9 g2) as [x g3] eqn:Ex.
  pose proof (randint_range 1 9 g2 ltac:(lia)) as Hx. rewrite Ex in Hx.
  cbn [fst snd] in *.
  destruct (shuffle [x; (x + 1)%Z; (x - 1)%Z; (x + 2)%Z] g3) as [opts g4] eqn:Es.
  pose proof (shuffle_perm [x; (x + 1)%Z; (x - 1)%Z; (x + 2)%Z] g3) as Hp.
  rewrite Es in Hp. cbn [fst snd] in *.
  assert (Hlen : length opts = 4%nat) by (by rewrite Hp).
  destruct opts as [|o0 [|o1 [|o2 [|o3 [|]]]]]; try discriminate Hlen.
  assert (Hdiv : ((a * x + b - b) / a = x)%Z).
  { replace (a * x + b - b)%Z with (x * a)%Z by lia. apply Z.div_mul. lia. }
  unfold floordiv. destruct (Z.eqb_spec a 0) as [|_]; [lia|]. rewrite Hdiv.
  assert (Hin : x ∈ [o0; o1; o2; o3]) by (rewrite Hp; apply elem_of_cons; by left).
  cbn [list_index].
  destruct (Z.eqb_spec o0 x) as [->|H0]; [|
  destruct (Z.eqb_spec o1 x) as [->|H1]; [|
  destruct (Z.eqb_spec o2 x) as [->|H2]; [|
  destruct (Z.eqb_spec o3 x) as [->|H3]]]].
  5:{ exfalso. repeat (apply elem_of_cons in Hin as [Hin|Hin]; [congruence|]).
      by apply elem_of_nil in Hin. }
  all: cbn; intros [= <- <-]; eexists a, b, x, _, _, _, _, _;
    (split; [done|]); (split; [exact Hp|]);
    (split; [|split; [|reflexivity]]);
    [ apply list_elem_of_In; cbn; tauto | reflexivity ].
Qed.

Lemma num_row_inv v q topic difficulty g row g' :
  num_row v q topic difficulty g = (Ok row, g') ->
  ∃ r fr,
    (2 <= r <= 12)%Z ∧ float_of_Z r = Ok fr
    ∧ let area := round_float (PrimFloat.mul (PrimFloat.mul 3.1416%float fr) fr) 2 in
      row =
      [("variant", VInt v); ("qnum", VInt q); ("type", VStr "num");
       ("question", VStr ("Радиус " ++ pretty r
          ++ " см тойргийн талбайг π=3.1416 гэж тооцоод олоорой (см²)."));
       ("A", VStr ""); ("B", VStr ""); ("C", VStr ""); ("D", VStr "");
       ("correct", VFloat area); ("score", VInt 1);
       ("solution", VStr ("S=πr²=3.1416×" ++ pretty r ++ "²≈" ++ str_of_float area));
       ("topic", VStr topic); ("difficulty", VStr difficulty);
       ("tolerance", VFloat (round_float (PrimFloat.mul 0.05%float area) 2))].
Proof.
  unfold num_row, exec_bind, random_randint, lift, exec_ret.
  destruct (randint 2 12 g.1) as [r g1] eqn:Er.
  pose proof (randint_range 2 12 g.1 ltac:(lia)) as Hr. rewrite Er in Hr.
  cbn [fst snd] in *.
  destruct (float_of_Z r) as [fr|] eqn:Ef; [|discriminate].
  intros [= <- <-]. by exists r, fr.
Qed.

Lemma demo_row_inv v q g row g' :
  demo_row (v, q) g = (Ok row, g') ->
  ∃ topic difficulty,
    index_list topics ((q - 1) mod Z.of_nat (length topics)) = Ok topic
    ∧ index_list difficulties (q mod 3) = Ok difficulty
    ∧ if (q mod 2 =? 1)%Z then mcq_row v q topic difficulty g = (Ok row, g')
      else num_row v q topic difficulty g = (Ok row, g').
Proof.
  unfold demo_row, exec_bind, lift.
  destruct (index_list topics _) as [topic|] eqn:Et; [|discriminate].
  destruct (index_list difficulties _) as [difficulty|] eqn:Ed; [|discriminate].
  intros Hrow. exists topic, difficulty. do 2 (split; [done|]).
  by destruct (q mod 2 =? 1)%Z.
Qed.

Lemma demo_rows_inv vqs : forall g rs g',
  demo_rows vqs g = (Ok rs, g') ->
  Forall2 (fun vq row => ∃ g1 g2, demo_row vq g1 = (Ok row, g2)) vqs rs.
Proof.
  induction vqs as [|vq vqs IH]; intros g rs g' H; cbn [demo_rows] in H.
  - injection H as <- <-. constructor.
  - unfold exec_bind at 1 in H.
    destruct (demo_row vq g) as [[row|] g1] eqn:E1; [|discriminate H].
    unfold exec_bind at 1 in H.
    destruct (demo_rows vqs g1) as [[more|] g2] eqn:E2; [|discriminate H].
    injection H as <- <-. constructor; [by eexists _, _|by eapply IH].
Qed.

Lemma generate_demo_bank_inv seed g :
  (0 <= seed < 2 ^ 32)%Z ->
  ∃ bank g', generate_demo_bank seed g = (Ok bank, g')
    ∧ Forall2 (fun vq row => ∃ g1 g2, demo_row vq g1 = (Ok row, g2))
        loop_indices (rows bank)
    ∧ columns bank = match rows bank with [] => [] | r :: _ => r.*1 end.
Proof.
  intros Hseed.
  unfold generate_demo_bank, exec_bind, random_seed, np_random_seed, exec_ret.
  replace ((0 <=? seed) && (seed <? 2 ^ 32))%Z with true by lia.
  cbn [fst snd].
  destruct (demo_rows_ok loop_indices (seed_rng seed, np_seed seed))
    as (rs & g' & E & Hlen).
  rewrite E. eexists _, _. split; [reflexivity|]. split; [|done].
  by eapply demo_rows_inv.
Qed.

Lemma demo_row_layout v q g row g' :
  demo_row (v, q) g = (Ok row, g') ->
  row.*1 = bank_columns
  ∧ series_get row "variant" = Some (VInt v)
  ∧ series_get row "qnum" = Some (VInt q)
  ∧ series_get row "type"
    = Some (VStr (if (q mod 2 =? 1)%Z then "mcq" else "num"))
  ∧ series_get row "score" = Some (VInt 1)
  ∧ (∃ topic, index_list topics ((q - 1) mod 4) = Ok topic
       ∧ series_get row "topic" = Some (VStr topic))
  ∧ (∃ difficulty, index_list difficulties (q mod 3) = Ok difficulty
       ∧ series_get row "difficulty" = Some (VStr difficulty))
  ∧ ∃ c, series_get row "correct" = Some c
      ∧ match c with VStr _ | VFloat _ => True | _ => False end.
Proof.
  intros H. apply demo_row_inv in H as (topic & difficulty & Ht & Hd & H).
  change (Z.of_nat (length topics)) with 4%Z in Ht.
  destruct (q mod 2 =? 1)%Z.
  - apply mcq_row_inv in H
      as (a & b & x & o0 & o1 & o2 & o3 & letter & _ & _ & _ & _ & ->).
    repeat split; try reflexivity; eauto.
    eexists. split; [reflexivity|done].
  - apply num_row_inv in H as (r & fr & _ & _ & ->).
    repeat split; try reflexivity; eauto.
    eexists. split; [reflexivity|done].
Qed.

(** X20.  For a seed from 0 to 2^32 - 1, which [np.random.seed] accepts,
    with draws in their ranges and a shuffle that permutes,
    [generate_demo_bank] returns a bank with the fourteen columns and one
    row for each variant from 1 to 4 and question from 1 to 40, each pair
    once, in the order of the loops.  The row of question [q] of variant
    [v] holds [v] and [q], the type mcq when [q] is odd and num when it is
    even, the score 1, and the topic and difficulty [q] selects. *)
Theorem demo_bank_layout seed g :
  (0 <= seed < 2 ^ 32)%Z ->
  ∃ bank g', generate_demo_bank seed g = (Ok bank, g')
    ∧ columns bank = bank_columns
    ∧ NoDup loop_indices
    ∧ (forall v q, (v, q) ∈ loop_indices
         <-> (1 <= v <= TOTAL_VARIANTS ∧ 1 <= q <= TOTAL_QUESTIONS)%Z)
    ∧ Forall2 (fun vq row =>
         row.*1 = bank_columns
         ∧ series_get row "variant" = Some (VInt vq.1)
         ∧ series_get row "qnum" = Some (VInt vq.2)
         ∧ series_get row "type"
           = Some (VStr (if (vq.2 mod 2 =? 1)%Z then "mcq" else "num"))
         ∧ series_get row "score" = Some (VInt 1)
         ∧ (∃ topic, index_list topics ((vq.2 - 1) mod 4) = Ok topic
              ∧ series_get row "topic" = Some (VStr topic))
         ∧ (∃ difficulty, index_list difficulties (vq.2 mod 3) = Ok difficulty
              ∧ series_get row "difficulty" = Some (VStr difficulty)))
        loop_indices (rows bank).
Proof.
  intros Hseed.
  destruct (generate_demo_bank_inv seed g Hseed) as (bank & g' & E & Hall & Hcols).
  exists bank, g'. split; [exact E|].
  assert (Hrows : Forall2 (fun vq row =>
         row.*1 = bank_columns
         ∧ series_get row "variant" = Some (VInt vq.1)
         ∧ series_get row "qnum" = Some (VInt vq.2)
         ∧ series_get row "type"
           = Some (VStr (if (vq.2 mod 2 =? 1)%Z then "mcq" else "num"))
         ∧ series_get row "score" = Some (VInt 1)
         ∧ (∃ topic, index_list topics ((vq.2 - 1) mod 4) = Ok topic
              ∧ series_get row "topic" = Some (VStr topic))
         ∧ (∃ difficulty, index_list difficulties (vq.2 mod 3) = Ok difficulty
              ∧ series_get row "difficulty" = Some (VStr difficulty)))
        loop_indices (rows bank)).
  { eapply Forall2_impl; [exact Hall|]. intros [v q] row (g1 & g2 & Hrow).
    apply demo_row_layout in Hrow as (? & ? & ? & ? & ? & ? & ? & _).
    by repeat split. }
  split; [|split; [exact loop_indices_NoDup|split; [exact loop_indices_range|done]]].
  rewrite Hcols. destruct (rows bank) as [|r rest] eqn:Er.
  - apply Forall2_length in Hrows. discriminate Hrows.
  - inversion Hrows as [|vq ? ? ? Hr _]; subst. by destruct Hr as [-> _].
Qed.

(** X21.  For a seed from 0 to 2^32 - 1, [generate_demo_bank] returns a
    bank, and in every multiple-choice row of it the letter stored as
    correct names the option that solves the equation of the question:
    the question reads [a]x + [b] = [a*x+b] with 2 <= a <= 9, 0 <= b <= 9
    and 1 <= x <= 9, the four options are x, x+1, x-1 and x+2 in some
    order, the option under the correct letter is x, and the solution
    ends in x. *)
Theorem demo_mcq_correct_option seed g :
  (0 <= seed < 2 ^ 32)%Z ->
  ∃ bank g', generate_demo_bank seed g = (Ok bank, g')
    ∧ Forall (fun row =>
        series_get row "type" = Some (VStr "mcq") ->
        ∃ a b x o0 o1 o2 o3 letter,
          (2 <= a <= 9 ∧ 0 <= b <= 9 ∧ 1 <= x <= 9)%Z
          ∧ series_get row "question"
            = Some (VStr (pretty a ++ "x + " ++ pretty b ++ " = "
                          ++ pretty (a * x + b)%Z ++ ". x-ийн утга?"))
          ∧ series_get row "A" = Some (VStr (pretty o0))
          ∧ series_get row "B" = Some (VStr (pretty o1))
          ∧ series_get row "C" = Some (VStr (pretty o2))
          ∧ series_get row "D" = Some (VStr (pretty o3))
          ∧ [o0; o1; o2; o3] ≡ₚ [x; x + 1; x - 1; x + 2]%Z
          ∧ letter ∈ opt_keys
          ∧ series_get row "correct" = Some (VStr letter)
          ∧ series_get row letter = Some (VStr (pretty x))
          ∧ series_get row "solution"
            = Some (VStr (pretty a ++ "x = " ++ pretty (a * x + b)%Z ++ "-"
                          ++ pretty b ++ " ⇒ x=" ++ pretty x)))
        (rows bank).
Proof.
  intros Hseed.
  destruct (generate_demo_bank_inv seed g Hseed) as (bank & g' & E & Hall & _).
  exists bank, g'. split; [exact E|].
  apply Forall_forall. intros row Hin.
  apply list_elem_of_lookup in Hin as [i Hi].
  destruct (Forall2_lookup_r _ _ _ _ _ Hall Hi) as ([v q] & _ & g1 & g2 & Hrow).
  apply demo_row_inv in Hrow as (topic & difficulty & _ & _ & Hrow).
  destruct (q mod 2 =? 1)%Z.
  - apply mcq_row_inv in Hrow
      as (a & b & x & o0 & o1 & o2 & o3 & letter & Hr & Hp & Hl & Hx & ->).
    intros _. exists a, b, x, o0, o1, o2, o3, letter.
    split; [done|]. repeat split; try reflexivity; done.
  - apply num_row_inv in Hrow as (r & fr & _ & _ & ->). intros Hty.
    discriminate Hty.
Qed.

Lemma demo_row_gradable vq g row g' :
  demo_row vq g = (Ok row, g') ->
  gradable row ∧ attr row "score" ≫= py_float = Ok 1%float.
Proof.
  destruct vq as [v q]. intros H.
  apply demo_row_layout in H as (_ & Hv & Hq & Ht & Hs & _ & _ & c & Hc & _).
  assert (Hsc : attr row "score" ≫= py_float = Ok 1%float).
  { unfold attr. rewrite Hs. reflexivity. }
  split; [|done].
  exists v, q, (VStr (if (q mod 2 =? 1)%Z then "mcq" else "num")), c, 1%float.
  unfold row_reads, attr. rewrite Hv, Hq, Ht, Hc. by repeat split.
Qed.

Lemma sum_from_ones (xs : list float) :
  Forall (fun x => x = 1%float) xs -> xs = replicate (length xs) 1%float.
Proof.
  induction 1 as [|x xs -> _ IH]; [done|]. cbn. by rewrite <- IH.
Qed.

(** X22.  The demo bank of a seed from 0 to 2^32 - 1 can be graded,
    whatever the answers: [grade_exam]
    returns on it, and the maximum it returns is 160.0, one point for each
    of the 4 x 40 questions. *)
Theorem demo_bank_is_gradable seed g :
  (0 <= seed < 2 ^ 32)%Z ->
  ∃ bank g', generate_demo_bank seed g = (Ok bank, g')
    ∧ forall a, ∃ t ds,
        grade_exam bank a = (Ok (t, 160%float, ds), a)
        ∧ length ds = 160%nat.
Proof.
  intros Hseed.
  destruct (generate_demo_bank_inv seed g Hseed) as (bank & g' & E & Hall & _).
  exists bank, g'. split; [exact E|]. intros a.
  assert (Hg : Forall gradable (rows bank)).
  { apply Forall_forall. intros row Hin.
    apply list_elem_of_lookup in Hin as [i Hi].
    destruct (Forall2_lookup_r _ _ _ _ _ Hall Hi) as (vq & _ & g1 & g2 & Hrow).
    by apply demo_row_gradable in Hrow as [? _]. }
  destruct (grade_exam_returns bank a Hg) as (t & m & ds & H).
  exists t, ds. rewrite H.
  apply grade_exam_inv in H as (_ & Hgr & _ & ->).
  assert (Hlen : length ds = 160%nat).
  { rewrite <- (Forall2_length _ _ _ Hgr), <- (Forall2_length _ _ _ Hall).
    reflexivity. }
  split; [|done].
  assert (Hones : Forall (fun x => x = 1%float) (d_max_score <$> ds)).
  { apply Forall_fmap, Forall_forall. intros d Hin.
    apply list_elem_of_lookup in Hin as [i Hi].
    destruct (Forall2_lookup_r _ _ _ _ _ Hgr Hi)
      as (row & Hrow & v & q & ty & c & s & (_ & _ & _ & _ & Hs) & _ & _ & _ & _
          & _ & _ & _ & _ & _ & Hmx).
    destruct (Forall2_lookup_r _ _ _ _ _ Hall Hrow) as (vq & _ & g1 & g2 & Hdr).
    apply demo_row_gradable in Hdr as [_ Hone]. cbn. congruence. }
  apply sum_from_ones in Hones. rewrite length_fmap, Hlen in Hones.
  rewrite Hones. vm_compute. reflexivity.
Qed.
End DemoBankMore.

(** ** The properties on examples *)

(** X2 on an example. *)
Lemma details_follow_rows_witness :
  ∃ t m ds a',
    grade_exam example_mcq_bank {[ (1, 1) := VStr "b" ]} = (Ok (t, m, ds), a')
    ∧ length ds = length (rows example_mcq_bank)
    ∧ forall i row d, rows example_mcq_bank !! i = Some row -> ds !! i = Some d ->
        attr row "variant" ≫= py_int = Ok (d_variant d)
        ∧ attr row "qnum" ≫= py_int = Ok (d_qnum d)
        ∧ attr row "type" = Ok (d_type d)
        ∧ attr row "correct" = Ok (d_correct d)
        ∧ d_your d
          = default VNone (({[ (1, 1) := VStr "b" ]} : Answers) !! (d_variant d, d_qnum d))
        ∧ d_topic d = get row "topic" (VStr "")
        ∧ d_difficulty d = get row "difficulty" (VStr "").
Proof.
  eexists _, _, _, _. split; [vm_compute; reflexivity|].
  eapply (details_follow_rows example_mcq_bank {[ (1, 1) := VStr "b" ]}).
  vm_compute. reflexivity.
Defined.

(** X3 on an example. *)
Lemma grade_exam_reads_bank_keys_witness :
  (grade_exam example_mcq_bank {[ (1, 1) := VStr "b" ]}).1
  = (grade_exam example_mcq_bank {[ (1, 1) := VStr "b"; (2, 1) := VStr "C" ]}).1.
Proof.
  apply (grade_exam_reads_bank_keys example_mcq_bank).
  intros row variant qnum Hin Hv Hq.
  unfold example_mcq_bank in Hin. cbn [rows] in Hin.
  apply list_elem_of_singleton in Hin. subst row.
  vm_compute in Hv. vm_compute in Hq.
  injection Hv as <-. injection Hq as <-. vm_compute. reflexivity.
Defined.

(** X4 on an example. *)
Lemma full_marks_witness :
  ∃ t m ds a',
    grade_exam example_mcq_bank {[ (1, 1) := VStr "b" ]} = (Ok (t, m, ds), a')
    ∧ t = m.
Proof.
  eexists _, _, _, _. split; [vm_compute; reflexivity|].
  eapply (full_marks example_mcq_bank {[ (1, 1) := VStr "b" ]}).
  - vm_compute. reflexivity.
  - apply Forall_cons. split; [reflexivity|apply Forall_nil; exact I].
Defined.

(** X5 on an example. *)
Lemma unanswered_exam_scores_zero_witness :
  ∃ t m ds a',
    grade_exam example_mcq_bank ∅ = (Ok (t, m, ds), a')
    ∧ t = 0%float
    ∧ Forall (fun d => d_your d = VNone ∧ d_is_correct d = false
                       ∧ d_score d = 0%float) ds.
Proof.
  eexists _, _, _, _. split; [vm_compute; reflexivity|].
  eapply (unanswered_exam_scores_zero example_mcq_bank).
  - vm_compute. reflexivity.
  - intros row ty correct Hin Ht Hc _.
    unfold example_mcq_bank in Hin. cbn [rows] in Hin.
    apply list_elem_of_singleton in Hin. subst row.
    vm_compute in Hc. injection Hc as <-. vm_compute. discriminate.
Defined.

(** X6 on an example. *)
Lemma negative_tolerance_rejects_witness :
  check_numeric_answer (VStr "3") (VFloat 3) (VFloat (-1)) = false.
Proof.
  apply (negative_tolerance_rejects (VStr "3") (VFloat 3) (VFloat (-1)) (-1)%float);
    reflexivity.
Defined.

(** X7 on an example. *)
Lemma stored_value_accepted_witness :
  check_numeric_answer (VStr "113,1") (VFloat 113.1) VNone = true.
Proof.
  eapply (stored_value_accepted "113,1" (VFloat 113.1) VNone 113.1%float).
  - vm_compute. discriminate.
  - vm_compute. reflexivity.
  - reflexivity.
  - vm_compute. reflexivity.
  - left. reflexivity.
Defined.

(** X8 on an example. *)
Lemma no_early_submission_witness :
  ∃ out, controls NoClick (timedelta_minutes 10) 1 running_session = Ok out
    ∧ session out = running_session ∧ rerun out = false
    ∧ (WarningExpired ∉ written out)
    ∧ remain out
      = Some (timedelta_minutes EXAM_DURATION_MIN - (timedelta_minutes 10 - 0))%Z.
Proof.
  apply (no_early_submission NoClick (timedelta_minutes 10) 1 running_session 0).
  - left. reflexivity.
  - reflexivity.
  - reflexivity.
  - vm_compute. reflexivity.
Defined.

(** X9 on an example. *)
Lemma clock_within_exam_witness :
  ∃ out r mins secs,
    controls NoClick 61000000 1 running_session = Ok out
    ∧ remain out = Some r
    ∧ clock out = Some (mins, secs)
    ∧ (0 <= r <= timedelta_minutes EXAM_DURATION_MIN
       ∧ 0 <= mins <= EXAM_DURATION_MIN ∧ 0 <= secs <= 59
       ∧ mins * 60 + secs = r / 1000000)%Z.
Proof.
  eexists _, _, _, _. split; [vm_compute; reflexivity|].
  split; [vm_compute; reflexivity|]. split; [vm_compute; reflexivity|].
  eapply (clock_within_exam NoClick 61000000 1 running_session 0).
  - reflexivity.
  - reflexivity.
  - lia.
  - vm_compute. reflexivity.
  - vm_compute. reflexivity.
  - vm_compute. reflexivity.
Defined.

(** X10 on an example. *)
Lemma start_gives_fresh_session_witness :
  (∃ out, controls ClickStart 0 1 initial_session = Ok out
     ∧ session out = fresh_session 0 1 ∧ rerun out = true)
  ∧ forall ss',
      script_runs [(ClickStart, 0, 1, []);
                   (NoClick, 1000000, 1, [(options_row, "C")])]%Z
        initial_session = Ok ss' ->
      started ss' = true ∧ submitted ss' = false
      ∧ start_time ss' = Some 0%Z ∧ active_variant ss' = 1%Z
      ∧ forall k,
          (forall row variant qnum, row ∈ [(options_row, "C")].*1 ->
             attr row "variant" ≫= py_int = Ok variant ->
             attr row "qnum" ≫= py_int = Ok qnum -> k ≠ (variant, qnum)) ->
          answers ss' !! k = None.
Proof.
  apply (start_gives_fresh_session 0 1000000 1 [] [(options_row, "C")]
           initial_session).
  - left. reflexivity.
  - vm_compute. reflexivity.
Defined.

(** X11 on an example. *)
Lemma timer_always_has_start_witness :
  ∃ ss,
    script_runs [(ClickStart, 0, 1, [])]%Z initial_session = Ok ss
    ∧ (started ss = true -> is_Some (start_time ss))
    ∧ ∃ out, controls NoClick 5 1 ss = Ok out.
Proof.
  eexists. split; [vm_compute; reflexivity|].
  eapply (timer_always_has_start [(ClickStart, 0, 1, [])]%Z).
  vm_compute. reflexivity.
Defined.

(** X12 on an example: the runs return, and with the session as it was. *)
Lemma submitted_session_is_final_witness :
  let runs := [(NoClick, 5, 1, [(options_row, "C")]);
               (ClickStart, 9, 1, [(options_row, "D")])]%Z : list Run in
  script_runs runs submitted_session = Ok submitted_session
  ∧ forall ss', script_runs runs submitted_session = Ok ss' ->
      ss' = submitted_session.
Proof.
  intros runs. split; [vm_compute; reflexivity|].
  apply (submitted_session_is_final runs submitted_session).
  - reflexivity.
  - reflexivity.
  - apply Forall_cons. split; [simpl; discriminate|].
    apply Forall_cons. split; [simpl; reflexivity|]. apply Forall_nil. exact I.
Defined.

(** X13 on an example. *)
Lemma entered_answer_is_graded_witness :
  ∃ ss' d t m ds a',
    render_question "118" 1 example_num_row
      {| started := true; submitted := false; start_time := Some 0%Z;
         answers := ∅; active_variant := 1 |} = Ok (ss', d)
    ∧ grade_exam example_num_bank (answers ss') = (Ok (t, m, ds), a')
    ∧ ∃ det, ds !! 0%nat = Some det ∧ d_your det = VStr "118".
Proof.
  eexists _, _, _, _, _, _. split; [vm_compute; reflexivity|].
  split; [vm_compute; reflexivity|].
  eapply (entered_answer_is_graded "118" 1 example_num_row
            {| started := true; submitted := false; start_time := Some 0%Z;
               answers := ∅; active_variant := 1 |} _ _ example_num_bank
            _ _ _ _ 0%nat).
  - reflexivity.
  - reflexivity.
  - reflexivity.
  - vm_compute. reflexivity.
  - discriminate.
  - reflexivity.
  - vm_compute. reflexivity.
Defined.

(** X14 on an example. *)
Lemma entered_answer_shown_again_witness :
  ∃ ss1 d1 ss2 d2,
    render_question "C" 1 options_row running_session = Ok (ss1, d1)
    ∧ render_question "D" 1 options_row ss1 = Ok (ss2, d2)
    ∧ match d2 with
      | TextInput txt _ => txt = if String.eqb "C" "None" then "" else "C"
      | Radio opts caps idx _ =>
          (0 <= idx < Z.of_nat (length opts))%Z
          ∧ length caps = length opts
          ∧ if mem_string "C" opts then opts !! Z.to_nat idx = Some "C"
            else idx = 0%Z
      | NoOptions => ss2 = running_session
      end.
Proof.
  eexists _, _, _, _. split; [vm_compute; reflexivity|].
  split; [vm_compute; reflexivity|].
  eapply (entered_answer_shown_again "C" "D" 1 options_row running_session).
  - reflexivity.
  - reflexivity.
  - reflexivity.
  - vm_compute. reflexivity.
  - vm_compute. reflexivity.
Defined.

(** X15 on an example. *)
Lemma rendering_writes_own_keys_witness :
  ∃ ss' ds,
    render_questions 1 [(options_row, "C")] running_session = Ok (ss', ds)
    ∧ started ss' = started running_session
    ∧ submitted ss' = submitted running_session
    ∧ start_time ss' = start_time running_session
    ∧ active_variant ss' = active_variant running_session
    ∧ length ds = length [(options_row, "C")]
    ∧ forall k,
        (forall row variant qnum, row ∈ [(options_row, "C")].*1 ->
           attr row "variant" ≫= py_int = Ok variant ->
           attr row "qnum" ≫= py_int = Ok qnum -> k ≠ (variant, qnum)) ->
        answers ss' !! k = answers running_session !! k.
Proof.
  eexists _, _. split; [vm_compute; reflexivity|].
  eapply (rendering_writes_own_keys 1 [(options_row, "C")] running_session).
  vm_compute. reflexivity.
Defined.

(** X16 on an example. *)
Lemma answers_are_of_active_variant_witness :
  ∃ ss,
    script_runs [(ClickStart, 0, 1, []); (NoClick, 5, 1, [(options_row, "C")])]%Z
      initial_session = Ok ss
    ∧ 1%Z = active_variant ss.
Proof.
  eexists. split; [vm_compute; reflexivity|].
  eapply answers_are_of_active_variant
    with (runs := [(ClickStart, 0, 1, []); (NoClick, 5, 1, [(options_row, "C")])]%Z)
         (qnum := 1%Z).
  - apply Forall_cons. split; [apply Forall_nil; exact I|].
    apply Forall_cons. split; [|apply Forall_nil; exact I].
    apply Forall_cons. split; [|apply Forall_nil; exact I].
    intros variant Hv. vm_compute in Hv. injection Hv as <-. reflexivity.
  - vm_compute. reflexivity.
  - eexists. vm_compute. reflexivity.
Defined.

(** The cells of [text_cells_upload] are within the reach of the cast. *)
Lemma text_cells_within_reach df :
  reads_as text_cells_upload df -> int64_frame df.
Proof.
  intros [[_ Hr] | (Hcsv & _)]; [|vm_compute in Hcsv; discriminate Hcsv].
  unfold text_cells_upload in Hr. cbn [read_csv] in Hr. injection Hr as <-.
  apply Forall_cons. split; [|apply Forall_nil; exact I].
  intros k x [-> | ->] Hx; vm_compute in Hx; injection Hx as <-.
  - split; [|intros e He; vm_compute in He; discriminate He].
    intros z Hz. vm_compute in Hz. injection Hz as <-. unfold fits_int64. lia.
  - split; [|intros e He; vm_compute in He; discriminate He].
    intros z Hz. vm_compute in Hz. injection Hz as <-. unfold fits_int64. lia.
Qed.

(** X17 on an example. *)
Lemma loaded_bank_is_converted_frame_witness :
  ∃ bank page',
    load_bank_from_upload (Some text_cells_upload) [] = (Ok (Some bank), page')
    ∧ page' = []
    ∧ (forall c, c ∈ required -> c ∈ columns bank)
    ∧ ∃ df,
        reads_as text_cells_upload df
        ∧ columns bank = columns df
        ∧ Forall2 (fun row row' =>
             ∃ x y v q,
               series_get row "variant" = Some x ∧ py_int x = Ok v
               ∧ series_get row "qnum" = Some y ∧ py_int y = Ok q
               ∧ fits_int64 v ∧ fits_int64 q
               ∧ series_get row' "variant" = Some (VInt v)
               ∧ series_get row' "qnum" = Some (VInt q)
               ∧ forall k, k ≠ "variant" -> k ≠ "qnum" ->
                   series_get row' k = series_get row k)
            (rows df) (rows bank).
Proof.
  eexists _, _. split; [vm_compute; reflexivity|].
  eapply (loaded_bank_is_converted_frame text_cells_upload []).
  - exact text_cells_within_reach.
  - vm_compute. reflexivity.
Defined.

(** X18 on an example: the bank loaded from [bank.csv] loads unchanged from
    a file read by [read_json]. *)
Lemma loaded_bank_loads_unchanged_witness :
  int64_frame whole_cells_bank
  ∧ load_bank_from_upload (Some whole_cells_upload) [InfoDemo]
    = (Ok (Some whole_cells_bank), [InfoDemo]).
Proof.
  apply (loaded_bank_loads_unchanged text_cells_upload [] whole_cells_bank []
           whole_cells_upload [InfoDemo]).
  - exact text_cells_within_reach.
  - vm_compute. reflexivity.
  - right. split; [vm_compute; reflexivity|].
    split; [vm_compute; reflexivity|reflexivity].
Defined.

(** X19 on an example. *)
Lemma import_outcomes_witness :
  Some unreadable_upload = None
    ∧ [ErrorRead ParserError; InfoDemo] = ([] ++ [InfoDemo])%list
  ∨ ∃ up err, Some unreadable_upload = Some up
      ∧ [ErrorRead ParserError; InfoDemo] = ([] ++ [err; InfoDemo])%list
      ∧ (err = ErrorUnsupported ∨ (∃ e, err = ErrorRead e)
         ∨ ∃ cols, err = ErrorMissing cols).
Proof.
  apply (import_outcomes (Some unreadable_upload) [] (Ok DemoBank)
           [ErrorRead ParserError; InfoDemo]).
  - intros up df Hup. injection Hup as <-.
    intros [[_ Hr] | (Hcsv & _)]; [discriminate Hr|].
    vm_compute in Hcsv. discriminate Hcsv.
  - vm_compute. reflexivity.
Defined.

(** X20 on an example. *)
Lemma demo_bank_layout_witness :
  ∃ bank g',
    @generate_demo_bank decimal_builtins constant_draws 12 (tt, tt) = (Ok bank, g')
    ∧ columns bank = bank_columns
    ∧ NoDup loop_indices
    ∧ (forall v q, (v, q) ∈ loop_indices
         <-> (1 <= v <= TOTAL_VARIANTS ∧ 1 <= q <= TOTAL_QUESTIONS)%Z)
    ∧ Forall2 (fun vq row =>
         row.*1 = bank_columns
         ∧ series_get row "variant" = Some (VInt vq.1)
         ∧ series_get row "qnum" = Some (VInt vq.2)
         ∧ series_get row "type"
           = Some (VStr (if (vq.2 mod 2 =? 1)%Z then "mcq" else "num"))
         ∧ series_get row "score" = Some (VInt 1)
         ∧ (∃ topic, index_list topics ((vq.2 - 1) mod 4) = Ok topic
              ∧ series_get row "topic" = Some (VStr topic))
         ∧ (∃ difficulty, index_list difficulties (vq.2 mod 3) = Ok difficulty
              ∧ series_get row "difficulty" = Some (VStr difficulty)))
        loop_indices (rows bank).
Proof.
  apply (@demo_bank_layout decimal_builtins constant_draws).
  - split; [cbn; lia | reflexivity].
  - lia.
Defined.

(** X21 on an example. *)
Lemma demo_mcq_correct_option_witness :
  ∃ bank g',
    @generate_demo_bank decimal_builtins constant_draws 12 (tt, tt) = (Ok bank, g')
    ∧ Forall (fun row =>
        series_get row "type" = Some (VStr "mcq") ->
        ∃ a b x o0 o1 o2 o3 letter,
          (2 <= a <= 9 ∧ 0 <= b <= 9 ∧ 1 <= x <= 9)%Z
          ∧ series_get row "question"
            = Some (VStr (pretty a ++ "x + " ++ pretty b ++ " = "
                          ++ pretty (a * x + b)%Z ++ ". x-ийн утга?"))
          ∧ series_get row "A" = Some (VStr (pretty o0))
          ∧ series_get row "B" = Some (VStr (pretty o1))
          ∧ series_get row "C" = Some (VStr (pretty o2))
          ∧ series_get row "D" = Some (VStr (pretty o3))
          ∧ [o0; o1; o2; o3] ≡ₚ [x; x + 1; x - 1; x + 2]%Z
          ∧ letter ∈ opt_keys
          ∧ series_get row "correct" = Some (VStr letter)
          ∧ series_get row letter = Some (VStr (pretty x))
          ∧ series_get row "solution"
            = Some (VStr (pretty a ++ "x = " ++ pretty (a * x + b)%Z ++ "-"
                          ++ pretty b ++ " ⇒ x=" ++ pretty x)))
        (rows bank).
Proof.
  apply (@demo_mcq_correct_option decimal_builtins constant_draws).
  - split; [cbn; lia | reflexivity].
  - lia.
Defined.

(** X22 on an example. *)
Lemma demo_bank_is_gradable_witness :
  ∃ bank g',
    @generate_demo_bank decimal_builtins constant_draws 12 (tt, tt) = (Ok bank, g')
    ∧ forall a, ∃ t ds,
        grade_exam bank a = (Ok (t, 160%float, ds), a)
        ∧ length ds = 160%nat.
Proof.
  apply (@demo_bank_is_gradable decimal_builtins constant_draws).
  - split; [cbn; lia | reflexivity].
  - lia.
Defined.
